(** * Emoji-Database: the generator scripts, embedded and verified

    Two scripts of the repository are embedded here:
    - [src/unnamed/part_000] (the cheerio-based generator), module [Part000];
    - [src/script/generate-emoji-counts.js] (the fast-html-parser based
      generator), module [Script].

    Both read the table rows of two HTML pages.  Locating the rows and the
    cells of a page is the work of the HTML libraries; the embedding starts
    from the rows they hand over (the text of each cell) and follows the
    scripts from there: string handling, [parseInt], [String.fromCodePoint],
    assignments to plain objects, [Object.entries], [Array.prototype.sort].
    Console output is not modelled. *)

From Stdlib Require Import ZArith NArith List Bool Ascii String Lia.
From Stdlib Require Import Permutation Sorted.
Import ListNotations.

Set Implicit Arguments.

(* ================================================================== *)
(** * JavaScript strings *)
(* ================================================================== *)

(** A JavaScript string is a sequence of UTF-16 code units; equality and
    ordering of strings, and so the identity of object keys, are equality
    and ordering of these sequences. *)
Definition jsstring := list N.

(** String literals of the scripts that are plain Basic Latin text. *)
Definition lit (s : string) : jsstring :=
  map N_of_ascii (list_ascii_of_string s).

Fixpoint str_eqb (a b : jsstring) : bool :=
  match a, b with
  | [], [] => true
  | x :: a', y :: b' => N.eqb x y && str_eqb a' b'
  | _, _ => false
  end.

Section CodeUnits.
Local Open Scope N_scope.

(** WhiteSpace and LineTerminator code points of ECMAScript, the characters
    removed by [String.prototype.trim] and skipped by [parseInt]. *)
Definition isWhiteSpace (c : N) : bool :=
  (c =? 0x09) || (c =? 0x0A) || (c =? 0x0B) || (c =? 0x0C) || (c =? 0x0D)
  || (c =? 0x20) || (c =? 0xA0) || (c =? 0x1680)
  || ((0x2000 <=? c) && (c <=? 0x200A))
  || (c =? 0x2028) || (c =? 0x2029) || (c =? 0x202F) || (c =? 0x205F)
  || (c =? 0x3000) || (c =? 0xFEFF).

Fixpoint trimStart (s : jsstring) : jsstring :=
  match s with
  | c :: s' => if isWhiteSpace c then trimStart s' else s
  | [] => []
  end.

Definition trimEnd (s : jsstring) : jsstring := rev (trimStart (rev s)).

(** [s.trim()] *)
Definition trim (s : jsstring) : jsstring := trimEnd (trimStart s).

(** [s.split(sep)] for a separator of one code unit. The result is never
    empty: the empty string splits into one empty token. *)
Fixpoint split (sep : N) (s : jsstring) : list jsstring :=
  match s with
  | [] => [[]]
  | c :: s' =>
      if c =? sep then [] :: split sep s'
      else match split sep s' with
           | tok :: toks => (c :: tok) :: toks
           | [] => [[c]]
           end
  end.

Fixpoint startsWith (s p : jsstring) : bool :=
  match p, s with
  | [], _ => true
  | x :: p', y :: s' => (x =? y) && startsWith s' p'
  | _ :: _, [] => false
  end.

(** [s.includes(needle)] *)
Fixpoint includes (s needle : jsstring) : bool :=
  startsWith s needle
  || match s with
     | [] => false
     | _ :: s' => includes s' needle
     end.

(** [s.toLowerCase()], as far as a search for a Basic Latin keyword can see
    it.  The scripts use the lower-cased name only as the receiver of
    [includes] with keywords made of the letters a-z and the space.  A-Z map
    to a-z; outside Basic Latin exactly two code points have a lower-case
    form that contains a Basic Latin letter: U+0130 (to "i" followed by
    U+0307) and U+212A, the Kelvin sign (to "k").  Every other code unit is
    kept: its lower-case form contains no Basic Latin letter either. *)
Definition lowerUnit (c : N) : list N :=
  if (0x41 <=? c) && (c <=? 0x5A) then [c + 0x20]
  else if c =? 0x130 then [0x69; 0x307]
  else if c =? 0x212A then [0x6B]
  else [c].

Definition toLowerCase (s : jsstring) : jsstring := flat_map lowerUnit s.

End CodeUnits.

(* ================================================================== *)
(** * Numbers, errors *)
(* ================================================================== *)

(** The numbers of the scripts are IEEE-754 doubles that come from
    [parseInt], from [codePointAt] and from sums and differences of such
    values: integers, the two infinities, or NaN.  [Num z] is the double
    whose value is the integer [z]; the functions below build it only for
    integers that are doubles ([toDouble] rounds the others).  The two
    zeros of IEEE are one [Num 0]: they are equal for [===], both are
    written "0" by [JSON.stringify], and no script divides. *)
Inductive number : Type :=
| NaN
| Num (z : Z)
| Infinity (negative : bool).

Definition isNaN (x : number) : bool :=
  match x with NaN => true | _ => false end.

(** The double nearest to an integer, ties to the even significand;
    Infinity from 2^1024 - 2^970 on.  Integers below 2^53 in magnitude are
    doubles; a larger one lies between two doubles [m * 2^e] and
    [(m + 1) * 2^e] with [2^52 <= m < 2^53]. *)
Definition toDouble (z : Z) : number :=
  let a := Z.abs z in
  if (a <? 2 ^ 53)%Z then Num z
  else
    let e := (Z.log2 a - 52)%Z in
    let m := Z.shiftr a e in
    let r := (a - Z.shiftl m e)%Z in
    let half := Z.shiftl 1 (e - 1) in
    let m' := if (half <? r)%Z || ((r =? half)%Z && Z.odd m)
              then (m + 1)%Z else m in
    let v := Z.shiftl m' e in
    if (2 ^ 1024 <=? v)%Z then Infinity (z <? 0)%Z
    else Num (Z.sgn z * v).

(** [x - y] on such doubles: the exact difference, rounded. *)
Definition sub (x y : number) : number :=
  match x, y with
  | NaN, _ | _, NaN => NaN
  | Num a, Num b => toDouble (a - b)
  | Infinity s, Num _ => Infinity s
  | Num _, Infinity s => Infinity (negb s)
  | Infinity s, Infinity s' => if Bool.eqb s s' then NaN else Infinity s
  end.

(** ToNumber of a property that may be missing: [undefined] converts to NaN. *)
Definition toNumber (x : option number) : number :=
  match x with Some n => n | None => NaN end.

Inductive error : Type := RangeError | TypeError.

(** A call either returns or throws; nothing in the scripts' parsing
    functions catches. *)
Inductive outcome (A : Type) : Type :=
| Returned (a : A)
| Thrown (e : error).
Arguments Thrown {A} e.

Definition bind {A B} (x : outcome A) (f : A -> outcome B) : outcome B :=
  match x with
  | Returned a => f a
  | Thrown e => Thrown e
  end.

Section ParseInt.
Local Open Scope Z_scope.

Definition digitValue (c : N) : option Z :=
  let z := Z.of_N c in
  if (0x30 <=? z) && (z <=? 0x39) then Some (z - 0x30)
  else if (0x61 <=? z) && (z <=? 0x7A) then Some (z - 0x61 + 10)
  else if (0x41 <=? z) && (z <=? 0x5A) then Some (z - 0x41 + 10)
  else None.

Definition radixDigit (R : Z) (c : N) : option Z :=
  match digitValue c with
  | Some d => if d <? R then Some d else None
  | None => None
  end.

(** Value of the longest prefix of radix-[R] digits. *)
Fixpoint parseDigits (R : Z) (s : jsstring) (acc : Z) : Z :=
  match s with
  | c :: s' =>
      match radixDigit R c with
      | Some d => parseDigits R s' (acc * R + d)
      | None => acc
      end
  | [] => acc
  end.

(** [parseInt(s, R)] for the radixes the scripts pass, 10 and 16: leading
    white space is skipped, then an optional sign, then (radix 16 only) an
    optional "0x" or "0X"; the digits that follow are read up to the first
    character that is not a digit, and whatever comes after is ignored.
    Without a first digit the result is NaN; otherwise the integer that the
    digits denote is converted to a double (Node reads the digits exactly
    for these radixes, however many there are, and rounds once). *)
Definition parseInt (s : jsstring) (R : Z) : number :=
  let s1 := trimStart s in
  let '(sign, s2) :=
    match s1 with
    | c :: s' => if N.eqb c 0x2D then (-1, s')
                 else if N.eqb c 0x2B then (1, s')
                 else (1, s1)
    | [] => (1, s1)
    end in
  let s3 :=
    if R =? 16 then
      match s2 with
      | a :: b :: s' =>
          if N.eqb a 0x30 && (N.eqb b 0x78 || N.eqb b 0x58) then s' else s2
      | _ => s2
      end
    else s2 in
  match s3 with
  | c :: _ =>
      match radixDigit R c with
      | Some _ => toDouble (sign * parseDigits R s3 0)
      | None => NaN
      end
  | [] => NaN
  end.

(** UTF-16 encoding of one code point in 0..0x10FFFF. *)
Definition utf16 (cp : Z) : jsstring :=
  if cp <=? 0xFFFF then [Z.to_N cp]
  else [Z.to_N (0xD800 + Z.shiftr (cp - 0x10000) 10);
        Z.to_N (0xDC00 + Z.land (cp - 0x10000) 0x3FF)].

Definition validCodePoint (x : number) : bool :=
  match x with
  | Num z => (0 <=? z) && (z <=? 0x10FFFF)
  | _ => false
  end.

(** [String.fromCodePoint(...cps)]: a RangeError at the first argument that
    is not an integer in 0..0x10FFFF (NaN and the infinities are no
    integers). *)
Fixpoint fromCodePoint (cps : list number) : outcome jsstring :=
  match cps with
  | [] => Returned []
  | Num z :: rest =>
      if (0 <=? z) && (z <=? 0x10FFFF) then
        bind (fromCodePoint rest) (fun s => Returned (utf16 z ++ s))
      else Thrown RangeError
  | _ :: _ => Thrown RangeError
  end.

(** [s.codePointAt(0)]: a leading surrogate pair is decoded, any other
    first code unit is returned as it is.  (On the empty string the result
    is [undefined]; the scripts call it on the five modifiers only.) *)
Definition codePointAt0 (s : jsstring) : number :=
  match s with
  | [] => NaN
  | hi :: rest =>
      let h := Z.of_N hi in
      if (0xD800 <=? h) && (h <=? 0xDBFF) then
        match rest with
        | lo :: _ =>
            let l := Z.of_N lo in
            if (0xDC00 <=? l) && (l <=? 0xDFFF)
            then Num (0x10000 + (h - 0xD800) * 0x400 + (l - 0xDC00))
            else Num h
        | [] => Num h
        end
      else Num h
  end.

End ParseInt.

(* ================================================================== *)
(** * Plain objects used as dictionaries *)
(* ================================================================== *)

(** The scripts keep their results in object literals [{}] and write them
    with [o[k] = v].  Such an object is more than a finite map:
    - its own properties are enumerated ([Object.keys], [Object.entries],
      [Object.values], [JSON.stringify]) with the array-index keys first, in
      ascending numeric order, and then the other keys in the order of their
      creation; overwriting a property keeps its place;
    - it inherits from [Object.prototype]: reading [o[k]] for a key that is
      not an own property finds the members of the prototype, and writing
      [o["__proto__"] = v] runs the prototype's setter and creates no
      property. *)
Module JsObject.

Definition proto : jsstring := lit "__proto__".

(** The properties of [Object.prototype] (Node.js). *)
Definition prototypeNames : list jsstring :=
  map lit
    ["constructor"; "__defineGetter__"; "__defineSetter__"; "hasOwnProperty";
     "__lookupGetter__"; "__lookupSetter__"; "isPrototypeOf";
     "propertyIsEnumerable"; "toString"; "valueOf"; "__proto__";
     "toLocaleString"]%string.

Definition inherited (k : jsstring) : bool := existsb (str_eqb k) prototypeNames.

Definition isDigit (c : N) : bool := ((0x30 <=? c) && (c <=? 0x39))%N.

(** An array index is the canonical decimal form of an integer in
    0..2^32-2: digits only, no leading zero except for "0" itself. *)
Definition arrayIndex (k : jsstring) : option N :=
  match k with
  | [] => None
  | c :: rest =>
      if forallb isDigit k
         && (negb (N.eqb c 0x30) || match rest with [] => true | _ => false end)
      then let n := fold_left (fun a d => (a * 10 + (d - 0x30))%N) k 0%N in
           if (n <? 2 ^ 32 - 1)%N then Some n else None
      else None
  end.

Definition isNamed (k : jsstring) : bool :=
  match arrayIndex k with None => true | Some _ => false end.

Section Obj.
Variable V : Type.

(** The own properties, in the order of their creation. *)
Definition t := list (jsstring * V).

Definition empty : t := [].

Fixpoint getOwn (o : t) (k : jsstring) : option V :=
  match o with
  | [] => None
  | (k', v) :: o' => if str_eqb k' k then Some v else getOwn o' k
  end.

(** Write of an own data property: in place when it exists, at the end
    when it is new. *)
Fixpoint defineOwn (o : t) (k : jsstring) (v : V) : t :=
  match o with
  | [] => [(k, v)]
  | (k', v') :: o' =>
      if str_eqb k' k then (k', v) :: o' else (k', v') :: defineOwn o' k v
  end.

(** [o[k] = v] on an object created by [{}]. *)
Definition set (o : t) (k : jsstring) (v : V) : t :=
  if str_eqb k proto then o else defineOwn o k v.

(** [o[k]] *)
Inductive lookup : Type :=
| Own (v : V)      (* an own property *)
| Inherited        (* a member of Object.prototype: truthy, not one of ours *)
| Undefined.

Definition get (o : t) (k : jsstring) : lookup :=
  match getOwn o k with
  | Some v => Own v
  | None => if inherited k then Inherited else Undefined
  end.

Fixpoint insertIndexed (x : N * (jsstring * V)) (l : list (N * (jsstring * V)))
  : list (N * (jsstring * V)) :=
  match l with
  | [] => [x]
  | y :: l' => if (fst x <=? fst y)%N then x :: l else y :: insertIndexed x l'
  end.

Definition indexed (o : t) : list (N * (jsstring * V)) :=
  flat_map (fun e => match arrayIndex (fst e) with
                     | Some n => [(n, e)]
                     | None => []
                     end) o.

(** [Object.entries(o)] *)
Definition entries (o : t) : list (jsstring * V) :=
  map snd (fold_right insertIndexed [] (indexed o))
  ++ filter (fun e => isNamed (fst e)) o.

(** [Object.keys(o)] *)
Definition keys (o : t) : list jsstring := map fst (entries o).

(** [Object.values(o)] *)
Definition values (o : t) : list V := map snd (entries o).

End Obj.

Arguments Inherited {V}.
Arguments Undefined {V}.
Arguments empty {V}.

End JsObject.

(* ================================================================== *)
(** * Data of the scripts *)
(* ================================================================== *)

(** [SKIN_TONE_MODIFIERS]: U+1F3FB .. U+1F3FF, each a surrogate pair. *)
Definition SKIN_TONE_MODIFIERS : list jsstring :=
  [utf16 0x1F3FB; utf16 0x1F3FC; utf16 0x1F3FD; utf16 0x1F3FE; utf16 0x1F3FF].

Fixpoint assoc (table : list (jsstring * jsstring)) (k : jsstring) : option jsstring :=
  match table with
  | [] => None
  | (k', v) :: rest => if str_eqb k' k then Some v else assoc rest k
  end.

Definition skinToneNames : list (jsstring * jsstring) :=
  [(utf16 0x1F3FB, lit "light skin tone");
   (utf16 0x1F3FC, lit "medium-light skin tone");
   (utf16 0x1F3FD, lit "medium skin tone");
   (utf16 0x1F3FE, lit "medium-dark skin tone");
   (utf16 0x1F3FF, lit "dark skin tone")].

(** [skinToneNames[modifier] || 'unknown skin tone']; the scripts call it
    on the five modifiers. *)
Definition getSkinToneName (modifier : jsstring) : jsstring :=
  match assoc skinToneNames modifier with
  | Some n => n
  | None => lit "unknown skin tone"
  end.

(** The records stored in [emojiData].  A field that a record literal of
    the script leaves out is [None] (it reads as [undefined]). *)
Record EmojiRecord : Type := {
  name : jsstring;
  group : jsstring;
  skin_tone_support : bool;
  dual_skin_tone_support : option bool;
  is_variant : option bool;
  base_emoji : option jsstring;
  code_points : option (list number)
}.

(** Truthiness of [data.is_variant]. *)
Definition isVariant (data : EmojiRecord) : bool :=
  match is_variant data with Some b => b | None => false end.

(** A table row of the emoji list, as the selectors see it: the text of the
    cell of class [code], [name], [group], or [None] where the row has no
    such cell. *)
Record Row : Type := {
  codeCell : option jsstring;
  nameCell : option jsstring;
  groupCell : option jsstring
}.

Definition space : N := 0x20%N.

(** [codeCell.text().trim().split(' ').map(cp => parseInt(cp, 16))] *)
Definition codePointsOf (code : jsstring) : list number :=
  map (fun cp => parseInt cp 16) (split space (trim code)).

(* ================================================================== *)
(** * parseEmojiData *)
(* ================================================================== *)

(** The two scripts have the same [parseEmojiData] up to the keywords of
    the two checks and the [code_points] field, which only [part_000]
    stores. *)
Module Builder.
Section Keywords.
Variable singleKeywords : list jsstring.
Variable dualKeywords : list jsstring.
Variable withCodePoints : bool.

(** [name.toLowerCase().includes(k1) || name.toLowerCase().includes(k2) || ...] *)
Definition hasSkinToneSupport (name : jsstring) : bool :=
  existsb (fun kw => includes (toLowerCase name) kw) singleKeywords.

Definition hasDualSkinToneSupport (name : jsstring) : bool :=
  existsb (fun kw => includes (toLowerCase name) kw) dualKeywords.

Definition stored (cps : list number) : option (list number) :=
  if withCodePoints then Some cps else None.

Definition baseRecord (name group : jsstring) (codePoints : list number)
  : EmojiRecord :=
  {| name := name;
     group := group;
     skin_tone_support := hasSkinToneSupport name;
     dual_skin_tone_support := Some (hasDualSkinToneSupport name);
     is_variant := None;
     base_emoji := None;
     code_points := stored codePoints |}.

Definition singleVariant (emoji name group : jsstring)
           (codePoints : list number) (modifier : jsstring)
  : jsstring * EmojiRecord :=
  (emoji ++ modifier,
   {| name := name ++ lit " (" ++ getSkinToneName modifier ++ lit ")";
      group := group;
      skin_tone_support := true;
      dual_skin_tone_support := None;
      is_variant := Some true;
      base_emoji := Some emoji;
      code_points := stored (codePoints ++ [codePointAt0 modifier]) |}).

Definition dualVariant (emoji name group : jsstring)
           (codePoints : list number) (modifier1 modifier2 : jsstring)
  : jsstring * EmojiRecord :=
  ((emoji ++ modifier1) ++ modifier2,
   {| name := name ++ lit " (" ++ getSkinToneName modifier1 ++ lit " and "
                   ++ getSkinToneName modifier2 ++ lit ")";
      group := group;
      skin_tone_support := true;
      dual_skin_tone_support := Some true;
      is_variant := Some true;
      base_emoji := Some emoji;
      code_points := stored (codePoints ++ [codePointAt0 modifier1;
                                            codePointAt0 modifier2]) |}).

Definition singleVariants (emoji name group : jsstring) (cps : list number)
  : list (jsstring * EmojiRecord) :=
  map (singleVariant emoji name group cps) SKIN_TONE_MODIFIERS.

Definition dualVariants (emoji name group : jsstring) (cps : list number)
  : list (jsstring * EmojiRecord) :=
  flat_map (fun modifier1 =>
              map (dualVariant emoji name group cps modifier1)
                  SKIN_TONE_MODIFIERS)
           SKIN_TONE_MODIFIERS.

(** The variant assignments of one row, in the order of the two
    [forEach] loops. *)
Definition variantEntries (emoji name group : jsstring) (cps : list number)
  : list (jsstring * EmojiRecord) :=
  if hasSkinToneSupport name then
    singleVariants emoji name group cps
    ++ (if hasDualSkinToneSupport name
        then dualVariants emoji name group cps
        else [])
  else [].

(** The assignments [emojiData[key] = record] that the loop body makes
    for one row, in order: none for a row that lacks a cell, otherwise the
    base record and then the variants.  [String.fromCodePoint] throws
    before anything is assigned. *)
Definition rowEntries (row : Row) : outcome (list (jsstring * EmojiRecord)) :=
  match codeCell row, nameCell row, groupCell row with
  | Some code, Some nameText, Some groupText =>
      let codePoints := codePointsOf code in
      bind (fromCodePoint codePoints) (fun emoji =>
        let name := trim nameText in
        let group := trim groupText in
        Returned ((emoji, baseRecord name group codePoints)
                  :: variantEntries emoji name group codePoints))
  | _, _, _ => Returned []
  end.

Definition assign (emojiData : JsObject.t EmojiRecord)
           (entry : jsstring * EmojiRecord) : JsObject.t EmojiRecord :=
  JsObject.set emojiData (fst entry) (snd entry).

(** One turn of the loop over the rows. *)
Definition processRow (emojiData : JsObject.t EmojiRecord) (row : Row)
  : outcome (JsObject.t EmojiRecord) :=
  bind (rowEntries row) (fun es => Returned (fold_left assign es emojiData)).

Fixpoint parseRows (rows : list Row) (emojiData : JsObject.t EmojiRecord)
  : outcome (JsObject.t EmojiRecord) :=
  match rows with
  | [] => Returned emojiData
  | row :: rest => bind (processRow emojiData row) (parseRows rest)
  end.

Definition parseEmojiData (rows : list Row) : outcome (JsObject.t EmojiRecord) :=
  parseRows rows JsObject.empty.

End Keywords.
End Builder.

(* ================================================================== *)
(** * generateGroupData (the same text in both scripts) *)
(* ================================================================== *)

Module Member.
Record t : Type := {
  emoji : jsstring;
  name : jsstring;
  skin_tone_support : bool;
  dual_skin_tone_support : option bool
}.
End Member.

Module Group.
Record t : Type := {
  name : jsstring;
  emojis : list Member.t
}.
End Group.

Definition newGroup (data : EmojiRecord) : Group.t :=
  {| Group.name := group data; Group.emojis := [] |}.

Definition toMember (emoji : jsstring) (data : EmojiRecord) : Member.t :=
  {| Member.emoji := emoji;
     Member.name := name data;
     Member.skin_tone_support := skin_tone_support data;
     Member.dual_skin_tone_support := dual_skin_tone_support data |}.

(** [g.emojis.push(m)]: the array of the group object is extended in place;
    the object stays where it is among the properties of [groups]. *)
Definition push (g : Group.t) (m : Member.t) : Group.t :=
  {| Group.name := Group.name g; Group.emojis := Group.emojis g ++ [m] |}.

(** The body of the loop.  [!groups[data.group]] is false as soon as the
    read finds anything, also a member of [Object.prototype]; such a member
    has no [emojis], and [push] on [undefined] is a TypeError. *)
Definition groupStep (groups : JsObject.t Group.t) (entry : jsstring * EmojiRecord)
  : outcome (JsObject.t Group.t) :=
  let '(emoji, data) := entry in
  let groups1 :=
    match JsObject.get groups (group data) with
    | JsObject.Undefined => JsObject.set groups (group data) (newGroup data)
    | _ => groups
    end in
  if isVariant data then Returned groups1
  else
    match JsObject.get groups1 (group data) with
    | JsObject.Own g =>
        Returned (JsObject.defineOwn groups1 (group data)
                                     (push g (toMember emoji data)))
    | _ => Thrown TypeError
    end.

Fixpoint groupLoop (entries : list (jsstring * EmojiRecord))
         (groups : JsObject.t Group.t) : outcome (JsObject.t Group.t) :=
  match entries with
  | [] => Returned groups
  | entry :: rest => bind (groupStep groups entry) (groupLoop rest)
  end.

Definition generateGroupData (emojiData : JsObject.t EmojiRecord)
  : outcome (list Group.t) :=
  bind (groupLoop (JsObject.entries emojiData) JsObject.empty)
       (fun groups => Returned (JsObject.values groups)).

(* ================================================================== *)
(** * The ordered list of [main]: [Object.keys(emojiData).sort()] *)
(* ================================================================== *)

(** [a < b] on strings: lexicographic on code units, a proper prefix first. *)
Fixpoint str_ltb (a b : jsstring) : bool :=
  match a, b with
  | _, [] => false
  | [], _ :: _ => true
  | x :: a', y :: b' => (x <? y)%N || ((x =? y)%N && str_ltb a' b')
  end.

Definition str_le (a b : jsstring) : Prop := str_ltb b a = false.

(** [sort()] without a comparison function orders strings by [<].  The
    algorithm is the engine's; an insertion sort stands for it here, and
    [sorted_unique] below shows that the result does not depend on that
    choice. *)
Fixpoint insertSorted (x : jsstring) (l : list jsstring) : list jsstring :=
  match l with
  | [] => [x]
  | y :: l' => if str_ltb y x then y :: insertSorted x l' else x :: l
  end.

Definition sort (l : list jsstring) : list jsstring := fold_right insertSorted [] l.

Definition orderedEmojis (emojiData : JsObject.t EmojiRecord) : list jsstring :=
  sort (JsObject.keys emojiData).

(* ================================================================== *)
(** * src/unnamed/part_000 *)
(* ================================================================== *)

Module Part000.

Definition singleKeywords : list jsstring :=
  map lit ["hand"; "person"; "people"; "face"; "gesture"; "walking";
           "standing"; "kneeling"; "running"; "standing"; "sitting"]%string.

Definition dualKeywords : list jsstring :=
  map lit ["handshake"; "people holding hands"; "couple"; "family"; "kiss";
           "couple with heart"]%string.

Definition hasSkinToneSupport := Builder.hasSkinToneSupport singleKeywords.
Definition hasDualSkinToneSupport := Builder.hasDualSkinToneSupport dualKeywords.
Definition rowEntries := Builder.rowEntries singleKeywords dualKeywords true.
Definition processRow := Builder.processRow singleKeywords dualKeywords true.
Definition parseEmojiData := Builder.parseEmojiData singleKeywords dualKeywords true.

(** [stats]: the literal has four properties; [total_with_variations] and
    [skin_tone_variations] exist only once a row has assigned them. *)
Record Stats : Type := {
  total_without_skin_tone_variations : number;
  component : number;
  dual_skin_tone_support : number;
  groups : JsObject.t number;
  total_with_variations : option number;
  skin_tone_variations : option number
}.

Definition initialStats : Stats :=
  {| total_without_skin_tone_variations := Num 0;
     component := Num 0;
     dual_skin_tone_support := Num 0;
     groups := JsObject.empty;
     total_with_variations := None;
     skin_tone_variations := None |}.

Definition setComponent (s : Stats) (count : number) : Stats :=
  {| total_without_skin_tone_variations := total_without_skin_tone_variations s;
     component := count;
     dual_skin_tone_support := dual_skin_tone_support s;
     groups := groups s;
     total_with_variations := total_with_variations s;
     skin_tone_variations := skin_tone_variations s |}.

Definition setTotal (s : Stats) (count : number) : Stats :=
  {| total_without_skin_tone_variations := total_without_skin_tone_variations s;
     component := component s;
     dual_skin_tone_support := dual_skin_tone_support s;
     groups := groups s;
     total_with_variations := Some count;
     skin_tone_variations := skin_tone_variations s |}.

Definition setVariations (s : Stats) (count : number) : Stats :=
  {| total_without_skin_tone_variations := total_without_skin_tone_variations s;
     component := component s;
     dual_skin_tone_support := dual_skin_tone_support s;
     groups := groups s;
     total_with_variations := total_with_variations s;
     skin_tone_variations := Some count |}.

Definition setGroup (s : Stats) (category : jsstring) (count : number) : Stats :=
  {| total_without_skin_tone_variations := total_without_skin_tone_variations s;
     component := component s;
     dual_skin_tone_support := dual_skin_tone_support s;
     groups := JsObject.set (groups s) category count;
     total_with_variations := total_with_variations s;
     skin_tone_variations := skin_tone_variations s |}.

Definition setResult (s : Stats) (total : number) : Stats :=
  {| total_without_skin_tone_variations := total;
     component := component s;
     dual_skin_tone_support := dual_skin_tone_support s;
     groups := groups s;
     total_with_variations := total_with_variations s;
     skin_tone_variations := skin_tone_variations s |}.

(** A row of the counts page is the list of the texts of its [td] cells.
    [$(cells[i]).text()] is the empty string where the row has no such
    cell: cheerio wraps [undefined] in an empty selection. *)
Definition cellText (cells : list jsstring) (i : nat) : jsstring := nth i cells [].

Definition categoryOf (cells : list jsstring) : jsstring := trim (cellText cells 0).

Definition countOf (cells : list jsstring) : number :=
  parseInt (trim (cellText cells 1)) 10.

(** The body of the loop. *)
Definition countRow (stats : Stats) (cells : list jsstring) : Stats :=
  let category := categoryOf cells in
  let count := countOf cells in
  if str_eqb category (lit "Component") then setComponent stats count
  else if str_eqb category (lit "Total") then setTotal stats count
  else if str_eqb category (lit "With skin tone variations")
       then setVariations stats count
  else if negb (str_eqb category (lit "Group")) && negb (isNaN count)
       then setGroup stats category count
  else stats.

(** The loop starts at index 1.  No statement of the function throws. *)
Definition parseEmojiCounts (rows : list (list jsstring)) : outcome Stats :=
  let stats := fold_left countRow (tl rows) initialStats in
  Returned
    (setResult stats
       (sub (sub (toNumber (total_with_variations stats))
                 (toNumber (skin_tone_variations stats)))
            (component stats))).

End Part000.

(* ================================================================== *)
(** * src/script/generate-emoji-counts.js *)
(* ================================================================== *)

Module Script.

Definition singleKeywords : list jsstring :=
  map lit ["hand"; "person"; "people"]%string.

Definition dualKeywords : list jsstring :=
  map lit ["handshake"; "people holding hands"]%string.

Definition hasSkinToneSupport := Builder.hasSkinToneSupport singleKeywords.
Definition hasDualSkinToneSupport := Builder.hasDualSkinToneSupport dualKeywords.
Definition rowEntries := Builder.rowEntries singleKeywords dualKeywords false.
Definition processRow := Builder.processRow singleKeywords dualKeywords false.
Definition parseEmojiData := Builder.parseEmojiData singleKeywords dualKeywords false.

(** [parseEmojiCounts] of this script converts cell texts with [Number]
    and adds the results up; [Number] accepts decimal fractions and
    exponents, so these are doubles in general.  The double arithmetic is
    not modelled: the function is embedded over any type of numbers with
    the operations it uses. *)
Section Counts.
Variable double : Type.
Variable Number : jsstring -> double.
Variable plus minus : double -> double -> double.
Variable ofInt : Z -> double.

Record Stats : Type := {
  total_without_skin_tone_variations : double;
  component : double;
  dual_skin_tone_support : double;
  groups : JsObject.t double
}.

Definition initialStats : Stats :=
  {| total_without_skin_tone_variations := ofInt 0;
     component := ofInt 0;
     dual_skin_tone_support := ofInt 0;
     groups := JsObject.empty |}.

Definition groupNames : list jsstring :=
  map lit ["Smileys & Emotion"; "People & Body"; "Animals & Nature";
           "Food & Drink"; "Travel & Places"; "Activities"; "Objects";
           "Symbols"; "Flags"]%string.

Definition componentKey : jsstring := lit "Component".

Definition skinToneMarker : jsstring := utf16 0x1F3FF.

(** A row is the list of the texts of its child nodes.  The loop over
    the cells of the first row reads the cell of the last row at the
    same index; [.text] of a missing cell is a TypeError. *)
Fixpoint columns (theadCells : list jsstring) (i : nat)
         (totalCells : list jsstring) (stats : Stats) : outcome Stats :=
  match theadCells with
  | [] => Returned stats
  | column :: rest =>
      match nth_error totalCells i with
      | None => Thrown TypeError
      | Some text =>
          let count := Number text in
          let stats' :=
            if existsb (str_eqb column) groupNames then
              {| total_without_skin_tone_variations :=
                   total_without_skin_tone_variations stats;
                 component := component stats;
                 dual_skin_tone_support := dual_skin_tone_support stats;
                 groups := JsObject.set (groups stats) column count |}
            else if str_eqb column componentKey then
              {| total_without_skin_tone_variations :=
                   total_without_skin_tone_variations stats;
                 component := count;
                 dual_skin_tone_support := dual_skin_tone_support stats;
                 groups := groups stats |}
            else stats in
          columns rest (S i) totalCells stats'
      end
  end.

(** [allRows.filter(row => row.childNodes[0].text.match(skinToneMarker))]:
    a row without child nodes makes the callback throw. *)
Fixpoint markedRows (rows : list (list jsstring))
  : outcome (list (list jsstring)) :=
  match rows with
  | [] => Returned []
  | row :: rest =>
      match row with
      | [] => Thrown TypeError
      | first :: _ =>
          bind (markedRows rest) (fun marked =>
            Returned (if includes first skinToneMarker
                      then row :: marked else marked))
      end
  end.

Definition parseEmojiCounts (allRows : list (list jsstring)) : outcome Stats :=
  match allRows with
  | [] => Thrown TypeError                      (* allRows[0].childNodes *)
  | theadCells :: _ =>
      let totalCells := last allRows [] in
      match rev totalCells with
      | [] => Thrown TypeError                  (* totalCells[-1].text *)
      | lastCell :: _ =>
          let stats0 :=
            {| total_without_skin_tone_variations := Number lastCell;
               component := component initialStats;
               dual_skin_tone_support := dual_skin_tone_support initialStats;
               groups := groups initialStats |} in
          bind (columns theadCells 0 totalCells stats0) (fun stats =>
          bind (markedRows allRows) (fun marked =>
            let counts := map (fun row => Number (last row [])) marked in
            let skinToneVariations := fold_left plus counts (ofInt 0) in
            Returned
              {| total_without_skin_tone_variations :=
                   minus (minus (total_without_skin_tone_variations stats)
                                skinToneVariations)
                         (component stats);
                 component := component stats;
                 dual_skin_tone_support := ofInt 13;
                 groups := groups stats |}))
      end
  end.

End Counts.

End Script.

(* ================================================================== *)
(** * Inputs of the scripts' self-test, and a few more *)
(* ================================================================== *)

Definition mkRow (code name group : string) : Row :=
  {| codeCell := Some (lit code);
     nameCell := Some (lit name);
     groupCell := Some (lit group) |}.

(** Rows of [mockEmojiDataHtml]. *)
Definition grinningFace : Row := mkRow "1F600" "grinning face" "Smileys & Emotion".
Definition handshake : Row := mkRow "1F91D" "handshake" "People & Body".
Definition wavingHand : Row := mkRow "1F44B" "waving hand" "People & Body".

Definition family : Row := mkRow "1F46A" "family" "People & Body".

(** Rows of [mockCountsHtml] in [part_000]. *)
Definition mockCounts : list (list jsstring) :=
  map (map lit)
      [["Group"; "Count"];
       ["Smileys & Emotion"; "100"];
       ["People & Body"; "200"];
       ["Component"; "10"];
       ["Total"; "310"];
       ["With skin tone variations"; "25"]]%string.

(* ================================================================== *)
(** * Auxiliary notions used in the statements *)
(* ================================================================== *)

(** ** Keys of a row *)

(** Boolean test of distinctness, to decide it on the keys of a row. *)
Fixpoint distinct (l : list jsstring) : bool :=
  match l with
  | [] => true
  | x :: l' => negb (existsb (str_eqb x) l') && distinct l'
  end.

(** What a row appends to its key to form the keys of its variants: one
    modifier, and, with [dual], two modifiers. *)
Definition suffixes (dual : bool) : list jsstring :=
  SKIN_TONE_MODIFIERS
  ++ (if dual
      then flat_map (fun m1 => map (fun m2 => m1 ++ m2) SKIN_TONE_MODIFIERS)
                    SKIN_TONE_MODIFIERS
      else []).

(** ** Tokens of a code *)

(** A hexadecimal numeral in the usual sense: one or more of the digits
    0-9, a-f, A-F and nothing else. *)
Definition isHexDigit (c : N) : bool :=
  match radixDigit 16 c with Some _ => true | None => false end.

Definition hexNumeral (tok : jsstring) : bool :=
  match tok with
  | [] => false
  | _ :: _ => forallb isHexDigit tok
  end.

(** A row whose code has a letter outside a-f in it, and a row whose code
    is written with the "U+" prefix. *)
Definition strayLetter : Row := mkRow "1F6G0" "grinning cat" "Smileys & Emotion".
Definition prefixedCode : Row := mkRow "U+1F600" "grinning face" "Smileys & Emotion".

(** ** Counts, [part_000] *)

(** The three labels that [parseEmojiCounts] of [part_000] treats apart. *)
Definition special (category : jsstring) : bool :=
  str_eqb category (lit "Component")
  || str_eqb category (lit "Total")
  || str_eqb category (lit "With skin tone variations").

(** The count of the last row of [rows] whose label is [label]. *)
Fixpoint lastLabelled (label : jsstring) (rows : list (list jsstring))
  : option number :=
  match rows with
  | [] => None
  | cells :: rest =>
      match lastLabelled label rest with
      | Some n => Some n
      | None => if str_eqb (Part000.categoryOf cells) label
                then Some (Part000.countOf cells) else None
      end
  end.

(** The count of the last row of [rows] whose label is [label] and whose
    count is a number. *)
Fixpoint lastCounted (label : jsstring) (rows : list (list jsstring))
  : option number :=
  match rows with
  | [] => None
  | cells :: rest =>
      match lastCounted label rest with
      | Some n => Some n
      | None => if str_eqb (Part000.categoryOf cells) label
                   && negb (isNaN (Part000.countOf cells))
                then Some (Part000.countOf cells) else None
      end
  end.


Definition countsWithProto : list (list jsstring) :=
  map (map lit)
      [["Group"; "Count"];
       ["Smileys & Emotion"; "100"];
       ["__proto__"; "5"];
       ["Total"; "105"];
       ["With skin tone variations"; "0"]]%string.


(** ** Back-references of the variants *)

(** The key of a row and the keys of its variants, read off the
    assignments of the row. *)
Definition emojiOf (entries : outcome (list (jsstring * EmojiRecord)))
  : option jsstring :=
  match entries with
  | Returned ((emoji, _) :: _) => Some emoji
  | _ => None
  end.

Definition variantKeysOf (entries : outcome (list (jsstring * EmojiRecord)))
  : list jsstring :=
  match entries with
  | Returned (_ :: variants) => map fst variants
  | _ => []
  end.

(** No row has the key "__proto__". *)
Definition noProtoKey (rowEntries : Row -> outcome (list (jsstring * EmojiRecord)))
           (rows : list Row) : bool :=
  forallb (fun row => match emojiOf (rowEntries row) with
                      | Some emoji => negb (str_eqb emoji JsObject.proto)
                      | None => true
                      end) rows.

(** No row has a variant whose key is the key of an earlier row ([seen]
    holds the keys of the rows before [rows]). *)
Fixpoint noLateCollision
         (rowEntries : Row -> outcome (list (jsstring * EmojiRecord)))
         (seen : list jsstring) (rows : list Row) : bool :=
  match rows with
  | [] => true
  | row :: rest =>
      forallb (fun k => negb (existsb (str_eqb k) seen))
              (variantKeysOf (rowEntries row))
      && noLateCollision rowEntries
                         (match emojiOf (rowEntries row) with
                          | Some emoji => emoji :: seen
                          | None => seen
                          end) rest
  end.

(** A row for a sequence with a modifier, as the charts list them. *)
Definition wavingHandLight : Row :=
  mkRow "1F44B 1F3FB" "waving hand: light skin tone" "People & Body".

(** The invariant of the loop of [parseEmojiData] behind the
    back-references: [bases] are the keys of the rows so far; every variant
    record names one of them, and each of them is present.  With [strict]
    the record found under a base key is moreover no variant. *)
Definition baseOk (strict : bool) (r : EmojiRecord) : Prop :=
  strict = true -> isVariant r = false.

Definition backrefs (strict : bool) (bases : list jsstring)
           (emojiData : JsObject.t EmojiRecord) : Prop :=
  (forall k r, JsObject.getOwn emojiData k = Some r -> isVariant r = true ->
               exists b, base_emoji r = Some b /\ In b bases)
  /\ (forall b, In b bases ->
                exists r, JsObject.getOwn emojiData b = Some r /\ baseOk strict r).

(** [noProtoKey] and [noLateCollision] as propositions, row by row. *)
Definition rowGuard (strict : bool)
           (rowEntries : Row -> outcome (list (jsstring * EmojiRecord)))
           (seen : list jsstring) (row : Row) : Prop :=
  match emojiOf (rowEntries row) with
  | Some emoji => emoji <> JsObject.proto
  | None => True
  end
  /\ (strict = true ->
      Forall (fun k => ~ In k seen) (variantKeysOf (rowEntries row))).

Definition seenAfter (rowEntries : Row -> outcome (list (jsstring * EmojiRecord)))
           (seen : list jsstring) (row : Row) : list jsstring :=
  match emojiOf (rowEntries row) with
  | Some emoji => emoji :: seen
  | None => seen
  end.

Fixpoint guarded (strict : bool)
         (rowEntries : Row -> outcome (list (jsstring * EmojiRecord)))
         (seen : list jsstring) (rows : list Row) : Prop :=
  match rows with
  | [] => True
  | row :: rest =>
      rowGuard strict rowEntries seen row
      /\ guarded strict rowEntries (seenAfter rowEntries seen row) rest
  end.

(** ** Groups *)

(** Notions for the statement about [generateGroupData]. *)
Definition category (entry : jsstring * EmojiRecord) : jsstring :=
  group (snd entry).

Definition nonVariant (entry : jsstring * EmojiRecord) : bool :=
  negb (isVariant (snd entry)).

(** The elements of a list in the order of their first occurrence. *)
Fixpoint firstOccurrences (l : list jsstring) : list jsstring :=
  match l with
  | [] => []
  | x :: l' => x :: filter (fun y => negb (str_eqb x y)) (firstOccurrences l')
  end.

(** The members of the category [n]: the non-variant entries of that
    category, in the order of the mapping. *)
Definition membersOf (n : jsstring) (entries : list (jsstring * EmojiRecord))
  : list Member.t :=
  map (fun e => toMember (fst e) (snd e))
      (filter (fun e => nonVariant e && str_eqb (category e) n) entries).

Definition groupOf (entries : list (jsstring * EmojiRecord)) (n : jsstring)
  : Group.t :=
  {| Group.name := n; Group.emojis := membersOf n entries |}.

(** The object [groups] after the loop has seen [entries]. *)
Definition groupsOf (entries : list (jsstring * EmojiRecord))
  : JsObject.t Group.t :=
  map (fun n => (n, groupOf entries n)) (firstOccurrences (map category entries)).

(** All (category, member) pairs of the output. *)
Definition memberships (groups : list Group.t) : list (jsstring * Member.t) :=
  flat_map (fun g => map (fun m => (Group.name g, m)) (Group.emojis g)) groups.

(** A key that a plain object treats as a dictionary would: no array
    index, no name of a member of [Object.prototype]. *)
Definition ordinaryKey (k : jsstring) : bool :=
  JsObject.isNamed k && negb (JsObject.inherited k).

Definition ordinaryCategories (emojiData : JsObject.t EmojiRecord) : bool :=
  forallb (fun e => ordinaryKey (category e)) (JsObject.entries emojiData).

(** Two mappings with unusual category names. *)
Definition plainRecord (name group : string) : EmojiRecord :=
  {| name := lit name;
     group := lit group;
     skin_tone_support := false;
     dual_skin_tone_support := Some false;
     is_variant := None;
     base_emoji := None;
     code_points := None |}.

Definition numberedCategory : JsObject.t EmojiRecord :=
  [(utf16 0x1F600, plainRecord "grinning face" "Smileys & Emotion");
   (utf16 0x1F389, plainRecord "party popper" "2024")].

Definition constructorCategory : JsObject.t EmojiRecord :=
  [(utf16 0x1F3D7, plainRecord "building construction" "constructor")].

(** The mapping built from the three rows of the self-test by [part_000]. *)
Definition mockEmojiData : JsObject.t EmojiRecord :=
  match Part000.parseEmojiData [grinningFace; handshake; wavingHand] with
  | Returned emojiData => emojiData
  | Thrown _ => JsObject.empty
  end.

(** ** Counts, [script/generate-emoji-counts.js] *)

(** The shape of the rows on which [parseEmojiCounts] of
    [script/generate-emoji-counts.js] reads only cells that exist: there is
    a row, every row has a child node, and the last row has at least as
    many child nodes as the first. *)
Definition shaped (allRows : list (list jsstring)) : bool :=
  match allRows with
  | [] => false
  | theadCells :: _ =>
      forallb (fun row => match row with [] => false | _ :: _ => true end) allRows
      && (List.length theadCells <=? List.length (last allRows []))%nat
  end.

(** A counts table in the layout that script expects: the categories in the
    first row, their totals in the last. *)
Definition countsByColumn : list (list jsstring) :=
  map (map lit)
      [["Smileys & Emotion"; "People & Body"; "Component"; "Total"];
       ["100"; "200"; "10"; "310"]]%string.

(** The rows of [mockCountsHtml] in that script. *)
Definition scriptMockCounts : list (list jsstring) :=
  map (map lit)
      [["Smileys & Emotion"; "100"];
       ["People & Body"; "200"];
       ["Total: 300"];
       ["Components: 10"];
       ["Dual skin tone support: 5"]]%string.

(** An instance of the numbers of that script for the examples: the
    doubles above, with [Number(text)] read as [parseInt(text, 10)]; the
    two agree on the decimal numerals in the cells of [countsByColumn]. *)
Definition integerNumber (text : jsstring) : number := parseInt text 10.

(** [x + y] on such doubles: the exact sum, rounded. *)
Definition add (x y : number) : number :=
  match x, y with
  | NaN, _ | _, NaN => NaN
  | Num a, Num b => toDouble (a + b)
  | Infinity s, Num _ => Infinity s
  | Num _, Infinity s => Infinity s
  | Infinity s, Infinity s' => if Bool.eqb s s' then Infinity s else NaN
  end.

(* ================================================================== *)
(** * Notions: rows, categories, columns *)
(* ================================================================== *)

(** ** Rows of the emoji list *)

(** A row that gets past the first test of the loop body: it has its three
    cells. *)
Definition complete (row : Row) : bool :=
  match codeCell row, nameCell row, groupCell row with
  | Some _, Some _, Some _ => true
  | _, _, _ => false
  end.

(** A row on which the loop body does not throw: it lacks a cell, or every
    token of its code is read by [parseInt] as a code point. *)
Definition decodable (row : Row) : bool :=
  negb (complete row)
  || match codeCell row with
     | Some code => forallb validCodePoint (codePointsOf code)
     | None => true
     end.

(** The record that the row "waving hand" stores for the medium skin tone,
    in [part_000]. *)
Definition wavingHandMedium : EmojiRecord :=
  snd (Builder.singleVariant true (utf16 0x1F44B) (lit "waving hand")
                             (lit "People & Body") [Num 0x1F44B]
                             (utf16 0x1F3FD)).

(** ** Categories that are names of members of [Object.prototype] *)

(** The entries on which the loop of [generateGroupData] stops: a record
    that is no variant and whose category the empty object [groups]
    already answers for. *)
Definition blocked (entry : jsstring * EmojiRecord) : bool :=
  nonVariant entry && JsObject.inherited (category entry).

(** The entries that have a group of their own. *)
Definition kept (entries : list (jsstring * EmojiRecord))
  : list (jsstring * EmojiRecord) :=
  filter (fun e => negb (JsObject.inherited (category e))) entries.

(** The order of two array-index names in an enumeration. *)
Definition indexOrder (a b : jsstring) : Prop :=
  match JsObject.arrayIndex a, JsObject.arrayIndex b with
  | Some x, Some y => (x <= y)%N
  | _, _ => False
  end.

(** A row whose group text does not stop [generateGroupData]. *)
Definition groupable (row : Row) : bool :=
  match codeCell row, nameCell row, groupCell row with
  | Some _, Some _, Some groupText => negb (JsObject.inherited (trim groupText))
  | _, _, _ => true
  end.

(** A variant record, and a mapping in which the categories
    "People & Body" and "toString" have variants only. *)
Definition variantRecord (name group : string) (base : jsstring) : EmojiRecord :=
  {| name := lit name;
     group := lit group;
     skin_tone_support := true;
     dual_skin_tone_support := None;
     is_variant := Some true;
     base_emoji := Some base;
     code_points := None |}.

Definition variantOnlyCategory : JsObject.t EmojiRecord :=
  [(utf16 0x1F600, plainRecord "grinning face" "Smileys & Emotion");
   (utf16 0x1F44B ++ utf16 0x1F3FB,
    variantRecord "waving hand (light skin tone)" "People & Body"
                  (utf16 0x1F44B));
   (utf16 0x1F44B ++ utf16 0x1F3FC,
    variantRecord "waving hand (medium-light skin tone)" "toString"
                  (utf16 0x1F44B))].

(** ** Rows of the counts page, [part_000] *)

(** A row on which the loop body of [parseEmojiCounts] writes to [stats]:
    it bears one of the three special labels, or a label other than "Group"
    with a count that is a number (the write under "__proto__" reaches the
    prototype's setter, not [stats.groups]). *)
Definition counted (cells : list jsstring) : bool :=
  special (Part000.categoryOf cells)
  || (negb (str_eqb (Part000.categoryOf cells) (lit "Group"))
      && negb (isNaN (Part000.countOf cells))
      && negb (str_eqb (Part000.categoryOf cells) JsObject.proto)).

(** ** Columns of the counts page, [script/generate-emoji-counts.js] *)

(** The cell of the last row under the last cell of the first row whose
    text is [column]. *)
Fixpoint lastColumn (column : jsstring) (theadCells totalCells : list jsstring)
  : option jsstring :=
  match theadCells, totalCells with
  | head :: theadCells', cell :: totalCells' =>
      match lastColumn column theadCells' totalCells' with
      | Some c => Some c
      | None => if str_eqb head column then Some cell else None
      end
  | _, _ => None
  end.

(* ================================================================== *)
(** * fetchWithRetry (the same text in both scripts) *)
(* ================================================================== *)

(** The network is outside the scripts.  A call of [fetch] is modelled by
    what it comes to, which may depend on everything the script did before
    (the requests it made and the pauses it took); the script's own doings
    are recorded in that history. *)
Module Fetch.

(** [CONFIG] *)
Definition timeout : Z := 30000.
Definition maxRetries : nat := 3.
Definition retryDelay : Z := 2000.

(** The part of a response that the scripts read: [response.ok],
    [response.status] and the body that [response.text()] resolves to. *)
Record Response : Type := {
  ok : bool;
  status : Z;
  text : jsstring
}.

(** What [await fetch(url, {signal})] comes to: a response, the abort of
    the timer after [timeout] milliseconds, or another rejection. *)
Inductive Attempt : Type :=
| Responds (response : Response)
| TimesOut
| Rejects (message : jsstring).

(** The values thrown inside [fetchWithRetry]: the [Error] made for a
    response that is not ok, the AbortError, or the rejection of [fetch]. *)
Inductive Failure : Type :=
| HttpError (status : Z)
| AbortError
| FetchError (message : jsstring).

Inductive Event : Type :=
| Request (url : jsstring)
| Pause (ms : Z).

(** The doings of the script, the earliest first. *)
Definition History := list Event.

Section Network.
Variable network : History -> jsstring -> Attempt.

(** The [try] block: one request. *)
Definition attempt (url : jsstring) (h : History) : Response + Failure :=
  match network h url with
  | Responds response =>
      if ok response then inl response else inr (HttpError (status response))
  | TimesOut => inr AbortError
  | Rejects message => inr (FetchError message)
  end.

(** The function calls itself with [retryCount + 1] as long as
    [retryCount < maxRetries]: the recursion is on the number
    [maxRetries - retryCount] of retries that are left
    ([fetchWithRetry_unfold] below gives the equation in the words of the
    script).  The result comes with the history after the call. *)
Fixpoint retry (retriesLeft : nat) (url : jsstring) (h : History)
  : (Response + Failure) * History :=
  match attempt url h with
  | inl response => (inl response, h ++ [Request url])
  | inr error =>
      match retriesLeft with
      | O => (inr error, h ++ [Request url])
      | S retriesLeft' =>
          retry retriesLeft' url (h ++ [Request url; Pause retryDelay])
      end
  end.

(** [fetchWithRetry(url, {}, retryCount)]; no caller passes options. *)
Definition fetchWithRetry (url : jsstring) (retryCount : nat) (h : History)
  : (Response + Failure) * History :=
  retry (maxRetries - retryCount) url h.

End Network.

(** The history of [n] failed requests, each followed by its pause. *)
Definition rounds (url : jsstring) (n : nat) : History :=
  List.concat (repeat [Request url; Pause retryDelay] n).

Definition requests (h : History) : nat :=
  List.length (filter (fun e => match e with Request _ => true | Pause _ => false end) h).

End Fetch.

(* ================================================================== *)
(** * getLatestEmojiVersion, checkForUpdates ([part_000]) *)
(* ================================================================== *)

Module Updates.

Definition EMOJI_VERSION_URL : jsstring :=
  lit "https://unicode.org/emoji/charts/emoji-versions.html".

(** [CONFIG.versionCheckInterval] *)
Definition versionCheckInterval : Z := 24 * 60 * 60 * 1000.

(** [\d+]: the longest run of the digits 0-9 at the start of [s], and the
    rest. *)
Fixpoint digits (s : jsstring) : jsstring * jsstring :=
  match s with
  | c :: s' =>
      if JsObject.isDigit c
      then let (run, rest) := digits s' in (c :: run, rest)
      else ([], s)
  | [] => ([], [])
  end.

Definition dot : N := 0x2E%N.

(** The regular expression [/Emoji (\d+\.\d+)/] tried at the start of [s];
    the result is the capture.  A run of digits shorter than the longest
    is followed by a digit and not by the dot, so backtracking into the
    first [\d+] finds nothing that the longest run does not. *)
Definition versionAt (s : jsstring) : option jsstring :=
  if startsWith s (lit "Emoji ") then
    let (major, afterMajor) := digits (skipn 6 s) in
    match major, afterMajor with
    | _ :: _, c :: afterDot =>
        if N.eqb c dot then
          let (minor, _) := digits afterDot in
          match minor with
          | _ :: _ => Some (major ++ dot :: minor)
          | [] => None
          end
        else None
    | _, _ => None
    end
  else None.

(** [versionText.match(/Emoji (\d+\.\d+)/)]: the first position at which
    the expression matches; [None] is [null]. *)
Fixpoint versionMatch (versionText : jsstring) : option jsstring :=
  match versionAt versionText with
  | Some v => Some v
  | None => match versionText with
            | [] => None
            | _ :: rest => versionMatch rest
            end
  end.

(** Why [getLatestEmojiVersion] throws: [fetchWithRetry] did, or the
    heading has no version. *)
Inductive VersionError : Type :=
| Unfetched (error : Fetch.Failure)
| NoVersion.

(** The file [test/stats.json] as [checkForUpdates] finds it: not there;
    there but [readFileSync] or [JSON.parse] throws, or the value has no
    properties to read; or an object, of which the function reads
    [last_update] (a number where present) and [emoji_version] (a string
    where present). *)
Inductive StatsFile : Type :=
| Missing
| Unreadable
| Stats (last_update : option Z) (emoji_version : option jsstring).

Section Page.
Variable network : Fetch.History -> jsstring -> Fetch.Attempt.

(** [$('h2').first().text()] of the loaded page; the empty string for a
    page without [h2]. *)
Variable firstHeading : jsstring -> jsstring.

Definition getLatestEmojiVersion (h : Fetch.History)
  : (jsstring + VersionError) * Fetch.History :=
  let (fetched, h') := Fetch.fetchWithRetry network EMOJI_VERSION_URL 0 h in
  match fetched with
  | inr error => (inr (Unfetched error), h')
  | inl response =>
      match versionMatch (firstHeading (Fetch.text response)) with
      | Some version => (inl version, h')
      | None => (inr NoVersion, h')
      end
  end.

(** [stats.last_update || 0] *)
Definition lastUpdateOf (last_update : option Z) : Z :=
  match last_update with
  | Some t => if (t =? 0)%Z then 0%Z else t
  | None => 0%Z
  end.

(** [stats.emoji_version || '0.0'] *)
Definition currentVersionOf (emoji_version : option jsstring) : jsstring :=
  match emoji_version with
  | Some (c :: v) => c :: v
  | _ => lit "0.0"
  end.

(** [checkForUpdates()] at the time [now] ([Date.now()]).  Whatever is
    thrown inside is caught and answered with [true]. *)
Definition checkForUpdates (file : StatsFile) (now : Z) (h : Fetch.History)
  : bool * Fetch.History :=
  match file with
  | Missing => (true, h)
  | Unreadable => (true, h)
  | Stats last_update emoji_version =>
      let lastUpdate := lastUpdateOf last_update in
      if (now - lastUpdate >? versionCheckInterval)%Z then
        match getLatestEmojiVersion h with
        | (inl latestVersion, h') =>
            let currentVersion := currentVersionOf emoji_version in
            if negb (str_eqb latestVersion currentVersion)
            then (true, h')
            else (false, h')
        | (inr _, h') => (true, h')
        end
      else (false, h)
  end.

End Page.

End Updates.

(** A network that answers every request with the same page, and a page
    that consists of its heading. *)
Definition versionsPage : Fetch.Response :=
  {| Fetch.ok := true; Fetch.status := 200;
     Fetch.text := lit "Emoji Versions & Sources, Emoji 15.1" |}.

Definition steadyNetwork (h : Fetch.History) (url : jsstring) : Fetch.Attempt :=
  Fetch.Responds versionsPage.

Definition wholePage (html : jsstring) : jsstring := html.

(* ================================================================== *)
(** * The component list of [main] (the same text in both scripts) *)
(* ================================================================== *)

(** [Object.fromEntries(pairs)]: every pair defines an own property of a
    new object, also under the key "__proto__". *)
Definition fromEntries (V : Type) (pairs : list (jsstring * V)) : JsObject.t V :=
  fold_left (fun o e => JsObject.defineOwn o (fst e) (snd e)) pairs
            JsObject.empty.

(** [([_, data]) => data.group === 'Component'] *)
Definition isComponent (entry : jsstring * EmojiRecord) : bool :=
  str_eqb (group (snd entry)) (lit "Component").

Definition componentEmojis (emojiData : JsObject.t EmojiRecord)
  : JsObject.t EmojiRecord :=
  fromEntries (filter isComponent (JsObject.entries emojiData)).

(** Rows of the emoji list with a component, and with the code "30", whose
    key "0" is an array index. *)
Definition lightSkinTone : Row := mkRow "1F3FB" "light skin tone" "Component".
Definition digitZero : Row := mkRow "30" "digit zero" "Component".

(* ================================================================== *)
(** * main and the functions it calls ([part_000]) *)
(* ================================================================== *)

(** The fourth row of [mockEmojiDataHtml] in [part_000]. *)
Definition holdingHands : Row :=
  mkRow "1F46B" "woman and man holding hands" "People & Body".

Module Main.

Definition EMOJI_COUNTS_URL : jsstring :=
  lit "https://unicode.org/emoji/charts/emoji-counts.html".
Definition EMOJI_DATA_URL : jsstring :=
  lit "https://unicode.org/emoji/charts/full-emoji-list.html".

(** [CONFIG.autoUpdate] *)
Definition autoUpdate : bool := true.

(** The object that [main] writes to [test/stats.json]: the statistics
    with the two properties that [main] adds. *)
Record StatsJson : Type := {
  stats : Part000.Stats;
  emoji_version : jsstring;
  last_update : Z
}.

(** The file [test/stats.json]: written by [main], or as
    [checkForUpdates] finds it otherwise (also what a write that was cut
    leaves of it, which [JSON.parse] rejects). *)
Inductive StatsContent : Type :=
| FromMain (written : StatsJson)
| Found (file : Updates.StatsFile).

(** What [checkForUpdates] reads of the file: [JSON.parse] gives back the
    number and the string that [JSON.stringify] wrote. *)
Definition readStats (content : StatsContent) : Updates.StatsFile :=
  match content with
  | FromMain written =>
      Updates.Stats (Some (last_update written)) (Some (emoji_version written))
  | Found file => file
  end.

(** A JSON file that [main] writes: not there; holding the text that
    [JSON.stringify] made of the given value; or cut short by a write that
    failed, when it holds a proper beginning of such a text (of an object
    or an array, so it is no JSON text) or nothing. *)
Inductive Output (A : Type) : Type :=
| NotThere
| Holds (value : A)
| CutShort.
Arguments NotThere {A}.
Arguments CutShort {A}.

(** What a call of [fs.writeFileSync] comes to.  The call opens the file,
    which empties it, writes the text and closes the file: it returns with
    the file written; or it throws before the file is opened, and the file
    is as it was; or it throws after that and before the whole text is
    written, and [remains] is the text that is read from the file
    afterwards; or it throws when the text has been written, on closing
    the file. *)
Inductive Outcome : Type :=
| Written
| Refused
| Cut (remains : jsstring)
| Unclosed.

(** The files of the script, by their paths under the root directory, and
    the directory [test].  A page is its text; [None] is a page that is not
    there.  The root directory is the one above the directory of the
    script, so it is there.  [coming] holds what the coming calls of
    [fs.mkdirSync] and [fs.writeFileSync] come to, the next call first; the
    calls after the last of the list return. *)
Record Files : Type := {
  test_directory : bool;
  emoji_data_html : option jsstring;
  emoji_counts_html : option jsstring;
  stats_json : StatsContent;
  data_by_emoji_json : Output (JsObject.t EmojiRecord);
  data_by_group_json : Output (list Group.t);
  data_ordered_emoji_json : Output (list jsstring);
  data_emoji_components_json : Output (JsObject.t EmojiRecord);
  coming : list Outcome
}.

(** The files with one of them replaced. *)
Definition withTestDirectory (there : bool) (files : Files) : Files :=
  {| test_directory := there;
     emoji_data_html := emoji_data_html files;
     emoji_counts_html := emoji_counts_html files;
     stats_json := stats_json files;
     data_by_emoji_json := data_by_emoji_json files;
     data_by_group_json := data_by_group_json files;
     data_ordered_emoji_json := data_ordered_emoji_json files;
     data_emoji_components_json := data_emoji_components_json files;
     coming := coming files |}.

Definition withEmojiData (page : option jsstring) (files : Files) : Files :=
  {| test_directory := test_directory files;
     emoji_data_html := page;
     emoji_counts_html := emoji_counts_html files;
     stats_json := stats_json files;
     data_by_emoji_json := data_by_emoji_json files;
     data_by_group_json := data_by_group_json files;
     data_ordered_emoji_json := data_ordered_emoji_json files;
     data_emoji_components_json := data_emoji_components_json files;
     coming := coming files |}.

Definition withEmojiCounts (page : option jsstring) (files : Files) : Files :=
  {| test_directory := test_directory files;
     emoji_data_html := emoji_data_html files;
     emoji_counts_html := page;
     stats_json := stats_json files;
     data_by_emoji_json := data_by_emoji_json files;
     data_by_group_json := data_by_group_json files;
     data_ordered_emoji_json := data_ordered_emoji_json files;
     data_emoji_components_json := data_emoji_components_json files;
     coming := coming files |}.

Definition withStats (content : StatsContent) (files : Files) : Files :=
  {| test_directory := test_directory files;
     emoji_data_html := emoji_data_html files;
     emoji_counts_html := emoji_counts_html files;
     stats_json := content;
     data_by_emoji_json := data_by_emoji_json files;
     data_by_group_json := data_by_group_json files;
     data_ordered_emoji_json := data_ordered_emoji_json files;
     data_emoji_components_json := data_emoji_components_json files;
     coming := coming files |}.

Definition withByEmoji (file : Output (JsObject.t EmojiRecord)) (files : Files) : Files :=
  {| test_directory := test_directory files;
     emoji_data_html := emoji_data_html files;
     emoji_counts_html := emoji_counts_html files;
     stats_json := stats_json files;
     data_by_emoji_json := file;
     data_by_group_json := data_by_group_json files;
     data_ordered_emoji_json := data_ordered_emoji_json files;
     data_emoji_components_json := data_emoji_components_json files;
     coming := coming files |}.

Definition withByGroup (file : Output (list Group.t)) (files : Files) : Files :=
  {| test_directory := test_directory files;
     emoji_data_html := emoji_data_html files;
     emoji_counts_html := emoji_counts_html files;
     stats_json := stats_json files;
     data_by_emoji_json := data_by_emoji_json files;
     data_by_group_json := file;
     data_ordered_emoji_json := data_ordered_emoji_json files;
     data_emoji_components_json := data_emoji_components_json files;
     coming := coming files |}.

Definition withOrdered (file : Output (list jsstring)) (files : Files) : Files :=
  {| test_directory := test_directory files;
     emoji_data_html := emoji_data_html files;
     emoji_counts_html := emoji_counts_html files;
     stats_json := stats_json files;
     data_by_emoji_json := data_by_emoji_json files;
     data_by_group_json := data_by_group_json files;
     data_ordered_emoji_json := file;
     data_emoji_components_json := data_emoji_components_json files;
     coming := coming files |}.

Definition withComponents (file : Output (JsObject.t EmojiRecord)) (files : Files) : Files :=
  {| test_directory := test_directory files;
     emoji_data_html := emoji_data_html files;
     emoji_counts_html := emoji_counts_html files;
     stats_json := stats_json files;
     data_by_emoji_json := data_by_emoji_json files;
     data_by_group_json := data_by_group_json files;
     data_ordered_emoji_json := data_ordered_emoji_json files;
     data_emoji_components_json := file;
     coming := coming files |}.

Definition withComing (outcomes : list Outcome) (files : Files) : Files :=
  {| test_directory := test_directory files;
     emoji_data_html := emoji_data_html files;
     emoji_counts_html := emoji_counts_html files;
     stats_json := stats_json files;
     data_by_emoji_json := data_by_emoji_json files;
     data_by_group_json := data_by_group_json files;
     data_ordered_emoji_json := data_ordered_emoji_json files;
     data_emoji_components_json := data_emoji_components_json files;
     coming := outcomes |}.

(** A statement of [main]: it returns a value or throws ([None]), and
    leaves the files and the history of requests as it made them. *)
Definition step (A : Type) : Type :=
  Files -> Fetch.History -> option A * Files * Fetch.History.

Definition ret (A : Type) (a : A) : step A :=
  fun files h => (Some a, files, h).

Definition throw (A : Type) : step A :=
  fun files h => (None, files, h).
Arguments throw {A}.

Definition andThen (A B : Type) (m : step A) (f : A -> step B) : step B :=
  fun files h =>
    match m files h with
    | (Some a, files', h') => f a files' h'
    | (None, files', h') => (None, files', h')
    end.

Notation "x <- m ;; k" := (andThen m (fun x => k))
  (at level 61, m at next level, right associativity).
Notation "m ;;; k" := (andThen m (fun _ => k))
  (at level 61, right associativity).

(** A call of one of the parsing functions. *)
Definition call (A : Type) (o : outcome A) : step A :=
  match o with
  | Returned a => ret a
  | Thrown _ => throw
  end.

(** [fs.writeFileSync(path, text)]: [whole] puts the text into the file of
    the path, [cut] what is left of it by a call that is cut. *)
Definition writeFileSync (whole : Files -> Files)
           (cut : jsstring -> Files -> Files) : step unit :=
  fun files h =>
    match coming files with
    | [] => (Some tt, whole files, h)
    | Written :: rest => (Some tt, whole (withComing rest files), h)
    | Refused :: rest => (None, withComing rest files, h)
    | Cut remains :: rest => (None, cut remains (withComing rest files), h)
    | Unclosed :: rest => (None, whole (withComing rest files), h)
    end.

(** The two [if (!fs.existsSync(dir)) fs.mkdirSync(dir, { recursive: true })]
    of [main]: the root directory is there, so the call is made for [test]
    at most.  [fs.mkdirSync] makes the directory or throws: every outcome
    but [Written] stands for a call that throws. *)
Definition makeDirectories : step unit :=
  fun files h =>
    if test_directory files then (Some tt, files, h)
    else
      match coming files with
      | [] => (Some tt, withTestDirectory true files, h)
      | Written :: rest =>
          (Some tt, withTestDirectory true (withComing rest files), h)
      | _ :: rest => (None, withComing rest files, h)
      end.

(** [fs.writeFileSync] for each of the seven paths. *)
Definition writeEmojiData (data : jsstring) : step unit :=
  writeFileSync (withEmojiData (Some data))
                (fun remains => withEmojiData (Some remains)).

Definition writeEmojiCounts (data : jsstring) : step unit :=
  writeFileSync (withEmojiCounts (Some data))
                (fun remains => withEmojiCounts (Some remains)).

(** The path of the statistics is in [test]: without the directory the
    file cannot be opened. *)
Definition writeStats (written : StatsJson) : step unit :=
  fun files h =>
    if test_directory files
    then writeFileSync (withStats (FromMain written))
                       (fun _ => withStats (Found Updates.Unreadable))
                       files h
    else (None, files, h).

Definition writeByEmoji (emojiData : JsObject.t EmojiRecord) : step unit :=
  writeFileSync (withByEmoji (Holds emojiData)) (fun _ => withByEmoji CutShort).

Definition writeByGroup (groupData : list Group.t) : step unit :=
  writeFileSync (withByGroup (Holds groupData)) (fun _ => withByGroup CutShort).

Definition writeOrdered (orderedEmojis : list jsstring) : step unit :=
  writeFileSync (withOrdered (Holds orderedEmojis))
                (fun _ => withOrdered CutShort).

Definition writeComponents (componentEmojis : JsObject.t EmojiRecord)
  : step unit :=
  writeFileSync (withComponents (Holds componentEmojis))
                (fun _ => withComponents CutShort).

(** [fs.readFileSync(path, 'utf8')] of the two pages; it throws where the
    file is not there. *)
Definition readEmojiData : step jsstring :=
  fun files h =>
    match emoji_data_html files with
    | Some data => (Some data, files, h)
    | None => (None, files, h)
    end.

Definition readEmojiCounts : step jsstring :=
  fun files h =>
    match emoji_counts_html files with
    | Some data => (Some data, files, h)
    | None => (None, files, h)
    end.

(** [a === b] on numbers. *)
Definition strictEquals (a b : number) : bool :=
  match a, b with
  | Num x, Num y => (x =? y)%Z
  | Infinity s, Infinity s' => Bool.eqb s s'
  | _, _ => false
  end.

(** [stats.groups[category] === n] *)
Definition groupEquals (groups : JsObject.t number) (category : jsstring)
           (n : Z) : bool :=
  match JsObject.get groups category with
  | JsObject.Own count => strictEquals count (Num n)
  | _ => false
  end.

(** [testWithMockData()]: the rows of its two pages are those that the
    selectors find in the texts written in the function; it throws when a
    parsing function does or an assertion fails, and it neither requests
    nor writes anything. *)
Definition testWithMockData : step unit :=
  stats <- call (Part000.parseEmojiCounts mockCounts) ;;
  emojiData <- call (Part000.parseEmojiData
                       [grinningFace; handshake; wavingHand; holdingHands]) ;;
  groupData <- call (generateGroupData emojiData) ;;
  let assertions :=
    [strictEquals (Part000.total_without_skin_tone_variations stats) (Num 275);
     strictEquals (Part000.component stats) (Num 10);
     groupEquals (Part000.groups stats) (lit "Smileys & Emotion") 100;
     groupEquals (Part000.groups stats) (lit "People & Body") 200;
     (0 <? List.length (JsObject.keys emojiData))%nat;
     (0 <? List.length groupData)%nat] in
  let failedAssertions := filter negb assertions in
  if (0 <? List.length failedAssertions)%nat then throw else ret tt.

Section World.
Variable network : Fetch.History -> jsstring -> Fetch.Attempt.

(** [Date.now()] after the given history. *)
Variable clock : Fetch.History -> Z.

(** The pages as the selectors of the parsing functions see them: the
    rows of the emoji list with their [.code], [.name] and [.group] cells,
    the rows of the counts with their [td] cells, and the first [h2]. *)
Variable dataRows : jsstring -> list Row.
Variable countRows : jsstring -> list (list jsstring).
Variable firstHeading : jsstring -> jsstring.

(** [await fetchWithRetry(url)] *)
Definition fetched (url : jsstring) : step Fetch.Response :=
  fun files h =>
    match Fetch.fetchWithRetry network url 0 h with
    | (inl response, h') => (Some response, files, h')
    | (inr _, h') => (None, files, h')
    end.

Definition downloadEmojiData : step unit :=
  response <- fetched EMOJI_DATA_URL ;;
  writeEmojiData (Fetch.text response).

Definition downloadEmojiCounts : step unit :=
  response <- fetched EMOJI_COUNTS_URL ;;
  writeEmojiCounts (Fetch.text response).

Definition getLatestEmojiVersion : step jsstring :=
  fun files h =>
    match Updates.getLatestEmojiVersion network firstHeading h with
    | (inl version, h') => (Some version, files, h')
    | (inr _, h') => (None, files, h')
    end.

(** [await checkForUpdates()]: it catches what is thrown inside. *)
Definition checkForUpdates : step bool :=
  fun files h =>
    let (needsUpdate, h') :=
      Updates.checkForUpdates network firstHeading
                              (readStats (stats_json files)) (clock h) h in
    (Some needsUpdate, files, h').

Definition now : step Z := fun files h => (Some (clock h), files, h).

(** The [try] block of [main]; [test] is
    [process.argv.includes('--test')]. *)
Definition attempt (test : bool) : step unit :=
  if test then testWithMockData
  else
    needsUpdate <- (if autoUpdate then checkForUpdates else ret true) ;;
    if negb needsUpdate then ret tt
    else
      makeDirectories ;;;
      downloadEmojiData ;;;
      downloadEmojiCounts ;;;
      countsHtml <- readEmojiCounts ;;
      dataHtml <- readEmojiData ;;
      stats <- call (Part000.parseEmojiCounts (countRows countsHtml)) ;;
      emojiData <- call (Part000.parseEmojiData (dataRows dataHtml)) ;;
      groupData <- call (generateGroupData emojiData) ;;
      version <- getLatestEmojiVersion ;;
      time <- now ;;
      writeStats {| stats := stats; emoji_version := version;
                    last_update := time |} ;;;
      writeByEmoji emojiData ;;;
      writeByGroup groupData ;;;
      writeOrdered (orderedEmojis emojiData) ;;;
      writeComponents (componentEmojis emojiData).

(** How the process ends: [main] returns, or the [catch] block calls
    [process.exit(1)]. *)
Inductive Exit : Type := Returns | Exits1.

Definition main (test : bool) (files : Files) (h : Fetch.History)
  : Exit * Files * Fetch.History :=
  match attempt test files h with
  | (Some _, files', h') => (Returns, files', h')
  | (None, files', h') => (Exits1, files', h')
  end.

End World.

(** The five files that [main] makes from the pages. *)
Definition outputs (files : Files)
  : StatsContent * Output (JsObject.t EmojiRecord) * Output (list Group.t)
    * Output (list jsstring) * Output (JsObject.t EmojiRecord) :=
  (stats_json files, data_by_emoji_json files, data_by_group_json files,
   data_ordered_emoji_json files, data_emoji_components_json files).

(** The [i]-th file that [main] writes, when the first [n] writes are
    done; [cut] tells whether the next one was cut. *)
Definition reached (A : Type) (n : nat) (cut : bool) (i : nat)
           (whole short old : A) : A :=
  if (i <? n)%nat then whole
  else if (i =? n)%nat && cut then short
  else old.

(** The five files when [main] has written the first [n] of them, in the
    order of its writes (the statistics, the mapping, the groups, the
    ordered list, the components), and left the others as they were,
    but for the next one where its write was cut. *)
Definition outputsAfter (n : nat) (cut : bool) (written : StatsJson)
           (emojiData : JsObject.t EmojiRecord) (groupData : list Group.t)
           (old : StatsContent * Output (JsObject.t EmojiRecord)
                  * Output (list Group.t) * Output (list jsstring)
                  * Output (JsObject.t EmojiRecord))
  : StatsContent * Output (JsObject.t EmojiRecord) * Output (list Group.t)
    * Output (list jsstring) * Output (JsObject.t EmojiRecord) :=
  match old with
  | (oldStats, oldByEmoji, oldByGroup, oldOrdered, oldComponents) =>
      (reached n cut 0 (FromMain written) (Found Updates.Unreadable) oldStats,
       reached n cut 1 (Holds emojiData) CutShort oldByEmoji,
       reached n cut 2 (Holds groupData) CutShort oldByGroup,
       reached n cut 3 (Holds (orderedEmojis emojiData)) CutShort oldOrdered,
       reached n cut 4 (Holds (componentEmojis emojiData)) CutShort
               oldComponents)
  end.

(** A statement that makes at most [n] requests. *)
Definition requesting (A : Type) (n : nat) (m : step A) : Prop :=
  forall files h,
    (Fetch.requests (snd (m files h)) <= Fetch.requests h + n)%nat.

End Main.

(** Files of a first run: nothing is there, and no call fails. *)
Definition noFiles : Main.Files :=
  {| Main.test_directory := false;
     Main.emoji_data_html := None;
     Main.emoji_counts_html := None;
     Main.stats_json := Main.Found Updates.Missing;
     Main.data_by_emoji_json := Main.NotThere;
     Main.data_by_group_json := Main.NotThere;
     Main.data_ordered_emoji_json := Main.NotThere;
     Main.data_emoji_components_json := Main.NotThere;
     Main.coming := [] |}.

(** A first run in which the write of the groups is refused: the calls
    before it (the directory, the two pages, the statistics and the
    mapping) return. *)
Definition groupsRefused : Main.Files :=
  Main.withComing [Main.Written; Main.Written; Main.Written; Main.Written;
                   Main.Written; Main.Refused] noFiles.

(** A first run in which the disk is full when the statistics are
    written: the file is left empty. *)
Definition statsCut : Main.Files :=
  Main.withComing [Main.Written; Main.Written; Main.Written; Main.Cut []]
                  noFiles.

(** A world for a first run: every page is answered at once, the selectors
    find the rows of the self-test, and a request or a pause takes a
    second. *)
Definition tickingClock (h : Fetch.History) : Z :=
  1700000000000 + 1000 * Z.of_nat (List.length h).

Definition selfTestDataRows (html : jsstring) : list Row :=
  [grinningFace; handshake; wavingHand; holdingHands].

Definition selfTestCountRows (html : jsstring) : list (list jsstring) :=
  mockCounts.

(* ================================================================== *)
(** * Notions: the assignments of a page *)
(* ================================================================== *)

(** All assignments [emojiData[key] = record] of the loop over [rows], in
    the order in which it makes them. *)
Definition assignments
           (rowEntries : Row -> outcome (list (jsstring * EmojiRecord)))
           (rows : list Row) : list (jsstring * EmojiRecord) :=
  flat_map (fun row => match rowEntries row with
                       | Returned es => es
                       | Thrown _ => []
                       end) rows.

(** The record of the last assignment to the key [k], if there is one. *)
Fixpoint lastAssigned (k : jsstring) (es : list (jsstring * EmojiRecord))
  : option EmojiRecord :=
  match es with
  | [] => None
  | (k', r) :: rest =>
      match lastAssigned k rest with
      | Some r' => Some r'
      | None => if str_eqb k' k then Some r else None
      end
  end.

(** The variant records of the mapping that name [emoji] as their base. *)
Definition variantsOf (emoji : jsstring) (emojiData : JsObject.t EmojiRecord)
  : list (jsstring * EmojiRecord) :=
  filter (fun e => isVariant (snd e)
                   && match base_emoji (snd e) with
                      | Some b => str_eqb b emoji
                      | None => false
                      end)
         (JsObject.entries emojiData).

(** A row with the code of "family" and another name. *)
Definition houseAsFamily : Row := mkRow "1F46A" "house" "Travel & Places".

(* ================================================================== *)
(** * Strings and objects: basic facts *)
(* ================================================================== *)

Lemma str_eqb_eq (a b : jsstring) : str_eqb a b = true <-> a = b.
Proof.
  revert b; induction a as [|x a IH]; intros [|y b]; simpl; split;
    try congruence; try reflexivity.
  - intros H. apply andb_true_iff in H as [Hx Hab].
    apply N.eqb_eq in Hx. apply IH in Hab. congruence.
  - intros H. injection H as -> ->. rewrite N.eqb_refl. simpl. now apply IH.
Qed.

Lemma str_eqb_refl (a : jsstring) : str_eqb a a = true.
Proof. now apply str_eqb_eq. Qed.

Lemma str_eqb_neq (a b : jsstring) : str_eqb a b = false <-> a <> b.
Proof.
  split.
  - intros H E. apply str_eqb_eq in E. congruence.
  - intros H. destruct (str_eqb a b) eqn:E; [|reflexivity].
    apply str_eqb_eq in E. contradiction.
Qed.

Lemma str_eqb_sym (a b : jsstring) : str_eqb a b = str_eqb b a.
Proof.
  destruct (str_eqb b a) eqn:E.
  - apply str_eqb_eq in E. subst. apply str_eqb_refl.
  - apply str_eqb_neq in E. apply str_eqb_neq. congruence.
Qed.

Ltac str_cases a b :=
  let E := fresh "E" in
  destruct (str_eqb a b) eqn:E;
  [apply str_eqb_eq in E | apply str_eqb_neq in E].

Module JsObjectFacts.
Import JsObject.

Section Facts.
Variable V : Type.
Implicit Types (o : t V) (k : jsstring) (v : V).

Lemma getOwn_defineOwn o k v k' :
  getOwn (defineOwn o k v) k' = if str_eqb k k' then Some v else getOwn o k'.
Proof.
  induction o as [|[k0 v0] o IH]; simpl.
  - reflexivity.
  - str_cases k0 k; simpl.
    + subst k0. destruct (str_eqb k k'); reflexivity.
    + rewrite IH. str_cases k0 k'; [|reflexivity].
      subst k0. apply str_eqb_neq in E. rewrite str_eqb_sym, E. reflexivity.
Qed.

Lemma getOwn_set o k v k' :
  getOwn (set o k v) k' =
  if str_eqb k proto then getOwn o k'
  else if str_eqb k k' then Some v else getOwn o k'.
Proof.
  unfold set. destruct (str_eqb k proto); [reflexivity|].
  apply getOwn_defineOwn.
Qed.

Lemma getOwn_In o k v : getOwn o k = Some v -> In (k, v) o.
Proof.
  induction o as [|[k0 v0] o IH]; simpl; [discriminate|].
  str_cases k0 k.
  - intros [= ->]. subst. now left.
  - intros H. right. now apply IH.
Qed.

Lemma getOwn_None o k : getOwn o k = None <-> ~ In k (map fst o).
Proof.
  induction o as [|[k0 v0] o IH]; simpl.
  - tauto.
  - str_cases k0 k.
    + split; [discriminate|]. intros H. exfalso. apply H. now left.
    + rewrite IH. tauto.
Qed.

(** Keys of a write: an existing key keeps its place, a new one goes last. *)
Lemma keys_defineOwn o k v :
  map fst (defineOwn o k v) =
  if existsb (str_eqb k) (map fst o) then map fst o else map fst o ++ [k].
Proof.
  induction o as [|[k0 v0] o IH]; simpl; [reflexivity|].
  rewrite (str_eqb_sym k k0).
  destruct (str_eqb k0 k); simpl; [reflexivity|].
  rewrite IH. destruct (existsb (str_eqb k) (map fst o)); reflexivity.
Qed.

(** Without array-index keys an object is enumerated in creation order. *)
Lemma entries_named o :
  forallb (fun e => isNamed (fst e)) o = true -> entries o = o.
Proof.
  intros H. unfold entries.
  assert (Hi : indexed o = []).
  { unfold indexed. induction o as [|e o IH]; simpl; [reflexivity|].
    simpl in H. apply andb_true_iff in H as [He Ho].
    unfold isNamed in He. destruct (arrayIndex (fst e)); [discriminate|].
    simpl. now apply IH. }
  rewrite Hi. simpl.
  induction o as [|e o IH]; simpl; [reflexivity|].
  simpl in H. apply andb_true_iff in H as [He Ho]. rewrite He.
  f_equal. apply IH; [assumption|].
  unfold indexed in Hi. simpl in Hi. unfold isNamed in He.
  destruct (arrayIndex (fst e)); [discriminate|]. exact Hi.
Qed.

End Facts.
End JsObjectFacts.

(* ================================================================== *)
(** * parseEmojiData: the assignments of one row *)
(* ================================================================== *)

Lemma Forall2_map_right {A B} (P : A -> B -> Prop) (f : A -> B) (l : list A) :
  (forall x, In x l -> P x (f x)) -> Forall2 P l (map f l).
Proof.
  induction l as [|x l IH]; simpl; intros H; constructor.
  - apply H. now left.
  - apply IH. intros y Hy. apply H. now right.
Qed.

Lemma Forall2_list_prod {A B C} (P : A * B -> C -> Prop) (g : A -> B -> C)
      (l : list A) (l' : list B) :
  (forall x y, In x l -> In y l' -> P (x, y) (g x y)) ->
  Forall2 P (list_prod l l') (flat_map (fun x => map (g x) l') l).
Proof.
  induction l as [|x l IH]; simpl; intros H; [constructor|].
  apply Forall2_app.
  - clear IH. assert (Hx : forall y, In y l' -> P (x, y) (g x y)).
    { intros y Hy. apply H; [now left|assumption]. }
    clear H. induction l' as [|y l' IH']; simpl; constructor.
    + apply Hx. now left.
    + apply IH'. intros z Hz. apply Hx. now right.
  - apply IH. intros a b Ha Hb. apply H; [now right|assumption].
Qed.

Lemma last_app_nonempty {A} (l1 l2 : list A) (d : A) :
  l2 <> [] -> last (l1 ++ l2) d = last l2 d.
Proof.
  intros H. induction l1 as [|x l1 IH]; simpl; [reflexivity|].
  rewrite IH. destruct (l1 ++ l2) eqn:E; [|reflexivity].
  apply app_eq_nil in E as [_ E]. contradiction.
Qed.

Lemma distinct_NoDup (l : list jsstring) : distinct l = true -> NoDup l.
Proof.
  induction l as [|x l IH]; simpl; intros H; constructor.
  - apply andb_true_iff in H as [H _]. intros Hin.
    apply negb_true_iff in H.
    assert (E : existsb (str_eqb x) l = true).
    { apply existsb_exists. exists x. split; [assumption|apply str_eqb_refl]. }
    congruence.
  - apply IH. now apply andb_true_iff in H as [_ H].
Qed.

Lemma NoDup_map_app (e : jsstring) (l : list jsstring) :
  NoDup l -> NoDup (map (app e) l).
Proof.
  intros H. apply Finite.Injective_map_NoDup; [|assumption].
  intros a b E. now apply app_inv_head in E.
Qed.

Section RowFacts.
Variable singleKeywords dualKeywords : list jsstring.
Variable withCodePoints : bool.

Local Abbreviation hasSkin := (Builder.hasSkinToneSupport singleKeywords).
Local Abbreviation hasDual := (Builder.hasDualSkinToneSupport dualKeywords).
Local Abbreviation rowEntries :=
  (Builder.rowEntries singleKeywords dualKeywords withCodePoints).
Local Abbreviation processRow :=
  (Builder.processRow singleKeywords dualKeywords withCodePoints).
Local Abbreviation parseRows :=
  (Builder.parseRows singleKeywords dualKeywords withCodePoints).
Local Abbreviation variantEntries :=
  (Builder.variantEntries singleKeywords dualKeywords withCodePoints).
Local Abbreviation baseRecord :=
  (Builder.baseRecord singleKeywords dualKeywords withCodePoints).

Lemma rowEntries_decoded (row : Row) (code nameText groupText emoji : jsstring) :
  codeCell row = Some code ->
  nameCell row = Some nameText ->
  groupCell row = Some groupText ->
  fromCodePoint (codePointsOf code) = Returned emoji ->
  rowEntries row =
  Returned ((emoji, baseRecord (trim nameText) (trim groupText) (codePointsOf code))
            :: variantEntries emoji (trim nameText) (trim groupText)
                              (codePointsOf code)).
Proof.
  intros Hc Hn Hg He. unfold Builder.rowEntries.
  rewrite Hc, Hn, Hg, He. reflexivity.
Qed.

Lemma variant_keys (emoji name group : jsstring) (cps : list number) :
  hasSkin name = true ->
  map fst (variantEntries emoji name group cps) =
  map (app emoji) (suffixes (hasDual name)).
Proof.
  intros Hs. unfold Builder.variantEntries. rewrite Hs.
  unfold suffixes.
  destruct (hasDual name); simpl; rewrite <- ?app_assoc; reflexivity.
Qed.

Lemma variant_keys_in (emoji name group : jsstring) (cps : list number) k :
  In k (map fst (variantEntries emoji name group cps)) ->
  exists suffix, k = emoji ++ suffix /\ In suffix (suffixes true).
Proof.
  destruct (hasSkin name) eqn:Hs.
  - rewrite (variant_keys _ _ _ _ Hs). intros H.
    apply in_map_iff in H as (s & <- & Hin). exists s. split; [reflexivity|].
    unfold suffixes in *. apply in_app_iff in Hin as [Hin|Hin].
    + apply in_app_iff. now left.
    + destruct (hasDual name); [|destruct Hin].
      apply in_app_iff. now right.
  - unfold Builder.variantEntries. rewrite Hs. intros [].
Qed.

(** Reading back after the assignments of a row. *)
Lemma assigned_elsewhere (es : list (jsstring * EmojiRecord)) emojiData k :
  ~ In k (map fst es) ->
  JsObject.getOwn (fold_left Builder.assign es emojiData) k
  = JsObject.getOwn emojiData k.
Proof.
  revert emojiData. induction es as [|[k0 r0] es IH]; simpl; intros o H.
  - reflexivity.
  - rewrite IH by tauto. unfold Builder.assign. simpl.
    rewrite JsObjectFacts.getOwn_set.
    destruct (str_eqb k0 JsObject.proto); [reflexivity|].
    str_cases k0 k; [|reflexivity]. exfalso. apply H. now left.
Qed.

Lemma assigned_read (es : list (jsstring * EmojiRecord)) emojiData k r :
  NoDup (map fst es) -> In (k, r) es -> k <> JsObject.proto ->
  JsObject.getOwn (fold_left Builder.assign es emojiData) k = Some r.
Proof.
  revert emojiData. induction es as [|[k0 r0] es IH]; simpl; intros o Hnd Hin Hk.
  - destruct Hin.
  - inversion Hnd as [|? ? Hnotin Hnd']; subst.
    destruct Hin as [[= -> ->]|Hin].
    + rewrite assigned_elsewhere by assumption.
      unfold Builder.assign. simpl. rewrite JsObjectFacts.getOwn_set.
      apply str_eqb_neq in Hk. rewrite Hk, str_eqb_refl. reflexivity.
    + now apply IH.
Qed.

(** No variant key is "__proto__": it ends with a low surrogate. *)
Lemma variant_key_not_proto (emoji suffix : jsstring) :
  In suffix (suffixes true) -> emoji ++ suffix <> JsObject.proto.
Proof.
  intros Hin E.
  assert (Hlast : (0xDC00 <=? last suffix 0)%N = true /\ suffix <> []).
  { clear E. revert suffix Hin. apply Forall_forall.
    repeat constructor; discriminate. }
  destruct Hlast as [Hlast Hne].
  apply (f_equal (fun s => last s 0%N)) in E.
  rewrite last_app_nonempty in E by assumption.
  rewrite E in Hlast. discriminate.
Qed.

Lemma suffixes_distinct dual : NoDup ([] :: suffixes dual).
Proof. apply distinct_NoDup. destruct dual; reflexivity. Qed.

Lemma row_keys_distinct (emoji name group : jsstring) (cps : list number) r :
  NoDup (map fst ((emoji, r) :: variantEntries emoji name group cps)).
Proof.
  simpl. destruct (hasSkin name) eqn:Hs.
  - rewrite (variant_keys _ _ _ _ Hs).
    replace emoji with (emoji ++ []) at 1 by apply app_nil_r.
    change (NoDup (map (app emoji) ([] :: suffixes (hasDual name)))).
    apply NoDup_map_app, suffixes_distinct.
  - unfold Builder.variantEntries. rewrite Hs. simpl.
    constructor; [intros []|constructor].
Qed.

(** The loop over the rows, cut at one row. *)
Lemma parseRows_app (pre post : list Row) emojiData :
  parseRows (pre ++ post) emojiData
  = bind (parseRows pre emojiData) (parseRows post).
Proof.
  revert emojiData. induction pre as [|row pre IH]; simpl; intros o.
  - reflexivity.
  - destruct (processRow o row); simpl; [apply IH|reflexivity].
Qed.

End RowFacts.

(* ================================================================== *)
(** * The last write wins *)
(* ================================================================== *)

Section LastWrite.
Variable singleKeywords dualKeywords : list jsstring.
Variable withCodePoints : bool.

Local Abbreviation rowEntries :=
  (Builder.rowEntries singleKeywords dualKeywords withCodePoints).
Local Abbreviation parseRows :=
  (Builder.parseRows singleKeywords dualKeywords withCodePoints).

Lemma lastAssigned_app k (a b : list (jsstring * EmojiRecord)) :
  lastAssigned k (a ++ b)
  = match lastAssigned k b with
    | Some r => Some r
    | None => lastAssigned k a
    end.
Proof.
  induction a as [|[k0 r0] a IH]; simpl.
  - now destruct (lastAssigned k b).
  - rewrite IH. now destruct (lastAssigned k b).
Qed.

Lemma lastAssigned_None k (es : list (jsstring * EmojiRecord)) :
  lastAssigned k es = None <-> ~ In k (map fst es).
Proof.
  induction es as [|[k0 r0] es IH]; simpl; [tauto|].
  destruct (lastAssigned k es) as [r|].
  - split; [discriminate|]. intros H. exfalso.
    assert (Hin : In k (map fst es)).
    { destruct (in_dec (list_eq_dec N.eq_dec) k (map fst es)) as [Hin|Hnot];
        [assumption|]. apply IH in Hnot. discriminate. }
    tauto.
  - str_cases k0 k.
    + split; [discriminate|]. intros H. exfalso. apply H. now left.
    + split; [|reflexivity]. intros _ [H|H]; [contradiction|].
      now apply (proj1 IH).
Qed.

Lemma lastAssigned_distinct k r (es : list (jsstring * EmojiRecord)) :
  NoDup (map fst es) -> In (k, r) es -> lastAssigned k es = Some r.
Proof.
  induction es as [|[k0 r0] es IH]; simpl; intros Hnd Hin; [destruct Hin|].
  inversion Hnd as [|? ? Hnot Hnd']; subst.
  destruct Hin as [[= -> ->]|Hin].
  - apply lastAssigned_None in Hnot. rewrite Hnot.
    now rewrite str_eqb_refl.
  - now rewrite (IH Hnd' Hin).
Qed.

Lemma lastAssigned_In k r (es : list (jsstring * EmojiRecord)) :
  lastAssigned k es = Some r -> In (k, r) es.
Proof.
  induction es as [|[k0 r0] es IH]; simpl; [discriminate|].
  destruct (lastAssigned k es) as [r'|].
  - intros [= <-]. right. now apply IH.
  - str_cases k0 k; [|discriminate]. intros [= <-]. left. now subst.
Qed.

(** Reading after a sequence of assignments. *)
Lemma assigned_last (es : list (jsstring * EmojiRecord)) emojiData k :
  k <> JsObject.proto ->
  JsObject.getOwn (fold_left Builder.assign es emojiData) k
  = match lastAssigned k es with
    | Some r => Some r
    | None => JsObject.getOwn emojiData k
    end.
Proof.
  intros Hk. revert emojiData.
  induction es as [|[k0 r0] es IH]; simpl; intros o; [reflexivity|].
  rewrite IH. destruct (lastAssigned k es) as [r|]; [reflexivity|].
  unfold Builder.assign. simpl. rewrite JsObjectFacts.getOwn_set.
  str_cases k0 k.
  - subst k0. apply str_eqb_neq in Hk. now rewrite Hk.
  - now destruct (str_eqb k0 JsObject.proto).
Qed.

Lemma assignments_app (pre post : list Row) :
  assignments rowEntries (pre ++ post)
  = assignments rowEntries pre ++ assignments rowEntries post.
Proof. unfold assignments. apply flat_map_app. Qed.

Lemma assignments_cons row es (post : list Row) :
  rowEntries row = Returned es ->
  assignments rowEntries (row :: post) = es ++ assignments rowEntries post.
Proof. intros H. unfold assignments. simpl. now rewrite H. Qed.

(** The mapping after the loop: under every key but "__proto__", the
    record of the last assignment to that key. *)
Lemma parseRows_last (rows : list Row) emojiData emojiData' k :
  parseRows rows emojiData = Returned emojiData' ->
  k <> JsObject.proto ->
  JsObject.getOwn emojiData' k
  = match lastAssigned k (assignments rowEntries rows) with
    | Some r => Some r
    | None => JsObject.getOwn emojiData k
    end.
Proof.
  intros Hparse Hk. revert emojiData Hparse.
  induction rows as [|row rows IH]; intros o Hparse;
    cbn [Builder.parseRows] in Hparse.
  - now injection Hparse as <-.
  - unfold Builder.processRow in Hparse.
    destruct (rowEntries row) as [es|e] eqn:Hes; simpl in Hparse;
      [|discriminate].
    rewrite (IH _ Hparse), (@assignments_cons row es rows Hes), lastAssigned_app.
    destruct (lastAssigned k (assignments rowEntries rows)); [reflexivity|].
    now apply assigned_last.
Qed.

(** The rows of a page that is parsed to the end all have their
    assignments. *)
Lemma parseRows_row (pre post : list Row) row emojiData emojiData' :
  parseRows (pre ++ row :: post) emojiData = Returned emojiData' ->
  exists es, rowEntries row = Returned es.
Proof.
  rewrite parseRows_app.
  destruct (parseRows pre emojiData) as [o|e]; simpl; [|discriminate].
  unfold Builder.processRow.
  destruct (rowEntries row) as [es|e]; simpl; [eauto|discriminate].
Qed.

(** The key "__proto__" is never written. *)
Lemma assigned_proto (es : list (jsstring * EmojiRecord)) emojiData :
  JsObject.getOwn (fold_left Builder.assign es emojiData) JsObject.proto
  = JsObject.getOwn emojiData JsObject.proto.
Proof.
  revert emojiData. induction es as [|[k0 r0] es IH]; simpl; intros o;
    [reflexivity|].
  rewrite IH. unfold Builder.assign. simpl. rewrite JsObjectFacts.getOwn_set.
  now destruct (str_eqb k0 JsObject.proto).
Qed.

Lemma parseRows_proto (rows : list Row) emojiData emojiData' :
  parseRows rows emojiData = Returned emojiData' ->
  JsObject.getOwn emojiData' JsObject.proto
  = JsObject.getOwn emojiData JsObject.proto.
Proof.
  revert emojiData. induction rows as [|row rows IH]; simpl; intros o Hparse.
  - now injection Hparse as <-.
  - unfold Builder.processRow in Hparse.
    destruct (rowEntries row) as [es|e]; simpl in Hparse; [|discriminate].
    rewrite (IH _ Hparse). apply assigned_proto.
Qed.

(** Whether the loop comes to its end does not depend on the mapping it
    starts from. *)
Lemma parseRows_elsewhere (rows : list Row) emojiData emojiData' other :
  parseRows rows emojiData = Returned emojiData' ->
  exists other', parseRows rows other = Returned other'.
Proof.
  revert emojiData other. induction rows as [|row rows IH]; simpl;
    intros o other Hparse.
  - eauto.
  - unfold Builder.processRow in *.
    destruct (rowEntries row) as [es|e]; simpl in *; [|discriminate].
    now apply IH with (fold_left Builder.assign es o).
Qed.

End LastWrite.

(* ================================================================== *)
(** * The rows "grinning face" and "family" *)
(* ================================================================== *)

(** C5, as stated, against [part_000]: "face" is one of its single-tone
    keywords, so the record of "grinning face" has [skin_tone_support] true
    and five variant records are stored with it. *)
Lemma grinning_face_part000_has_variants :
  exists emojiData r,
    Part000.parseEmojiData [grinningFace] = Returned emojiData
    /\ JsObject.getOwn emojiData (utf16 0x1F600) = Some r
    /\ skin_tone_support r = true
    /\ List.length (filter (fun e => isVariant (snd e)) emojiData) = 5%nat.
Proof.
  eexists. eexists. split; [reflexivity|].
  split; [reflexivity|]. split; reflexivity.
Qed.

(** C5, amended.  The row (code "1F600", name "grinning face", group
    "Smileys & Emotion") gives, in [script/generate-emoji-counts.js],
    exactly the record with both flags false and no variant; in [part_000]
    it gives the record with [skin_tone_support] true,
    [dual_skin_tone_support] false and [code_points] [0x1F600], followed by
    its five single-tone variants. *)
Theorem grinning_face_record :
  Script.parseEmojiData [grinningFace]
  = Returned
      [(utf16 0x1F600,
        {| name := lit "grinning face";
           group := lit "Smileys & Emotion";
           skin_tone_support := false;
           dual_skin_tone_support := Some false;
           is_variant := None;
           base_emoji := None;
           code_points := None |})]
  /\ Part000.parseEmojiData [grinningFace]
     = Returned
         ((utf16 0x1F600,
           {| name := lit "grinning face";
              group := lit "Smileys & Emotion";
              skin_tone_support := true;
              dual_skin_tone_support := Some false;
              is_variant := None;
              base_emoji := None;
              code_points := Some [Num 0x1F600] |})
          :: map (fun modifier =>
                    (utf16 0x1F600 ++ modifier,
                     {| name := lit "grinning face (" ++ getSkinToneName modifier
                                    ++ lit ")";
                        group := lit "Smileys & Emotion";
                        skin_tone_support := true;
                        dual_skin_tone_support := None;
                        is_variant := Some true;
                        base_emoji := Some (utf16 0x1F600);
                        code_points := Some [Num 0x1F600; codePointAt0 modifier] |}))
                 SKIN_TONE_MODIFIERS).
Proof. split; reflexivity. Qed.

(** C9, as stated: in [part_000] a row with the code of "family" and the
    name "house" after the row "family" assigns its record under the same
    key; the returned mapping holds no record with [dual_skin_tone_support]
    true for "family". *)
Lemma later_row_replaces_family :
  Part000.hasDualSkinToneSupport (trim (lit "family")) = true
  /\ Part000.hasSkinToneSupport (trim (lit "family")) = false
  /\ exists emojiData replaced,
      Part000.parseEmojiData [family; houseAsFamily] = Returned emojiData
      /\ JsObject.getOwn emojiData (utf16 0x1F46A) = Some replaced
      /\ name replaced = lit "house"
      /\ dual_skin_tone_support replaced = Some false
      /\ JsObject.keys emojiData = [utf16 0x1F46A].
Proof.
  split; [reflexivity|]. split; [reflexivity|].
  eexists. eexists. split; [vm_compute; reflexivity|].
  split; [vm_compute; reflexivity|].
  split; [reflexivity|]. split; reflexivity.
Qed.

(** C9, amended.  In [part_000] the name "family" passes the dual check
    and fails the single-tone check.  Let [parseEmojiData] return
    [emojiData] for a page with a row whose name does so and whose code
    decodes to [emoji].  The row assigns its base record alone, with
    [dual_skin_tone_support] true and [skin_tone_support] false: the dual
    loop sits inside the single-tone branch.  Unless [emoji] is "__proto__"
    or a later row assigns the key [emoji], that record is the one that
    [emojiData] holds under [emoji]; and the row adds nothing else: under
    every other key [emojiData] holds what the mapping of the page without
    the row holds. *)
Theorem dual_only_row_has_no_variants :
  (nameCell family = Some (lit "family")
   /\ Part000.hasDualSkinToneSupport (trim (lit "family")) = true
   /\ Part000.hasSkinToneSupport (trim (lit "family")) = false)
  /\ forall (pre post : list Row) (row : Row)
            (code nameText groupText emoji : jsstring)
            (emojiData : JsObject.t EmojiRecord),
      codeCell row = Some code ->
      nameCell row = Some nameText ->
      groupCell row = Some groupText ->
      fromCodePoint (codePointsOf code) = Returned emoji ->
      Part000.hasDualSkinToneSupport (trim nameText) = true ->
      Part000.hasSkinToneSupport (trim nameText) = false ->
      Part000.parseEmojiData (pre ++ row :: post) = Returned emojiData ->
      exists base,
        Part000.rowEntries row = Returned [(emoji, base)]
        /\ name base = trim nameText
        /\ group base = trim groupText
        /\ dual_skin_tone_support base = Some true
        /\ skin_tone_support base = false
        /\ isVariant base = false
        /\ (emoji <> JsObject.proto ->
            ~ In emoji (map fst (assignments Part000.rowEntries post)) ->
            JsObject.getOwn emojiData emoji = Some base)
        /\ exists without,
            Part000.parseEmojiData (pre ++ post) = Returned without
            /\ forall k, k <> emoji ->
                         JsObject.getOwn emojiData k
                         = JsObject.getOwn without k.
Proof.
  split; [repeat split; reflexivity|].
  intros pre post row code nameText groupText emoji emojiData
         Hc Hn Hg He Hd Hs Hparse.
  pose proof (rowEntries_decoded Part000.singleKeywords Part000.dualKeywords
                                 true row Hc Hn Hg He) as Hrow.
  unfold Builder.variantEntries in Hrow.
  unfold Part000.hasSkinToneSupport in Hs. rewrite Hs in Hrow.
  set (base := Builder.baseRecord Part000.singleKeywords Part000.dualKeywords
                                  true (trim nameText) (trim groupText)
                                  (codePointsOf code)) in *.
  unfold Part000.parseEmojiData, Builder.parseEmojiData, Part000.rowEntries
    in *.
  set (entries := Builder.rowEntries Part000.singleKeywords
                                     Part000.dualKeywords true) in *.
  set (later := assignments entries post).
  assert (Hall : assignments entries (pre ++ row :: post)
                 = assignments entries pre ++ [(emoji, base)] ++ later).
  { unfold entries.
    now rewrite assignments_app, (@assignments_cons _ _ _ row _ post Hrow). }
  assert (Hrest : assignments entries (pre ++ post)
                  = assignments entries pre ++ later).
  { unfold entries. apply assignments_app. }
  exists base. split; [exact Hrow|].
  unfold Part000.hasDualSkinToneSupport in Hd.
  split; [reflexivity|]. split; [reflexivity|].
  split.
  { unfold base, Builder.baseRecord. cbn [dual_skin_tone_support].
    now rewrite Hd. }
  split.
  { unfold base, Builder.baseRecord. cbn [skin_tone_support]. exact Hs. }
  split; [reflexivity|].
  split.
  - intros Hproto Hlater.
    rewrite (@parseRows_last _ _ _ _ _ _ _ Hparse Hproto).
    fold entries. rewrite Hall, !lastAssigned_app.
    apply lastAssigned_None in Hlater. rewrite Hlater.
    simpl. now rewrite str_eqb_refl.
  - assert (Hsplit := Hparse). rewrite parseRows_app in Hsplit.
    destruct (Builder.parseRows Part000.singleKeywords Part000.dualKeywords
                                true pre JsObject.empty) as [before|e] eqn:Hpre;
      simpl in Hsplit; [|discriminate].
    unfold Builder.processRow in Hsplit. fold entries in Hsplit.
    rewrite Hrow in Hsplit. simpl in Hsplit.
    destruct (parseRows_elsewhere _ _ _ _ _ before Hsplit) as (without & Hpost).
    exists without.
    assert (Hwithout : Builder.parseRows Part000.singleKeywords
                         Part000.dualKeywords true (pre ++ post) JsObject.empty
                       = Returned without).
    { rewrite parseRows_app, Hpre. exact Hpost. }
    split; [exact Hwithout|].
    intros k Hk. str_cases k JsObject.proto.
    + subst k. rewrite (parseRows_proto _ _ _ _ _ Hparse).
      now rewrite (parseRows_proto _ _ _ _ _ Hwithout).
    + rewrite (@parseRows_last _ _ _ _ _ _ _ Hparse E).
      rewrite (@parseRows_last _ _ _ _ _ _ _ Hwithout E).
      fold entries. rewrite Hall, Hrest, !lastAssigned_app. simpl.
      destruct (lastAssigned k later); [reflexivity|].
      str_cases emoji k; [congruence|reflexivity].
Qed.

(** The row "family" between two rows of the self-test. *)
Lemma dual_only_row_family :
  exists emojiData base,
    Part000.parseEmojiData ([grinningFace] ++ family :: [wavingHand])
    = Returned emojiData
    /\ Part000.rowEntries family = Returned [(utf16 0x1F46A, base)]
    /\ name base = trim (lit "family")
    /\ group base = trim (lit "People & Body")
    /\ dual_skin_tone_support base = Some true
    /\ skin_tone_support base = false
    /\ isVariant base = false
    /\ (utf16 0x1F46A <> JsObject.proto ->
        ~ In (utf16 0x1F46A)
             (map fst (assignments Part000.rowEntries [wavingHand])) ->
        JsObject.getOwn emojiData (utf16 0x1F46A) = Some base)
    /\ exists without,
        Part000.parseEmojiData ([grinningFace] ++ [wavingHand])
        = Returned without
        /\ forall k, k <> utf16 0x1F46A ->
                     JsObject.getOwn emojiData k = JsObject.getOwn without k.
Proof.
  destruct (Part000.parseEmojiData ([grinningFace] ++ family :: [wavingHand]))
    as [emojiData|e] eqn:Hparse; [|vm_compute in Hparse; discriminate].
  destruct (proj2 dual_only_row_has_no_variants
                  [grinningFace] [wavingHand] family
                  (lit "1F46A") (lit "family") (lit "People & Body")
                  (utf16 0x1F46A) emojiData
                  eq_refl eq_refl eq_refl eq_refl eq_refl eq_refl Hparse)
    as (base & H).
  exists emojiData, base. split; [reflexivity|]. exact H.
Defined.

(* ================================================================== *)
(** * Codes that do not parse *)
(* ================================================================== *)

Lemma fromCodePoint_invalid (cps : list number) :
  (exists x, In x cps /\ validCodePoint x = false) ->
  fromCodePoint cps = Thrown RangeError.
Proof.
  induction cps as [|x cps IH]; intros (y & Hin & Hy).
  - destruct Hin.
  - simpl. destruct x as [|z|negative]; [reflexivity| |reflexivity].
    destruct ((0 <=? z)%Z && (z <=? 0x10FFFF)%Z) eqn:Hz; [|reflexivity].
    destruct Hin as [<-|Hin].
    + simpl in Hy. congruence.
    + rewrite IH; [reflexivity|]. now exists y.
Qed.

Lemma fromCodePoint_error (cps : list number) e :
  fromCodePoint cps = Thrown e -> e = RangeError.
Proof.
  revert e. induction cps as [|x cps IH]; simpl; intros e; [discriminate|].
  destruct x as [|z|negative]; [congruence| |congruence].
  destruct ((0 <=? z)%Z && (z <=? 0x10FFFF)%Z); [|congruence].
  destruct (fromCodePoint cps) as [s|e']; simpl; [discriminate|].
  intros [= <-]. now apply IH.
Qed.

Section Fatal.
Variable singleKeywords dualKeywords : list jsstring.
Variable withCodePoints : bool.

Local Abbreviation rowEntries :=
  (Builder.rowEntries singleKeywords dualKeywords withCodePoints).
Local Abbreviation processRow :=
  (Builder.processRow singleKeywords dualKeywords withCodePoints).
Local Abbreviation parseRows :=
  (Builder.parseRows singleKeywords dualKeywords withCodePoints).

Lemma rowEntries_error row e : rowEntries row = Thrown e -> e = RangeError.
Proof.
  unfold Builder.rowEntries.
  destruct (codeCell row) as [c|]; [|discriminate].
  destruct (nameCell row) as [n|]; [|discriminate].
  destruct (groupCell row) as [g|]; [|discriminate].
  destruct (fromCodePoint (codePointsOf c)) as [s|e'] eqn:E; simpl;
    [discriminate|].
  intros [= <-]. now apply fromCodePoint_error in E.
Qed.

Lemma parseRows_error rows emojiData e :
  parseRows rows emojiData = Thrown e -> e = RangeError.
Proof.
  revert emojiData. induction rows as [|row rows IH]; simpl; intros o;
    [discriminate|].
  unfold Builder.processRow.
  destruct (rowEntries row) as [es|e'] eqn:E; simpl.
  - apply IH.
  - intros [= <-]. now apply rowEntries_error in E.
Qed.

Lemma rowEntries_unparsable row code nameText groupText tok :
  codeCell row = Some code ->
  nameCell row = Some nameText ->
  groupCell row = Some groupText ->
  In tok (split space (trim code)) ->
  validCodePoint (parseInt tok 16) = false ->
  rowEntries row = Thrown RangeError.
Proof.
  intros Hc Hn Hg Hin Htok. unfold Builder.rowEntries.
  rewrite Hc, Hn, Hg, fromCodePoint_invalid; [reflexivity|].
  exists (parseInt tok 16). split; [|assumption].
  unfold codePointsOf. apply in_map_iff. now exists tok.
Qed.

End Fatal.

(** C6, as stated: the token "1F6G0" is no hexadecimal numeral, and yet
    both scripts return: [parseInt] reads "1F6" and drops the rest, and the
    row is stored under U+01F6. *)
Lemma stray_letter_is_accepted :
  codeCell strayLetter = Some (lit "1F6G0")
  /\ In (lit "1F6G0") (split space (trim (lit "1F6G0")))
  /\ hexNumeral (lit "1F6G0") = false
  /\ (exists r, Part000.parseEmojiData [strayLetter] = Returned [(utf16 0x1F6, r)])
  /\ (exists r, Script.parseEmojiData [strayLetter] = Returned [(utf16 0x1F6, r)]).
Proof.
  split; [reflexivity|]. split; [now left|]. split; [reflexivity|].
  split; eexists; reflexivity.
Qed.

(** C6, amended.  When a row has its three cells and one of the tokens of
    its code gives [parseInt] no hexadecimal digit to read (the result is
    NaN), the turn of the loop throws a RangeError before anything is
    assigned, and [parseEmojiData] throws it for every list of rows that
    contains the row.  (A token that starts with hexadecimal digits is read
    up to its first other character, without error.) *)
Theorem unparsable_code_point_is_fatal
    (singleKeywords dualKeywords : list jsstring) (withCodePoints : bool)
    (pre post : list Row) (row : Row) (code nameText groupText tok : jsstring) :
  codeCell row = Some code ->
  nameCell row = Some nameText ->
  groupCell row = Some groupText ->
  In tok (split space (trim code)) ->
  parseInt tok 16 = NaN ->
  (forall emojiData,
      Builder.processRow singleKeywords dualKeywords withCodePoints emojiData row
      = Thrown RangeError)
  /\ Builder.parseEmojiData singleKeywords dualKeywords withCodePoints
                            (pre ++ row :: post)
     = Thrown RangeError.
Proof.
  intros Hc Hn Hg Hin Htok.
  assert (Hrow : Builder.rowEntries singleKeywords dualKeywords withCodePoints row
                 = Thrown RangeError).
  { apply rowEntries_unparsable with code nameText groupText tok; try assumption.
    rewrite Htok. reflexivity. }
  assert (Hturn : forall emojiData,
             Builder.processRow singleKeywords dualKeywords withCodePoints
                                emojiData row = Thrown RangeError).
  { intros o. unfold Builder.processRow. rewrite Hrow. reflexivity. }
  split; [exact Hturn|].
  unfold Builder.parseEmojiData. rewrite parseRows_app.
  destruct (Builder.parseRows singleKeywords dualKeywords withCodePoints pre
                              JsObject.empty) as [o|e] eqn:Hpre; simpl.
  - rewrite Hturn. reflexivity.
  - apply parseRows_error in Hpre. now subst.
Qed.

(** A code written "U+1F600", after a sound row: both scripts throw. *)
Lemma unparsable_code_point_prefixed :
  (forall emojiData, Part000.processRow emojiData prefixedCode = Thrown RangeError)
  /\ Part000.parseEmojiData ([wavingHand] ++ prefixedCode :: [handshake])
     = Thrown RangeError.
Proof.
  apply (@unparsable_code_point_is_fatal
           Part000.singleKeywords Part000.dualKeywords true
           [wavingHand] [handshake] prefixedCode
           (lit "U+1F600") (lit "grinning face") (lit "Smileys & Emotion")
           (lit "U+1F600")).
  - reflexivity.
  - reflexivity.
  - reflexivity.
  - simpl. left. reflexivity.
  - reflexivity.
Defined.

(* ================================================================== *)
(** * parseEmojiCounts of part_000 *)
(* ================================================================== *)

Module CountsFacts.
Import Part000.

Ltac label_cases cells :=
  repeat match goal with
         | |- context [str_eqb (categoryOf cells) ?l] =>
             let E := fresh "E" in
             destruct (str_eqb (categoryOf cells) l) eqn:E;
             [apply str_eqb_eq in E | apply str_eqb_neq in E]
         end.

Lemma component_countRow stats cells :
  component (countRow stats cells)
  = if str_eqb (categoryOf cells) (lit "Component")
    then countOf cells else component stats.
Proof.
  unfold countRow. label_cases cells; try reflexivity.
  destruct (negb _ && negb _); reflexivity.
Qed.

Lemma total_countRow stats cells :
  total_with_variations (countRow stats cells)
  = if str_eqb (categoryOf cells) (lit "Total")
    then Some (countOf cells) else total_with_variations stats.
Proof.
  unfold countRow.
  destruct (str_eqb (categoryOf cells) (lit "Component")) eqn:E1.
  - apply str_eqb_eq in E1. rewrite E1. reflexivity.
  - destruct (str_eqb (categoryOf cells) (lit "Total")); [reflexivity|].
    destruct (str_eqb (categoryOf cells) (lit "With skin tone variations"));
      [reflexivity|].
    destruct (negb _ && negb _); reflexivity.
Qed.

Lemma variations_countRow stats cells :
  skin_tone_variations (countRow stats cells)
  = if str_eqb (categoryOf cells) (lit "With skin tone variations")
    then Some (countOf cells) else skin_tone_variations stats.
Proof.
  unfold countRow.
  destruct (str_eqb (categoryOf cells) (lit "Component")) eqn:E1.
  - apply str_eqb_eq in E1. rewrite E1. reflexivity.
  - destruct (str_eqb (categoryOf cells) (lit "Total")) eqn:E2.
    + apply str_eqb_eq in E2. rewrite E2. reflexivity.
    + destruct (str_eqb (categoryOf cells) (lit "With skin tone variations"));
        [reflexivity|].
      destruct (negb _ && negb _); reflexivity.
Qed.

(** The assignment [stats.groups[category] = count] is made for the rows
    whose label is none of the three special ones nor "Group" and whose
    count is a number, and for no other row. *)
Lemma groups_countRow stats cells :
  groups (countRow stats cells)
  = if negb (special (categoryOf cells))
       && negb (str_eqb (categoryOf cells) (lit "Group"))
       && negb (isNaN (countOf cells))
    then JsObject.set (groups stats) (categoryOf cells) (countOf cells)
    else groups stats.
Proof.
  unfold countRow, special.
  destruct (str_eqb (categoryOf cells) (lit "Component")); [reflexivity|].
  destruct (str_eqb (categoryOf cells) (lit "Total")); [reflexivity|].
  destruct (str_eqb (categoryOf cells) (lit "With skin tone variations"));
    [reflexivity|].
  simpl. destruct (negb _ && negb _); reflexivity.
Qed.

Lemma component_scan rows stats :
  component (fold_left countRow rows stats)
  = match lastLabelled (lit "Component") rows with
    | Some n => n
    | None => component stats
    end.
Proof.
  revert stats. induction rows as [|cells rows IH]; simpl; intros stats.
  - reflexivity.
  - rewrite IH. destruct (lastLabelled (lit "Component") rows); [reflexivity|].
    rewrite component_countRow.
    destruct (str_eqb (categoryOf cells) (lit "Component")); reflexivity.
Qed.

Lemma total_scan rows stats :
  total_with_variations (fold_left countRow rows stats)
  = match lastLabelled (lit "Total") rows with
    | Some n => Some n
    | None => total_with_variations stats
    end.
Proof.
  revert stats. induction rows as [|cells rows IH]; simpl; intros stats.
  - reflexivity.
  - rewrite IH. destruct (lastLabelled (lit "Total") rows); [reflexivity|].
    rewrite total_countRow.
    destruct (str_eqb (categoryOf cells) (lit "Total")); reflexivity.
Qed.

Lemma variations_scan rows stats :
  skin_tone_variations (fold_left countRow rows stats)
  = match lastLabelled (lit "With skin tone variations") rows with
    | Some n => Some n
    | None => skin_tone_variations stats
    end.
Proof.
  revert stats. induction rows as [|cells rows IH]; simpl; intros stats.
  - reflexivity.
  - rewrite IH.
    destruct (lastLabelled (lit "With skin tone variations") rows);
      [reflexivity|].
    rewrite variations_countRow.
    destruct (str_eqb (categoryOf cells) (lit "With skin tone variations"));
      reflexivity.
Qed.

Lemma groups_scan rows stats category :
  special category = false ->
  category <> lit "Group" ->
  category <> JsObject.proto ->
  JsObject.getOwn (groups (fold_left countRow rows stats)) category
  = match lastCounted category rows with
    | Some n => Some n
    | None => JsObject.getOwn (groups stats) category
    end.
Proof.
  intros Hsp Hg Hp.
  revert stats. induction rows as [|cells rows IH]; simpl; intros stats.
  - reflexivity.
  - rewrite IH. destruct (lastCounted category rows); [reflexivity|].
    rewrite groups_countRow.
    str_cases (categoryOf cells) category.
    + rewrite E, Hsp. apply str_eqb_neq in Hg. rewrite Hg. simpl.
      destruct (isNaN (countOf cells)); simpl; [reflexivity|].
      rewrite JsObjectFacts.getOwn_set.
      apply str_eqb_neq in Hp. rewrite Hp, str_eqb_refl. reflexivity.
    + simpl.
      destruct (negb (special (categoryOf cells))
                && negb (str_eqb (categoryOf cells) (lit "Group"))
                && negb (isNaN (countOf cells))); [|reflexivity].
      rewrite JsObjectFacts.getOwn_set.
      destruct (str_eqb (categoryOf cells) JsObject.proto); [reflexivity|].
      apply str_eqb_neq in E. rewrite E. reflexivity.
Qed.

End CountsFacts.


Lemma groups_scan_excluded rows stats category :
  special category = true \/ category = lit "Group" ->
  JsObject.getOwn (Part000.groups (fold_left Part000.countRow rows stats)) category
  = JsObject.getOwn (Part000.groups stats) category.
Proof.
  intros Hex. revert stats.
  induction rows as [|cells rows IH]; simpl; intros stats; [reflexivity|].
  rewrite IH, CountsFacts.groups_countRow.
  destruct (negb (special (Part000.categoryOf cells))
            && negb (str_eqb (Part000.categoryOf cells) (lit "Group"))
            && negb (isNaN (Part000.countOf cells))) eqn:Hrow; [|reflexivity].
  rewrite JsObjectFacts.getOwn_set.
  destruct (str_eqb (Part000.categoryOf cells) JsObject.proto); [reflexivity|].
  str_cases (Part000.categoryOf cells) category; [|reflexivity].
  exfalso. rewrite E in Hrow.
  destruct Hex as [Hs | ->].
  - rewrite Hs in Hrow. discriminate.
  - rewrite andb_comm in Hrow. simpl in Hrow.
    destruct (isNaN _); simpl in Hrow; discriminate.
Qed.

(** C2, on the table with a row labelled "__proto__" and the count 5: the
    label is none of the three special ones nor "Group" and the count
    parses, and yet [stats.groups] of the result has no property for it.
    The assignment [stats.groups["__proto__"] = 5] runs the setter of
    [Object.prototype], which ignores a number, where the script means to
    store a count; the other category of the table is recorded. *)
Lemma proto_label_is_not_recorded :
  In (map lit ["__proto__"; "5"]%string) (tl countsWithProto)
  /\ special (lit "__proto__") = false
  /\ lit "__proto__" <> lit "Group"
  /\ Part000.countOf (map lit ["__proto__"; "5"]%string) = Num 5
  /\ exists stats,
      Part000.parseEmojiCounts countsWithProto = Returned stats
      /\ JsObject.getOwn (Part000.groups stats) (lit "__proto__") = None
      /\ JsObject.keys (Part000.groups stats) = [lit "Smileys & Emotion"].
Proof.
  split; [simpl; tauto|]. split; [reflexivity|]. split; [discriminate|].
  split; [reflexivity|].
  eexists. split; [reflexivity|]. split; reflexivity.
Qed.

(** X28.  [parseEmojiCounts] of [part_000] returns, whatever the
    first row is; for every label other than "Component", "Total",
    "With skin tone variations", "Group" and "__proto__", [stats.groups]
    holds the count of the last row with that label whose count is a number
    (and nothing if there is none); it holds nothing for the special labels
    and "Group"; and [total_without_skin_tone_variations] is the total minus
    the variations minus the component count in the arithmetic of doubles,
    each taken from the last row with its label (a missing total or count
    of variations is [undefined], a missing component count is 0).  On the
    rows of the self-test the result is 275, with the two per-category
    counts. *)
Theorem parseEmojiCounts_reconciles (header : list jsstring)
        (rows : list (list jsstring)) :
  exists stats,
    Part000.parseEmojiCounts (header :: rows) = Returned stats
    /\ (forall header', Part000.parseEmojiCounts (header' :: rows) = Returned stats)
    /\ (forall category,
          special category = false ->
          category <> lit "Group" ->
          category <> JsObject.proto ->
          JsObject.getOwn (Part000.groups stats) category
          = lastCounted category rows)
    /\ (forall category,
          special category = true \/ category = lit "Group" ->
          JsObject.getOwn (Part000.groups stats) category = None)
    /\ Part000.total_without_skin_tone_variations stats
       = sub (sub (toNumber (lastLabelled (lit "Total") rows))
                  (toNumber (lastLabelled (lit "With skin tone variations") rows)))
             (match lastLabelled (lit "Component") rows with
              | Some n => n
              | None => Num 0
              end)
    /\ Part000.parseEmojiCounts mockCounts
       = Returned
           {| Part000.total_without_skin_tone_variations := Num 275;
              Part000.component := Num 10;
              Part000.dual_skin_tone_support := Num 0;
              Part000.groups := [(lit "Smileys & Emotion", Num 100);
                                 (lit "People & Body", Num 200)];
              Part000.total_with_variations := Some (Num 310);
              Part000.skin_tone_variations := Some (Num 25) |}.
Proof.
  eexists. split; [reflexivity|].
  split; [reflexivity|].
  split.
  { intros category Hs Hg Hp. cbn [Part000.setResult Part000.groups tl].
    rewrite CountsFacts.groups_scan by assumption.
    destruct (lastCounted category rows); reflexivity. }
  split.
  { intros category Hex. cbn [Part000.setResult Part000.groups tl].
    now rewrite groups_scan_excluded. }
  split; [|reflexivity].
  cbn [Part000.setResult Part000.total_without_skin_tone_variations tl].
  rewrite CountsFacts.total_scan, CountsFacts.variations_scan,
    CountsFacts.component_scan.
  destruct (lastLabelled (lit "Total") rows),
    (lastLabelled (lit "With skin tone variations") rows); reflexivity.
Qed.

(** The rows of the self-test, with the label "People & Body". *)
Lemma parseEmojiCounts_reconciles_mock :
  exists stats,
    Part000.parseEmojiCounts mockCounts = Returned stats
    /\ JsObject.getOwn (Part000.groups stats) (lit "People & Body")
       = Some (Num 200)
    /\ Part000.total_without_skin_tone_variations stats = Num 275.
Proof.
  destruct (parseEmojiCounts_reconciles (map lit ["Group"; "Count"]%string)
                                        (tl mockCounts))
    as (stats & Hret & _ & Hgroups & _ & Htotal & _).
  exists stats. split; [exact Hret|]. split.
  - rewrite (Hgroups (lit "People & Body"));
      [reflexivity | reflexivity | discriminate | discriminate].
  - rewrite Htotal. reflexivity.
Defined.


(** Above 2^53 the integers are rounded to the nearest double, ties to the
    even one, and to Infinity beyond the largest double. *)
Lemma toDouble_rounds :
  toDouble (2 ^ 53 + 1) = Num (2 ^ 53)
  /\ toDouble (2 ^ 53 + 3) = Num (2 ^ 53 + 4)
  /\ toDouble (2 ^ 54 - 1) = Num (2 ^ 54)
  /\ toDouble (- (2 ^ 1024 - 2 ^ 970 - 1)) = Num (- (2 ^ 1024 - 2 ^ 971))
  /\ toDouble (2 ^ 1024 - 2 ^ 970) = Infinity false
  /\ sub (Num (2 ^ 54)) (Num 1) = Num (2 ^ 54)
  /\ sub (Infinity false) (Infinity false) = NaN
  /\ parseInt (lit "18014398509481983") 10 = Num 18014398509481984.
Proof. vm_compute. repeat split. Qed.




(* ================================================================== *)
(** * Back-references of the variant records *)
(* ================================================================== *)

Section Backrefs.
Variable singleKeywords dualKeywords : list jsstring.
Variable withCodePoints : bool.

Local Abbreviation rowEntries :=
  (Builder.rowEntries singleKeywords dualKeywords withCodePoints).
Local Abbreviation processRow :=
  (Builder.processRow singleKeywords dualKeywords withCodePoints).
Local Abbreviation parseRows :=
  (Builder.parseRows singleKeywords dualKeywords withCodePoints).
Local Abbreviation variantEntries :=
  (Builder.variantEntries singleKeywords dualKeywords withCodePoints).
Local Abbreviation baseRecord :=
  (Builder.baseRecord singleKeywords dualKeywords withCodePoints).

(** [strict]: whether the base records are required to be non-variants. *)
Variable strict : bool.

Local Abbreviation backrefs := (backrefs strict).
Local Abbreviation rowGuard :=
  (rowGuard strict (Builder.rowEntries singleKeywords dualKeywords withCodePoints)).
Local Abbreviation seenAfter :=
  (seenAfter (Builder.rowEntries singleKeywords dualKeywords withCodePoints)).
Local Abbreviation guarded :=
  (guarded strict (Builder.rowEntries singleKeywords dualKeywords withCodePoints)).

Lemma backrefs_base bases emojiData emoji r :
  backrefs bases emojiData ->
  emoji <> JsObject.proto ->
  isVariant r = false ->
  backrefs (emoji :: bases) (JsObject.set emojiData emoji r).
Proof.
  intros [I1 I2] Hp Hr. apply str_eqb_neq in Hp. split.
  - intros k r' Hk Hv. rewrite JsObjectFacts.getOwn_set, Hp in Hk.
    destruct (str_eqb emoji k).
    + injection Hk as <-. congruence.
    + destruct (I1 k r' Hk Hv) as (b & Hb & Hin). exists b. split; [|right]; assumption.
  - intros b Hb. rewrite JsObjectFacts.getOwn_set, Hp.
    str_cases emoji b.
    + exists r. split; [reflexivity|]. intros _. exact Hr.
    + destruct Hb as [Hb|Hb]; [contradiction|]. now apply I2.
Qed.

Lemma backrefs_variant bases emojiData k r emoji :
  backrefs bases emojiData ->
  In emoji bases ->
  base_emoji r = Some emoji ->
  (strict = true -> ~ In k bases) ->
  backrefs bases (JsObject.set emojiData k r).
Proof.
  intros [I1 I2] Hin Hb Hk. split.
  - intros k' r' Hk' Hv. rewrite JsObjectFacts.getOwn_set in Hk'.
    destruct (str_eqb k JsObject.proto); [now apply (I1 k')|].
    destruct (str_eqb k k').
    + injection Hk' as <-. now exists emoji.
    + now apply (I1 k').
  - intros b Hbin. rewrite JsObjectFacts.getOwn_set.
    destruct (str_eqb k JsObject.proto); [now apply I2|].
    str_cases k b; [|now apply I2].
    subst b. exists r. split; [reflexivity|].
    intros Hs. exfalso. now apply (Hk Hs).
Qed.

Lemma variant_fields emoji name group cps k r :
  In (k, r) (variantEntries emoji name group cps) ->
  isVariant r = true /\ base_emoji r = Some emoji /\ k <> emoji.
Proof.
  intros Hin.
  assert (Hk : k <> emoji).
  { assert (Hm : In k (map fst (variantEntries emoji name group cps))).
    { apply in_map_iff. now exists (k, r). }
    apply variant_keys_in in Hm as (suffix & -> & Hs).
    intros E. rewrite <- (app_nil_r emoji) in E at 2.
    apply app_inv_head in E. subst suffix.
    revert Hs. clear. intros Hs.
    assert (H : Forall (fun s : jsstring => s <> []) (suffixes true))
      by (repeat constructor; discriminate).
    rewrite Forall_forall in H. now apply (H []). }
  unfold Builder.variantEntries in Hin.
  destruct (Builder.hasSkinToneSupport singleKeywords name); [|destruct Hin].
  apply in_app_iff in Hin as [Hin|Hin].
  - apply in_map_iff in Hin as (m & [= <- <-] & _). repeat split. exact Hk.
  - destruct (Builder.hasDualSkinToneSupport dualKeywords name); [|destruct Hin].
    apply in_flat_map in Hin as (m1 & _ & Hin).
    apply in_map_iff in Hin as (m2 & [= <- <-] & _). repeat split. exact Hk.
Qed.

Lemma backrefs_variants bases emoji name group cps :
  In emoji bases ->
  (strict = true ->
   Forall (fun k => ~ In k bases)
          (map fst (variantEntries emoji name group cps))) ->
  forall emojiData,
    backrefs bases emojiData ->
    backrefs bases
             (fold_left Builder.assign (variantEntries emoji name group cps)
                        emojiData).
Proof.
  intros Hin Hfree.
  assert (Hall : forall k r, In (k, r) (variantEntries emoji name group cps) ->
                             base_emoji r = Some emoji
                             /\ (strict = true -> ~ In k bases)).
  { intros k r Hkr. split; [now apply (variant_fields _ _ _ _ _ _ Hkr)|].
    intros Hs. specialize (Hfree Hs). rewrite Forall_forall in Hfree.
    apply Hfree. apply in_map_iff. now exists (k, r). }
  clear Hfree. revert Hall.
  generalize (variantEntries emoji name group cps) as es.
  induction es as [|[k r] es IH]; simpl; intros Hall o Ho; [exact Ho|].
  apply IH.
  - intros k' r' H'. apply Hall. now right.
  - destruct (Hall k r (or_introl eq_refl)) as [Hb Hk].
    unfold Builder.assign. simpl. now apply backrefs_variant with emoji.
Qed.

Lemma rowEntries_shape row es :
  rowEntries row = Returned es ->
  es = []
  \/ exists emoji name group cps,
      es = (emoji, baseRecord name group cps)
           :: variantEntries emoji name group cps.
Proof.
  unfold Builder.rowEntries.
  destruct (codeCell row) as [c|]; [|intros [= <-]; now left].
  destruct (nameCell row) as [n|]; [|intros [= <-]; now left].
  destruct (groupCell row) as [g|]; [|intros [= <-]; now left].
  destruct (fromCodePoint (codePointsOf c)) as [emoji|e]; simpl; [|discriminate].
  intros [= <-]. right. now exists emoji, (trim n), (trim g), (codePointsOf c).
Qed.

Lemma backrefs_row seen row emojiData emojiData' :
  backrefs seen emojiData ->
  rowGuard seen row ->
  processRow emojiData row = Returned emojiData' ->
  backrefs (seenAfter seen row) emojiData'.
Proof.
  intros Hinv [Hproto Hfree]. unfold Builder.processRow, seenAfter.
  destruct (rowEntries row) as [es|e] eqn:Hes; simpl; [|discriminate].
  intros [= <-].
  destruct (rowEntries_shape _ Hes) as [-> | (emoji & n & g & cps & ->)].
  - exact Hinv.
  - simpl in *. unfold Builder.assign at 2. simpl.
    apply backrefs_variants.
    + now left.
    + intros Hs. specialize (Hfree Hs).
      rewrite Forall_forall in Hfree |- *. intros k Hk [<-|Hin].
      * apply in_map_iff in Hk as ([k' r] & <- & Hkr).
        now apply variant_fields in Hkr.
      * now apply (Hfree k).
    + now apply backrefs_base.
Qed.

Lemma backrefs_rows rows seen emojiData emojiData' :
  backrefs seen emojiData ->
  guarded seen rows ->
  parseRows rows emojiData = Returned emojiData' ->
  exists bases, backrefs bases emojiData'.
Proof.
  revert seen emojiData. induction rows as [|row rows IH]; simpl;
    intros seen o Hinv Hg.
  - intros [= <-]. now exists seen.
  - destruct Hg as [Hrow Hrest].
    destruct (processRow o row) as [o'|e] eqn:Hturn; simpl; [|discriminate].
    apply (IH (seenAfter seen row)); [|assumption].
    now apply backrefs_row with o.
Qed.

Lemma backrefs_empty : backrefs [] (@JsObject.empty EmojiRecord).
Proof. split; [discriminate|intros b []]. Qed.

End Backrefs.

Section Guards.
Variable rowEntries : Row -> outcome (list (jsstring * EmojiRecord)).

Lemma not_seen (seen : list jsstring) k :
  existsb (str_eqb k) seen = false -> ~ In k seen.
Proof.
  intros H Hin.
  assert (E : existsb (str_eqb k) seen = true).
  { apply existsb_exists. exists k. split; [assumption|apply str_eqb_refl]. }
  congruence.
Qed.

Lemma guarded_of_checks strict rows seen :
  noProtoKey rowEntries rows = true ->
  (strict = true -> noLateCollision rowEntries seen rows = true) ->
  guarded strict rowEntries seen rows.
Proof.
  revert seen. induction rows as [|row rows IH]; simpl; intros seen Hp Hc;
    [exact I|].
  apply andb_true_iff in Hp as [Hrow Hrest].
  split; [split|].
  - destruct (emojiOf (rowEntries row)); [|exact I].
    apply negb_true_iff in Hrow. now apply str_eqb_neq.
  - intros Hs. specialize (Hc Hs). apply andb_true_iff in Hc as [Hc _].
    rewrite forallb_forall in Hc. apply Forall_forall. intros k Hk.
    apply not_seen. apply negb_true_iff. now apply Hc.
  - apply IH; [assumption|]. intros Hs. specialize (Hc Hs).
    now apply andb_true_iff in Hc as [_ Hc].
Qed.

End Guards.

(** C4, as stated: the charts' row for "waving hand: light skin tone"
    followed by the row for "waving hand".  The second row writes its
    light-tone variant over the base record of the first; the variants of
    the first row keep naming that key, which now holds a variant. *)
Lemma late_variant_overwrites_base :
  exists emojiData r rb,
    Part000.parseEmojiData [wavingHandLight; wavingHand] = Returned emojiData
    /\ JsObject.getOwn emojiData (utf16 0x1F44B ++ utf16 0x1F3FB ++ utf16 0x1F3FC)
       = Some r
    /\ is_variant r = Some true
    /\ base_emoji r = Some (utf16 0x1F44B ++ utf16 0x1F3FB)
    /\ JsObject.getOwn emojiData (utf16 0x1F44B ++ utf16 0x1F3FB) = Some rb
    /\ is_variant rb = Some true.
Proof.
  eexists. eexists. eexists.
  split; [reflexivity|]. split; [reflexivity|].
  split; [reflexivity|]. split; [reflexivity|].
  split; reflexivity.
Qed.

(** C4, amended.  Let [parseEmojiData] return [emojiData].  The last write
    wins: under every key other than "__proto__", [emojiData] holds the
    record of the last assignment to that key among the assignments of all
    rows, and nothing where no row assigns the key; so the record that a row
    assigns under a key is in [emojiData] exactly as long as no later row
    assigns that key, whatever earlier rows stored there.  If no row has
    the key "__proto__",
    then for every record of [emojiData] with [is_variant] true the key
    [base_emoji] is present in [emojiData]; and if moreover no variant key
    of a row is the key of an earlier row, the record under [base_emoji] is
    not a variant.  The statement is about the loop shared by the two
    scripts, for any lists of keywords. *)
Theorem variant_backrefs
    (singleKeywords dualKeywords : list jsstring) (withCodePoints : bool)
    (rows : list Row) (emojiData : JsObject.t EmojiRecord) :
  Builder.parseEmojiData singleKeywords dualKeywords withCodePoints rows
  = Returned emojiData ->
  (forall k,
      k <> JsObject.proto ->
      JsObject.getOwn emojiData k
      = lastAssigned k
          (assignments (Builder.rowEntries singleKeywords dualKeywords
                                           withCodePoints) rows))
  /\ (forall earlier later row entries k r,
         rows = earlier ++ row :: later ->
         Builder.rowEntries singleKeywords dualKeywords withCodePoints row
         = Returned entries ->
         In (k, r) entries ->
         k <> JsObject.proto ->
         (JsObject.getOwn emojiData k = Some r
          <-> lastAssigned k
                (assignments (Builder.rowEntries singleKeywords dualKeywords
                                                 withCodePoints) later)
              = None
              \/ lastAssigned k
                   (assignments (Builder.rowEntries singleKeywords dualKeywords
                                                    withCodePoints) later)
                 = Some r))
  /\ (noProtoKey (Builder.rowEntries singleKeywords dualKeywords withCodePoints)
                 rows = true ->
      forall k r,
        JsObject.getOwn emojiData k = Some r ->
        isVariant r = true ->
        exists b rb,
          base_emoji r = Some b
          /\ JsObject.getOwn emojiData b = Some rb
          /\ (noLateCollision
                (Builder.rowEntries singleKeywords dualKeywords withCodePoints)
                [] rows = true ->
              isVariant rb = false)).
Proof.
  intros Hparse.
  assert (Hlast : forall k,
             k <> JsObject.proto ->
             JsObject.getOwn emojiData k
             = lastAssigned k
                 (assignments (Builder.rowEntries singleKeywords dualKeywords
                                                  withCodePoints) rows)).
  { intros k Hk. unfold Builder.parseEmojiData in Hparse.
    rewrite (@parseRows_last _ _ _ _ _ _ _ Hparse Hk).
    now destruct (lastAssigned k _). }
  split; [exact Hlast|]. split.
  - intros earlier later row entries k r -> Hes Hin Hk.
    rewrite (Hlast k Hk), assignments_app,
            (@assignments_cons _ _ _ row _ later Hes), !lastAssigned_app.
    assert (Hnd : NoDup (map fst entries)).
    { destruct (rowEntries_shape _ _ _ _ Hes)
        as [-> | (emoji & n & g & cps & ->)];
        [constructor|apply row_keys_distinct]. }
    destruct (lastAssigned k (assignments _ later)) as [r'|].
    + split; [intros H; now right|]. intros [H|H]; [discriminate|exact H].
    + rewrite (@lastAssigned_distinct k r _ Hnd Hin).
      split; [intros _; now left|reflexivity].
  - intros Hproto k r Hk Hv.
    destruct (noLateCollision
                (Builder.rowEntries singleKeywords dualKeywords withCodePoints)
                [] rows) eqn:Hfree.
    + assert (Hg : guarded true
                     (Builder.rowEntries singleKeywords dualKeywords withCodePoints)
                     [] rows)
        by (apply guarded_of_checks; auto).
      destruct (backrefs_rows _ _ _ _ (backrefs_empty true) Hg Hparse)
        as (bases & I1 & I2).
      destruct (I1 k r Hk Hv) as (b & Hb & Hin).
      destruct (I2 b Hin) as (rb & Hrb & Hok).
      exists b, rb. split; [assumption|]. split; [assumption|].
      intros _. now apply Hok.
    + assert (Hg : guarded false
                     (Builder.rowEntries singleKeywords dualKeywords withCodePoints)
                     [] rows)
        by (apply guarded_of_checks; [assumption|discriminate]).
      destruct (backrefs_rows _ _ _ _ (backrefs_empty false) Hg Hparse)
        as (bases & I1 & I2).
      destruct (I1 k r Hk Hv) as (b & Hb & Hin).
      destruct (I2 b Hin) as (rb & Hrb & _).
      exists b, rb. split; [assumption|]. split; [assumption|]. discriminate.
Qed.

(** The three rows of the self-test, in [part_000]. *)
Lemma variant_backrefs_mock :
  exists emojiData,
    Part000.parseEmojiData [grinningFace; handshake; wavingHand]
    = Returned emojiData
    /\ forall k r,
        JsObject.getOwn emojiData k = Some r ->
        isVariant r = true ->
        exists b rb,
          base_emoji r = Some b
          /\ JsObject.getOwn emojiData b = Some rb
          /\ isVariant rb = false.
Proof.
  destruct (Part000.parseEmojiData [grinningFace; handshake; wavingHand])
    as [emojiData|e] eqn:Hparse; [|vm_compute in Hparse; discriminate].
  exists emojiData. split; [reflexivity|].
  intros k r Hk Hv.
  destruct (proj2 (proj2 (@variant_backrefs Part000.singleKeywords
                                            Part000.dualKeywords
                                            true _ _ Hparse))
                  eq_refl k r Hk Hv)
    as (b & rb & Hb & Hrb & Hnv).
  exists b, rb. split; [assumption|]. split; [assumption|].
  apply Hnv. reflexivity.
Defined.

(* ================================================================== *)
(** * The ordered list of keys *)
(* ================================================================== *)

Module Order.

Lemma ltb_irrefl (a : jsstring) : str_ltb a a = false.
Proof.
  induction a as [|x a IH]; simpl; [reflexivity|].
  rewrite N.ltb_irrefl, N.eqb_refl, IH. reflexivity.
Qed.

Lemma ltb_trans (a b c : jsstring) :
  str_ltb a b = true -> str_ltb b c = true -> str_ltb a c = true.
Proof.
  revert b c. induction a as [|x a IH]; intros [|y b] [|z c]; simpl;
    try discriminate; try reflexivity.
  intros Hab Hbc.
  apply orb_true_iff in Hab as [Hxy|Hab]; apply orb_true_iff in Hbc as [Hyz|Hbc];
    apply orb_true_iff.
  - left. apply N.ltb_lt in Hxy, Hyz. apply N.ltb_lt. lia.
  - apply andb_true_iff in Hbc as [Hyz _]. apply N.eqb_eq in Hyz. subst.
    now left.
  - apply andb_true_iff in Hab as [Hxy _]. apply N.eqb_eq in Hxy. subst.
    now left.
  - apply andb_true_iff in Hab as [Hxy Hab].
    apply andb_true_iff in Hbc as [Hyz Hbc].
    apply N.eqb_eq in Hxy, Hyz. subst. right.
    rewrite N.eqb_refl. simpl. now apply IH with b.
Qed.

(** Two strings are equal or one is below the other. *)
Lemma ltb_total (a b : jsstring) :
  str_ltb a b = false -> str_ltb b a = false -> a = b.
Proof.
  revert b. induction a as [|x a IH]; intros [|y b]; simpl;
    try discriminate; try reflexivity.
  intros Hab Hba.
  apply orb_false_iff in Hab as [Hxy Hab].
  apply orb_false_iff in Hba as [Hyx Hba].
  apply N.ltb_ge in Hxy, Hyx.
  assert (x = y) by lia. subst y.
  rewrite N.eqb_refl in Hab, Hba. simpl in Hab, Hba.
  f_equal. now apply IH.
Qed.

Lemma ltb_asym (a b : jsstring) : str_ltb a b = true -> str_ltb b a = false.
Proof.
  intros Hab. destruct (str_ltb b a) eqn:Hba; [|reflexivity].
  pose proof (ltb_trans _ _ _ Hab Hba) as H. rewrite ltb_irrefl in H.
  discriminate.
Qed.

(** [<] on strings is the lexicographic order of the code units. *)
Lemma ltb_lexicographic (a b : jsstring) :
  str_ltb a b = true <->
  (exists y t, b = a ++ y :: t)
  \/ (exists p x y s t, a = p ++ x :: s /\ b = p ++ y :: t /\ (x < y)%N).
Proof.
  revert b. induction a as [|x a IH]; intros [|y b]; simpl.
  - split; [discriminate|].
    intros [(y & t & H)|(p & x & y & s & t & H & _)];
      [discriminate|destruct p; discriminate].
  - split; [|reflexivity]. intros _. left. now exists y, b.
  - split; [discriminate|].
    intros [(y & t & H)|(p & x' & y & s & t & _ & H & _)];
      [discriminate|destruct p; discriminate].
  - split.
    + intros H. apply orb_true_iff in H as [H|H].
      * right. exists [], x, y, a, b. apply N.ltb_lt in H. now repeat split.
      * apply andb_true_iff in H as [Hxy H]. apply N.eqb_eq in Hxy. subst y.
        apply IH in H as [(y & t & ->)|(p & x' & y & s & t & -> & -> & Hlt)].
        -- left. now exists y, t.
        -- right. now exists (x :: p), x', y, s, t.
    + intros [(y' & t & H)|(p & x' & y' & s & t & Ha & Hb & Hlt)];
        apply orb_true_iff.
      * injection H as -> ->. right. rewrite N.eqb_refl. simpl.
        apply IH. left. now exists y', t.
      * destruct p as [|c p]; simpl in Ha, Hb.
        -- injection Ha as -> ->. injection Hb as -> ->. left.
           now apply N.ltb_lt.
        -- injection Ha as -> ->. injection Hb as -> ->. right.
           rewrite N.eqb_refl. simpl. apply IH. right.
           now exists p, x', y', s, t.
Qed.

Lemma le_refl (a : jsstring) : str_le a a.
Proof. apply ltb_irrefl. Qed.

Lemma le_trans (a b c : jsstring) : str_le a b -> str_le b c -> str_le a c.
Proof.
  unfold str_le. intros Hab Hbc.
  destruct (str_ltb c a) eqn:Hca; [|reflexivity].
  destruct (str_ltb a b) eqn:Hlt.
  - pose proof (ltb_trans _ _ _ Hca Hlt). congruence.
  - assert (a = b) by now apply ltb_total. subst. congruence.
Qed.

Lemma le_antisym (a b : jsstring) : str_le a b -> str_le b a -> a = b.
Proof. unfold str_le. intros Hab Hba. now apply ltb_total. Qed.

Lemma insertSorted_perm x l : Permutation (x :: l) (insertSorted x l).
Proof.
  induction l as [|y l IH]; simpl; [reflexivity|].
  destruct (str_ltb y x); [|reflexivity].
  rewrite perm_swap. now constructor.
Qed.

Lemma sort_perm l : Permutation l (sort l).
Proof.
  induction l as [|x l IH]; simpl; [constructor|].
  rewrite <- insertSorted_perm. now constructor.
Qed.

Lemma insertSorted_sorted x l :
  StronglySorted str_le l -> StronglySorted str_le (insertSorted x l).
Proof.
  induction l as [|y l IH]; simpl; intros Hs.
  - repeat constructor.
  - inversion Hs as [|? ? Hl Hy]; subst.
    destruct (str_ltb y x) eqn:Hyx.
    + constructor; [now apply IH|].
      rewrite <- insertSorted_perm. constructor; [|assumption].
      now apply ltb_asym.
    + constructor; [assumption|]. constructor; [exact Hyx|].
      rewrite Forall_forall in Hy |- *. intros z Hz.
      apply le_trans with y; [exact Hyx|now apply Hy].
Qed.

Lemma sort_sorted l : StronglySorted str_le (sort l).
Proof.
  induction l as [|x l IH]; simpl; [constructor|].
  now apply insertSorted_sorted.
Qed.

Lemma sort_fixed l : StronglySorted str_le l -> sort l = l.
Proof.
  induction l as [|x l IH]; simpl; intros Hs; [reflexivity|].
  inversion Hs as [|? ? Hl Hx]; subst. rewrite IH by assumption.
  destruct l as [|y l]; simpl; [reflexivity|].
  inversion Hx as [|? ? Hxy _]; subst. unfold str_le in Hxy. now rewrite Hxy.
Qed.

(** A list has one sorted arrangement: whatever algorithm the engine runs,
    the array it leaves is this one. *)
Lemma sorted_unique l l' :
  StronglySorted str_le l -> StronglySorted str_le l' -> Permutation l l' ->
  l = l'.
Proof.
  revert l'. induction l as [|x l IH]; intros l' Hs Hs' Hp.
  - apply Permutation_nil in Hp. now subst.
  - destruct l' as [|y l'].
    { apply Permutation_sym, Permutation_nil in Hp. discriminate. }
    inversion Hs as [|? ? Hl Hx]; subst.
    inversion Hs' as [|? ? Hl' Hy]; subst.
    assert (x = y).
    { apply le_antisym.
      - assert (Hin : In y (x :: l))
          by (apply Permutation_in with (y :: l');
              [now apply Permutation_sym|now left]).
        destruct Hin as [->|Hin]; [apply le_refl|].
        rewrite Forall_forall in Hx. now apply Hx.
      - assert (Hin : In x (y :: l'))
          by (apply Permutation_in with (x :: l); [assumption|now left]).
        destruct Hin as [->|Hin]; [apply le_refl|].
        rewrite Forall_forall in Hy. now apply Hy. }
    subst y. f_equal. apply IH; try assumption.
    now apply Permutation_cons_inv with x.
Qed.

End Order.

(** C8.  The ordered list of [main] is the sorted arrangement of the keys
    of [emojiData], in the lexicographic order of their code units: it is
    sorted, it has the same elements with the same multiplicities, sorting
    it again leaves it unchanged (as it does every sorted list), and every
    sorted arrangement of the keys is equal to it, so the result depends on
    the mapping only. *)
Theorem ordered_emojis_sorted (emojiData : JsObject.t EmojiRecord) :
  orderedEmojis emojiData = sort (JsObject.keys emojiData)
  /\ StronglySorted str_le (orderedEmojis emojiData)
  /\ Permutation (JsObject.keys emojiData) (orderedEmojis emojiData)
  /\ sort (orderedEmojis emojiData) = orderedEmojis emojiData
  /\ (forall l, StronglySorted str_le l -> sort l = l)
  /\ (forall l, Permutation (JsObject.keys emojiData) l ->
                StronglySorted str_le l ->
                l = orderedEmojis emojiData)
  /\ (forall a b, str_le a b <->
                  a = b
                  \/ (exists y t, b = a ++ y :: t)
                  \/ (exists p x y s t,
                         a = p ++ x :: s /\ b = p ++ y :: t /\ (x < y)%N)).
Proof.
  split; [reflexivity|].
  split; [apply Order.sort_sorted|].
  split; [apply Order.sort_perm|].
  split; [apply Order.sort_fixed, Order.sort_sorted|].
  split; [exact Order.sort_fixed|].
  split.
  - intros l Hp Hs. apply Order.sorted_unique; [assumption|apply Order.sort_sorted|].
    rewrite <- Hp. apply Order.sort_perm.
  - intros a b. unfold str_le. split.
    + intros Hba. destruct (str_ltb a b) eqn:Hab.
      * right. now apply Order.ltb_lexicographic.
      * left. now apply Order.ltb_total.
    + intros [->|H]; [apply Order.ltb_irrefl|].
      apply Order.ltb_asym. now apply Order.ltb_lexicographic.
Qed.

(** The keys of the mapping of the self-test: sorting them twice is
    sorting them once; and a list that is sorted stays as it is. *)
Lemma ordered_emojis_of_mock :
  sort (orderedEmojis mockEmojiData) = orderedEmojis mockEmojiData
  /\ sort [utf16 0x1F44B; utf16 0x1F600; utf16 0x1F91D]
     = [utf16 0x1F44B; utf16 0x1F600; utf16 0x1F91D].
Proof.
  destruct (ordered_emojis_sorted mockEmojiData)
    as (_ & _ & _ & Hidem & Hfixed & _).
  split; [exact Hidem|].
  apply Hfixed. repeat constructor.
Defined.

(* ================================================================== *)
(** * generateGroupData *)
(* ================================================================== *)

Module GroupFacts.

Lemma existsb_In (x : jsstring) (l : list jsstring) :
  existsb (str_eqb x) l = true <-> In x l.
Proof.
  rewrite existsb_exists. split.
  - intros (y & Hy & E). apply str_eqb_eq in E. now subst.
  - intros H. exists x. split; [assumption|apply str_eqb_refl].
Qed.

Lemma existsb_not_In (x : jsstring) (l : list jsstring) :
  existsb (str_eqb x) l = false <-> ~ In x l.
Proof.
  rewrite <- existsb_In. destruct (existsb (str_eqb x) l); split;
    congruence.
Qed.

Lemma firstOccurrences_In (x : jsstring) (l : list jsstring) :
  In x (firstOccurrences l) <-> In x l.
Proof.
  induction l as [|y l IH]; simpl; [tauto|].
  rewrite filter_In, IH. str_cases y x; simpl; split; intros H.
  - now left.
  - now left.
  - destruct H as [H|[H _]]; [contradiction|now right].
  - destruct H as [H|H]; [contradiction|]. right. now split.
Qed.

Lemma firstOccurrences_NoDup (l : list jsstring) : NoDup (firstOccurrences l).
Proof.
  induction l as [|y l IH]; simpl; constructor.
  - rewrite filter_In. intros [_ H]. rewrite str_eqb_refl in H. discriminate.
  - now apply NoDup_filter.
Qed.

Lemma firstOccurrences_snoc (l : list jsstring) (x : jsstring) :
  firstOccurrences (l ++ [x])
  = if existsb (str_eqb x) l then firstOccurrences l
    else firstOccurrences l ++ [x].
Proof.
  induction l as [|y l IH]; simpl; [reflexivity|].
  rewrite IH. rewrite (str_eqb_sym x y).
  destruct (existsb (str_eqb x) l).
  - rewrite orb_true_r. reflexivity.
  - rewrite orb_false_r, filter_app. simpl.
    destruct (str_eqb y x); simpl; [now rewrite app_nil_r|reflexivity].
Qed.

Section Table.
Variable f : jsstring -> Group.t.

Lemma getOwn_table (names : list jsstring) (g : jsstring) :
  JsObject.getOwn (map (fun n => (n, f n)) names) g
  = if existsb (str_eqb g) names then Some (f g) else None.
Proof.
  induction names as [|n names IH]; simpl; [reflexivity|].
  rewrite (str_eqb_sym g n). str_cases n g; simpl; [now subst|exact IH].
Qed.

Lemma defineOwn_table_present (names : list jsstring) (g : jsstring) v :
  NoDup names -> In g names ->
  JsObject.defineOwn (map (fun n => (n, f n)) names) g v
  = map (fun n => (n, if str_eqb n g then v else f n)) names.
Proof.
  induction names as [|n names IH]; simpl; intros Hnd Hin; [destruct Hin|].
  inversion Hnd as [|? ? Hn Hnd']; subst.
  str_cases n g.
  - subst n. f_equal. apply map_ext_in. intros m Hm.
    str_cases m g; [|reflexivity]. subst. contradiction.
  - destruct Hin as [Hin|Hin]; [contradiction|]. f_equal. now apply IH.
Qed.

Lemma defineOwn_table_absent (names : list jsstring) (g : jsstring) v :
  ~ In g names ->
  JsObject.defineOwn (map (fun n => (n, f n)) names) g v
  = map (fun n => (n, f n)) names ++ [(g, v)].
Proof.
  induction names as [|n names IH]; simpl; intros Hin; [reflexivity|].
  str_cases n g; [exfalso; apply Hin; now left|].
  f_equal. apply IH. tauto.
Qed.

End Table.

Lemma defineOwn_twice (o : JsObject.t Group.t) k v v' :
  JsObject.defineOwn (JsObject.defineOwn o k v) k v' = JsObject.defineOwn o k v'.
Proof.
  induction o as [|[k0 v0] o IH]; simpl.
  - now rewrite str_eqb_refl.
  - str_cases k0 k; simpl.
    + subst. now rewrite str_eqb_refl.
    + apply str_eqb_neq in E. rewrite E. now rewrite IH.
Qed.

Lemma membersOf_snoc n entries e :
  membersOf n (entries ++ [e])
  = membersOf n entries
    ++ (if nonVariant e && str_eqb (category e) n
        then [toMember (fst e) (snd e)] else []).
Proof.
  unfold membersOf. rewrite filter_app, map_app. simpl.
  destruct (nonVariant e && str_eqb (category e) n); reflexivity.
Qed.

Lemma membersOf_absent n entries :
  ~ In n (map category entries) -> membersOf n entries = [].
Proof.
  unfold membersOf. induction entries as [|e entries IH]; simpl; intros H;
    [reflexivity|].
  str_cases (category e) n; [exfalso; apply H; now left|].
  rewrite andb_false_r. apply IH. tauto.
Qed.

Lemma ordinary_not_proto k : ordinaryKey k = true -> str_eqb k JsObject.proto = false.
Proof.
  unfold ordinaryKey. intros H. apply andb_true_iff in H as [_ H].
  apply negb_true_iff in H. apply str_eqb_neq. intros ->. discriminate.
Qed.

(** One turn of the loop, from the object built for the entries before. *)
Lemma groupStep_groupsOf pre e :
  ordinaryKey (category e) = true ->
  groupStep (groupsOf pre) e = Returned (groupsOf (pre ++ [e])).
Proof.
  intros Hord. destruct e as [emoji data].
  pose proof (ordinary_not_proto _ Hord) as Hproto.
  assert (Hinh : JsObject.inherited (group data) = false).
  { unfold ordinaryKey in Hord. apply andb_true_iff in Hord as [_ H].
    now apply negb_true_iff in H. }
  unfold category in *. simpl in Hord, Hproto.
  set (g := group data) in *.
  set (names := firstOccurrences (map category pre)).
  assert (Hnames : firstOccurrences (map category (pre ++ [(emoji, data)]))
                   = if existsb (str_eqb g) names then names else names ++ [g]).
  { rewrite map_app. simpl. rewrite firstOccurrences_snoc. fold names.
    change (category (emoji, data)) with g.
    change (map (fun entry : jsstring * EmojiRecord => group (snd entry)) pre)
      with (map category pre).
    destruct (existsb (str_eqb g) (map category pre)) eqn:E1;
      destruct (existsb (str_eqb g) names) eqn:E2; try reflexivity; exfalso.
    - apply existsb_In in E1. apply existsb_not_In in E2. apply E2.
      unfold names. now apply (proj2 (firstOccurrences_In _ _)).
    - apply existsb_not_In in E1. apply existsb_In in E2. apply E1.
      unfold names in E2. now apply (proj1 (firstOccurrences_In _ _)) in E2. }
  unfold groupStep. cbv zeta. fold g.
  set (groups1 := match JsObject.get (groupsOf pre) g with
                  | JsObject.Undefined => _
                  | _ => _
                  end).
  assert (Hg1 : groups1
                = if existsb (str_eqb g) names then groupsOf pre
                  else JsObject.defineOwn (groupsOf pre) g (newGroup data)).
  { unfold groups1, JsObject.get, groupsOf at 1. fold names.
    rewrite getOwn_table, Hinh.
    destruct (existsb (str_eqb g) names); [reflexivity|].
    unfold JsObject.set. now rewrite Hproto. }
  clearbody groups1. subst groups1.
  unfold groupsOf. rewrite Hnames. fold names.
  destruct (existsb (str_eqb g) names) eqn:Hex.
  - (* the group exists *)
    assert (Hin : In g names) by now apply existsb_In.
    destruct (isVariant data) eqn:Hv.
    + f_equal. apply map_ext. intros n. unfold groupOf. f_equal.
      rewrite membersOf_snoc. unfold nonVariant. simpl. rewrite Hv. simpl.
      now rewrite app_nil_r.
    + unfold JsObject.get. rewrite getOwn_table, Hex.
      rewrite defineOwn_table_present;
        [|apply firstOccurrences_NoDup|assumption].
      f_equal. apply map_ext. intros n. f_equal.
      unfold groupOf, push. simpl. rewrite !membersOf_snoc.
      unfold nonVariant, category. simpl. rewrite Hv. fold g. simpl.
      rewrite (str_eqb_sym n g).
      destruct (str_eqb g n) eqn:E; [|now rewrite app_nil_r].
      apply str_eqb_eq in E. now subst n.
  - (* the group is new *)
    apply existsb_not_In in Hex.
    assert (Hfresh : ~ In g (map category pre)).
    { intros H. apply Hex. unfold names.
      now apply (proj2 (firstOccurrences_In _ _)). }
    destruct (isVariant data) eqn:Hv.
    + rewrite defineOwn_table_absent by assumption.
      rewrite map_app. simpl. f_equal. f_equal.
      * apply map_ext. intros n. unfold groupOf. f_equal.
        rewrite membersOf_snoc. unfold nonVariant. simpl. rewrite Hv. simpl.
        now rewrite app_nil_r.
      * unfold groupOf, newGroup. fold g. do 3 f_equal.
        rewrite membersOf_snoc, membersOf_absent by assumption.
        unfold nonVariant. simpl. rewrite Hv. reflexivity.
    + unfold JsObject.get. rewrite JsObjectFacts.getOwn_defineOwn, str_eqb_refl.
      rewrite defineOwn_twice, defineOwn_table_absent by assumption.
      rewrite map_app. simpl. f_equal. f_equal.
      * apply map_ext_in. intros n Hn. unfold groupOf. f_equal.
        rewrite membersOf_snoc. unfold nonVariant, category. simpl. fold g.
        str_cases g n; [subst; contradiction|].
        rewrite andb_false_r. now rewrite app_nil_r.
      * unfold groupOf, push, newGroup. simpl. fold g. do 3 f_equal.
        rewrite membersOf_snoc, membersOf_absent by assumption.
        unfold nonVariant, category. simpl. rewrite Hv. fold g.
        now rewrite str_eqb_refl.
Qed.

Lemma groupLoop_groupsOf rest pre :
  forallb (fun e => ordinaryKey (category e)) rest = true ->
  groupLoop rest (groupsOf pre) = Returned (groupsOf (pre ++ rest)).
Proof.
  revert pre. induction rest as [|e rest IH]; simpl; intros pre H.
  - now rewrite app_nil_r.
  - apply andb_true_iff in H as [He Hrest].
    rewrite groupStep_groupsOf by assumption. simpl.
    rewrite IH by assumption. now rewrite <- app_assoc.
Qed.

Lemma values_groupsOf entries :
  forallb (fun e => ordinaryKey (category e)) entries = true ->
  JsObject.values (groupsOf entries)
  = map (groupOf entries) (firstOccurrences (map category entries)).
Proof.
  intros H. unfold JsObject.values. rewrite JsObjectFacts.entries_named.
  - unfold groupsOf. rewrite map_map. reflexivity.
  - unfold groupsOf. rewrite forallb_forall. intros [n g] Hin.
    apply in_map_iff in Hin as (n' & [= <- <-] & Hn). simpl.
    apply firstOccurrences_In, in_map_iff in Hn as (e & <- & He).
    rewrite forallb_forall in H. specialize (H e He).
    unfold ordinaryKey in H. now apply andb_true_iff in H as [H _].
Qed.

End GroupFacts.

Section Buckets.
Variable A : Type.
Variable key : A -> jsstring.

Lemma filter_disjoint (p q : A -> bool) (l : list A) :
  (forall x, In x l -> p x = true -> q x = false) ->
  Permutation (filter (fun x => p x || q x) l) (filter p l ++ filter q l).
Proof.
  induction l as [|x l IH]; simpl; intros H; [constructor|].
  assert (IH' : Permutation (filter (fun x => p x || q x) l)
                            (filter p l ++ filter q l))
    by (apply IH; intros y Hy; apply H; now right).
  specialize (H x (or_introl eq_refl)).
  destruct (p x) eqn:Hp; simpl.
  - rewrite (H eq_refl). now constructor.
  - destruct (q x); [|assumption].
    rewrite <- Permutation_middle. now constructor.
Qed.

(** Cutting a list into the buckets of distinct keys loses and repeats
    nothing. *)
Lemma buckets_perm (names : list jsstring) (l : list A) :
  NoDup names ->
  Permutation (flat_map (fun n => filter (fun x => str_eqb (key x) n) l) names)
              (filter (fun x => existsb (str_eqb (key x)) names) l).
Proof.
  induction names as [|n names IH]; simpl; intros Hnd.
  - induction l as [|x l IHl]; simpl; [constructor|assumption].
  - inversion Hnd as [|? ? Hn Hnd']; subst.
    rewrite filter_disjoint.
    + apply Permutation_app_head. now apply IH.
    + intros x _ Hx. apply str_eqb_eq in Hx. subst n.
      now apply GroupFacts.existsb_not_In.
Qed.

Lemma filter_all (p : A -> bool) (l : list A) :
  (forall x, In x l -> p x = true) -> filter p l = l.
Proof.
  induction l as [|x l IH]; simpl; intros H; [reflexivity|].
  rewrite (H x (or_introl eq_refl)). f_equal. apply IH.
  intros y Hy. apply H. now right.
Qed.

End Buckets.

Lemma memberships_groupOf (entries : list (jsstring * EmojiRecord))
      (names : list jsstring) :
  memberships (map (groupOf entries) names)
  = flat_map (fun n =>
                filter (fun p => str_eqb (fst p) n)
                       (map (fun e => (category e, toMember (fst e) (snd e)))
                            (filter nonVariant entries)))
             names.
Proof.
  unfold memberships. rewrite flat_map_concat_map, map_map.
  rewrite flat_map_concat_map. f_equal. apply map_ext. intros n.
  unfold groupOf, membersOf. simpl. rewrite map_map.
  induction entries as [|e entries IH]; simpl; [reflexivity|].
  destruct (nonVariant e); simpl; [|exact IH].
  str_cases (category e) n; simpl; [|exact IH].
  rewrite IH. now subst n.
Qed.

(** C7, as stated: a category named "2024" is an array index of the object
    [groups]; [Object.values] lists it before "Smileys & Emotion", which
    occurs first in the mapping. *)
Lemma numbered_category_comes_first :
  exists groups,
    generateGroupData numberedCategory = Returned groups
    /\ map Group.name groups = [lit "2024"; lit "Smileys & Emotion"]
    /\ firstOccurrences (map category (JsObject.entries numberedCategory))
       = [lit "Smileys & Emotion"; lit "2024"].
Proof. eexists. split; [reflexivity|]. split; reflexivity. Qed.

(** A category named like a member of [Object.prototype] is never created,
    and the first non-variant record of that category makes the function
    throw. *)
Lemma constructor_category_throws :
  generateGroupData constructorCategory = Thrown TypeError.
Proof. reflexivity. Qed.

(** C7, amended.  For every emoji mapping whose category names are neither
    array indices nor names of members of [Object.prototype],
    [generateGroupData] returns; the names of the groups are the category
    names of the mapping in the order of their first occurrence; the members
    of a group are the non-variant records of its category, in the order of
    the mapping; and, counting repetitions, the (group, member) pairs of the
    output are exactly the non-variant records of the mapping, each under
    its own category: no variant record is a member, and every non-variant
    record is a member once, of the group that bears its category name. *)
Theorem groups_of_ordinary_categories (emojiData : JsObject.t EmojiRecord) :
  ordinaryCategories emojiData = true ->
  exists groups,
    generateGroupData emojiData = Returned groups
    /\ map Group.name groups
       = firstOccurrences (map category (JsObject.entries emojiData))
    /\ (forall g, In g groups ->
                  Group.emojis g
                  = membersOf (Group.name g) (JsObject.entries emojiData))
    /\ Permutation
         (memberships groups)
         (map (fun e => (category e, toMember (fst e) (snd e)))
              (filter nonVariant (JsObject.entries emojiData))).
Proof.
  intros Hord. unfold ordinaryCategories in Hord.
  set (entries := JsObject.entries emojiData) in *.
  set (names := firstOccurrences (map category entries)).
  exists (map (groupOf entries) names).
  split.
  { unfold generateGroupData. fold entries.
    change (@JsObject.empty Group.t) with (groupsOf []).
    rewrite GroupFacts.groupLoop_groupsOf by assumption. simpl.
    now rewrite GroupFacts.values_groupsOf. }
  split.
  { rewrite map_map. simpl. apply map_id. }
  split.
  { intros g Hg. apply in_map_iff in Hg as (n & <- & _). reflexivity. }
  rewrite memberships_groupOf.
  rewrite buckets_perm by apply GroupFacts.firstOccurrences_NoDup.
  rewrite filter_all; [reflexivity|].
  intros p Hp. apply in_map_iff in Hp as (e & <- & He). simpl.
  apply GroupFacts.existsb_In. unfold names.
  apply GroupFacts.firstOccurrences_In, in_map.
  now apply filter_In in He as [He _].
Qed.

(** The mapping of the self-test. *)
Lemma groups_of_mock :
  exists groups,
    generateGroupData mockEmojiData = Returned groups
    /\ map Group.name groups
       = firstOccurrences (map category (JsObject.entries mockEmojiData))
    /\ (forall g, In g groups ->
                  Group.emojis g
                  = membersOf (Group.name g) (JsObject.entries mockEmojiData))
    /\ Permutation
         (memberships groups)
         (map (fun e => (category e, toMember (fst e) (snd e)))
              (filter nonVariant (JsObject.entries mockEmojiData))).
Proof. apply (@groups_of_ordinary_categories mockEmojiData). reflexivity. Defined.

(* ================================================================== *)
(** * parseEmojiCounts of script/generate-emoji-counts.js *)
(* ================================================================== *)

Section ScriptCounts.
Variable double : Type.
Variable Number : jsstring -> double.
Variable plus minus : double -> double -> double.
Variable ofInt : Z -> double.

Local Abbreviation columns := (Script.columns Number).
Local Abbreviation parseEmojiCounts :=
  (Script.parseEmojiCounts Number plus minus ofInt).

Lemma columns_returns theadCells i totalCells (stats : Script.Stats double) :
  (i + List.length theadCells <= List.length totalCells)%nat ->
  exists stats', columns theadCells i totalCells stats = Returned stats'.
Proof.
  revert i stats. induction theadCells as [|column rest IH]; simpl;
    intros i stats Hlen.
  - now exists stats.
  - destruct (nth_error totalCells i) as [text|] eqn:Hnth.
    + apply IH. lia.
    + apply nth_error_None in Hnth. lia.
Qed.

Lemma columns_throws theadCells i totalCells (stats : Script.Stats double) :
  (i <= List.length totalCells)%nat ->
  (List.length totalCells < i + List.length theadCells)%nat ->
  columns theadCells i totalCells stats = Thrown TypeError.
Proof.
  revert i stats. induction theadCells as [|column rest IH]; simpl;
    intros i stats Hi Hlen.
  - lia.
  - destruct (nth_error totalCells i) as [text|] eqn:Hnth; [|reflexivity].
    assert (i < List.length totalCells)%nat
      by (apply nth_error_Some; congruence).
    apply IH; lia.
Qed.

Lemma markedRows_returns rows :
  forallb (fun row : list jsstring =>
             match row with [] => false | _ :: _ => true end) rows = true ->
  exists marked, Script.markedRows rows = Returned marked.
Proof.
  induction rows as [|row rows IH]; simpl; intros H.
  - now exists [].
  - apply andb_true_iff in H as [Hrow Hrest].
    destruct row as [|first row]; [discriminate|].
    destruct (IH Hrest) as (marked & ->). simpl. eauto.
Qed.

Lemma markedRows_throws rows :
  forallb (fun row : list jsstring =>
             match row with [] => false | _ :: _ => true end) rows = false ->
  Script.markedRows rows = Thrown TypeError.
Proof.
  induction rows as [|row rows IH]; simpl; intros H; [discriminate|].
  destruct row as [|first row]; [reflexivity|].
  simpl in H. now rewrite IH.
Qed.

Lemma rev_nil_iff (A : Type) (l : list A) : rev l = [] -> l = [].
Proof.
  intros H. apply (f_equal (@rev A)) in H. now rewrite rev_involutive in H.
Qed.

Lemma parseEmojiCounts_shaped allRows :
  shaped allRows = true ->
  exists stats, parseEmojiCounts allRows = Returned stats.
Proof.
  unfold shaped, Script.parseEmojiCounts.
  destruct allRows as [|theadCells rest]; [discriminate|].
  set (allRows := theadCells :: rest). intros H.
  apply andb_true_iff in H as [Hrows Hlen]. apply Nat.leb_le in Hlen.
  destruct (rev (last allRows [])) as [|lastCell cells] eqn:Hrev.
  - exfalso. apply rev_nil_iff in Hrev.
    assert (Hin : In (last allRows []) allRows).
    { destruct (exists_last (l := allRows) ltac:(discriminate)) as (l' & x & E).
      rewrite E, last_last. apply in_or_app. right. now left. }
    rewrite forallb_forall in Hrows. specialize (Hrows _ Hin).
    rewrite Hrev in Hrows. discriminate.
  - match goal with
    | |- context [Script.columns _ _ _ _ ?s] =>
        destruct (columns_returns theadCells 0 (last allRows []) s Hlen)
          as (stats' & ->)
    end.
    destruct (markedRows_returns _ Hrows) as (marked & Hm).
    cbn [bind]. rewrite Hm. cbn [bind]. eauto.
Qed.

Lemma parseEmojiCounts_unshaped allRows :
  shaped allRows = false ->
  parseEmojiCounts allRows = Thrown TypeError.
Proof.
  unfold shaped, Script.parseEmojiCounts.
  destruct allRows as [|theadCells rest]; [reflexivity|].
  set (allRows := theadCells :: rest). intros H.
  destruct (rev (last allRows [])) as [|lastCell cells] eqn:Hrev;
    [reflexivity|].
  destruct (Script.columns _ _ _ _ _) as [stats|e] eqn:Hcols; cbn [bind].
  - apply andb_false_iff in H as [Hrows|Hlen].
    + now rewrite (markedRows_throws _ Hrows).
    + apply Nat.leb_gt in Hlen.
      rewrite columns_throws in Hcols by lia. discriminate.
  - destruct (Nat.le_gt_cases (List.length theadCells)
                              (List.length (last allRows []))) as [Hle|Hgt].
    + match type of Hcols with
      | Script.columns _ _ _ _ ?s = _ =>
          destruct (columns_returns theadCells 0 (last allRows []) s Hle)
            as (stats' & E)
      end.
      congruence.
    + rewrite columns_throws in Hcols by lia. congruence.
Qed.

Lemma parseEmojiCounts_dual allRows stats :
  parseEmojiCounts allRows = Returned stats ->
  Script.dual_skin_tone_support stats = ofInt 13.
Proof.
  unfold Script.parseEmojiCounts.
  destruct allRows as [|theadCells rest]; [discriminate|].
  destruct (rev _) as [|lastCell cells]; [discriminate|].
  destruct (Script.columns _ _ _ _ _) as [stats1|e]; cbn [bind]; [|discriminate].
  destruct (Script.markedRows _) as [marked|e]; cbn [bind]; [|discriminate].
  now intros [= <-].
Qed.

End ScriptCounts.

(** C10, as stated: on a document without table rows [allRows[0]] is
    [undefined], and the function throws instead of returning 13. *)
Lemma no_rows_no_stats :
  Script.parseEmojiCounts integerNumber add sub Num [] = Thrown TypeError.
Proof. reflexivity. Qed.

(** So it does on the rows of the script's own self-test, whose first row
    has two cells and whose last row has one. *)
Lemma script_self_test_counts_throw :
  Script.parseEmojiCounts integerNumber add sub Num scriptMockCounts
  = Thrown TypeError.
Proof. reflexivity. Qed.

(** C10, amended.  Whenever [parseEmojiCounts] of
    [script/generate-emoji-counts.js] returns, [dual_skin_tone_support] is
    the constant 13, whatever the rows hold.  It returns exactly when there
    is a row, every row has a child node and the last row has at least as
    many child nodes as the first; on every other document it throws a
    TypeError. *)
Theorem dual_skin_tone_support_is_13
    (double : Type) (Number : jsstring -> double)
    (plus minus : double -> double -> double) (ofInt : Z -> double)
    (allRows : list (list jsstring)) :
  (forall stats,
      Script.parseEmojiCounts Number plus minus ofInt allRows = Returned stats ->
      Script.dual_skin_tone_support stats = ofInt 13%Z)
  /\ (shaped allRows = true ->
      exists stats,
        Script.parseEmojiCounts Number plus minus ofInt allRows = Returned stats
        /\ Script.dual_skin_tone_support stats = ofInt 13%Z)
  /\ (shaped allRows = false ->
      Script.parseEmojiCounts Number plus minus ofInt allRows = Thrown TypeError).
Proof.
  split; [intros stats; apply parseEmojiCounts_dual|].
  split.
  - intros H.
    destruct (parseEmojiCounts_shaped Number plus minus ofInt _ H) as (stats & Hs).
    exists stats. split; [assumption|]. now apply parseEmojiCounts_dual in Hs.
  - apply parseEmojiCounts_unshaped.
Qed.

(** A table in the layout the script expects. *)
Lemma dual_skin_tone_support_by_column :
  exists stats,
    Script.parseEmojiCounts integerNumber add sub Num countsByColumn
    = Returned stats
    /\ Script.dual_skin_tone_support stats = Num 13%Z.
Proof.
  apply (proj1 (proj2 (@dual_skin_tone_support_is_13
                         number integerNumber add sub Num countsByColumn))).
  reflexivity.
Defined.

(* ================================================================== *)
(** * parseEmojiData: rows without effect, errors, stored records *)
(* ================================================================== *)

Lemma fromCodePoint_valid (cps : list number) :
  forallb validCodePoint cps = true ->
  exists s, fromCodePoint cps = Returned s.
Proof.
  induction cps as [|x cps IH]; simpl; intros H.
  - now exists [].
  - apply andb_true_iff in H as [Hx Hrest].
    destruct x as [|z|negative]; [discriminate| |discriminate].
    simpl in Hx. rewrite Hx.
    destruct (IH Hrest) as (s & ->). simpl. eauto.
Qed.

Lemma fromCodePoint_app (a b : list number) (s : jsstring) :
  fromCodePoint a = Returned s ->
  fromCodePoint (a ++ b) = bind (fromCodePoint b) (fun t => Returned (s ++ t)).
Proof.
  revert s. induction a as [|x a IH]; simpl; intros s.
  - intros [= <-]. destruct (fromCodePoint b); reflexivity.
  - destruct x as [|z|negative]; [discriminate| |discriminate].
    destruct ((0 <=? z)%Z && (z <=? 0x10FFFF)%Z); [|discriminate].
    destruct (fromCodePoint a) as [sa|e]; simpl; [|discriminate].
    intros [= <-]. rewrite (IH sa eq_refl).
    destruct (fromCodePoint b); simpl; [|reflexivity].
    now rewrite app_assoc.
Qed.

Section Stored.
Variable singleKeywords dualKeywords : list jsstring.
Variable withCodePoints : bool.

Local Abbreviation rowEntries :=
  (Builder.rowEntries singleKeywords dualKeywords withCodePoints).
Local Abbreviation processRow :=
  (Builder.processRow singleKeywords dualKeywords withCodePoints).
Local Abbreviation parseRows :=
  (Builder.parseRows singleKeywords dualKeywords withCodePoints).
Local Abbreviation variantEntries :=
  (Builder.variantEntries singleKeywords dualKeywords withCodePoints).
Local Abbreviation baseRecord :=
  (Builder.baseRecord singleKeywords dualKeywords withCodePoints).

Lemma rowEntries_incomplete row :
  complete row = false -> rowEntries row = Returned [].
Proof.
  unfold complete, Builder.rowEntries.
  destruct (codeCell row), (nameCell row), (groupCell row);
    try reflexivity; discriminate.
Qed.

Lemma processRow_incomplete row emojiData :
  complete row = false -> processRow emojiData row = Returned emojiData.
Proof.
  intros H. unfold Builder.processRow. now rewrite rowEntries_incomplete.
Qed.

Lemma parseRows_filter_complete rows emojiData :
  parseRows (filter complete rows) emojiData = parseRows rows emojiData.
Proof.
  revert emojiData. induction rows as [|row rows IH]; simpl; intros o;
    [reflexivity|].
  destruct (complete row) eqn:Hc; simpl.
  - destruct (processRow o row); simpl; [apply IH|reflexivity].
  - rewrite processRow_incomplete by assumption. simpl. apply IH.
Qed.

Lemma rowEntries_decodable row :
  decodable row = true -> exists es, rowEntries row = Returned es.
Proof.
  unfold decodable, complete, Builder.rowEntries.
  destruct (codeCell row) as [c|]; [|eauto].
  destruct (nameCell row) as [n|]; [|eauto].
  destruct (groupCell row) as [g|]; [|eauto].
  simpl. intros H. destruct (fromCodePoint_valid _ H) as (s & ->). simpl. eauto.
Qed.

Lemma rowEntries_undecodable row :
  decodable row = false -> rowEntries row = Thrown RangeError.
Proof.
  unfold decodable, complete, Builder.rowEntries.
  destruct (codeCell row) as [c|]; [|discriminate].
  destruct (nameCell row) as [n|]; [|discriminate].
  destruct (groupCell row) as [g|]; [|discriminate].
  simpl. intros H. rewrite fromCodePoint_invalid; [reflexivity|].
  assert (Hex : existsb (fun x => negb (validCodePoint x)) (codePointsOf c) = true).
  { clear -H. induction (codePointsOf c) as [|x l IH]; simpl in *; [discriminate|].
    destruct (validCodePoint x); simpl in *; [now apply IH|reflexivity]. }
  apply existsb_exists in Hex as (x & Hin & Hx).
  exists x. split; [assumption|]. now apply negb_true_iff.
Qed.

Lemma parseRows_decodable rows emojiData :
  forallb decodable rows = true ->
  exists emojiData', parseRows rows emojiData = Returned emojiData'.
Proof.
  revert emojiData. induction rows as [|row rows IH]; simpl; intros o H.
  - eauto.
  - apply andb_true_iff in H as [Hrow Hrest].
    unfold Builder.processRow.
    destruct (rowEntries_decodable _ Hrow) as (es & ->). simpl. now apply IH.
Qed.

Lemma parseRows_undecodable rows emojiData :
  forallb decodable rows = false ->
  parseRows rows emojiData = Thrown RangeError.
Proof.
  revert emojiData. induction rows as [|row rows IH]; simpl; intros o H;
    [discriminate|].
  unfold Builder.processRow.
  destruct (decodable row) eqn:Hrow; simpl in H.
  - destruct (rowEntries_decodable _ Hrow) as (es & ->). simpl. now apply IH.
  - now rewrite rowEntries_undecodable.
Qed.

(** Where a record read after the assignments of a row comes from. *)
Lemma assigned_origin (es : list (jsstring * EmojiRecord)) emojiData k r :
  JsObject.getOwn (fold_left Builder.assign es emojiData) k = Some r ->
  In (k, r) es \/ JsObject.getOwn emojiData k = Some r.
Proof.
  revert emojiData. induction es as [|[k0 r0] es IH]; simpl; intros o H.
  - now right.
  - destruct (IH _ H) as [Hin|Ho]; [left; now right|].
    unfold Builder.assign in Ho. simpl in Ho.
    rewrite JsObjectFacts.getOwn_set in Ho.
    destruct (str_eqb k0 JsObject.proto); [now right|].
    str_cases k0 k; [|now right].
    injection Ho as <-. subst. left. now left.
Qed.

(** A property of the assignments of every row is a property of every
    stored record. *)
Lemma parseRows_stored (Q : jsstring -> EmojiRecord -> Prop) rows emojiData emojiData' :
  parseRows rows emojiData = Returned emojiData' ->
  (forall k r, JsObject.getOwn emojiData k = Some r -> Q k r) ->
  (forall row es k r, In row rows -> rowEntries row = Returned es ->
                      In (k, r) es -> Q k r) ->
  forall k r, JsObject.getOwn emojiData' k = Some r -> Q k r.
Proof.
  revert emojiData. induction rows as [|row rows IH]; simpl; intros o Hparse Ho Hrows.
  - injection Hparse as <-. exact Ho.
  - unfold Builder.processRow in Hparse.
    destruct (rowEntries row) as [es|e] eqn:Hes; simpl in Hparse; [|discriminate].
    apply (IH _ Hparse).
    + intros k r Hk. destruct (assigned_origin _ _ _ Hk) as [Hin|Hold].
      * apply (Hrows row es); auto.
      * now apply Ho.
    + intros row' es' k r Hin. apply Hrows. now right.
Qed.

(** The shape of the assignments of a row. *)
Lemma rowEntries_records row es k r :
  rowEntries row = Returned es ->
  In (k, r) es ->
  (isVariant r = false /\ is_variant r = None /\ base_emoji r = None
   /\ exists d, dual_skin_tone_support r = Some d)
  \/ (isVariant r = true /\ skin_tone_support r = true
      /\ exists b, base_emoji r = Some b
         /\ ((exists m, In m SKIN_TONE_MODIFIERS /\ k = b ++ m
                        /\ dual_skin_tone_support r = None)
             \/ (exists m1 m2, In m1 SKIN_TONE_MODIFIERS
                               /\ In m2 SKIN_TONE_MODIFIERS
                               /\ k = b ++ m1 ++ m2
                               /\ dual_skin_tone_support r = Some true))).
Proof.
  intros Hes Hin.
  destruct (rowEntries_shape _ _ _ _ Hes) as [-> | (emoji & n & g & cps & ->)];
    [destruct Hin|].
  destruct Hin as [[= <- <-]|Hin].
  - left. repeat split. simpl. eauto.
  - right. unfold Builder.variantEntries in Hin.
    destruct (Builder.hasSkinToneSupport singleKeywords n); [|destruct Hin].
    apply in_app_iff in Hin as [Hin|Hin].
    + apply in_map_iff in Hin as (m & [= <- <-] & Hm).
      repeat split. exists emoji. split; [reflexivity|]. left. now exists m.
    + destruct (Builder.hasDualSkinToneSupport dualKeywords n); [|destruct Hin].
      apply in_flat_map in Hin as (m1 & Hm1 & Hin).
      apply in_map_iff in Hin as (m2 & [= <- <-] & Hm2).
      repeat split. exists emoji. split; [reflexivity|]. right.
      exists m1, m2. repeat split; try assumption. symmetry. apply app_assoc.
Qed.

Lemma rowEntries_length row es :
  rowEntries row = Returned es -> (List.length es <= 31)%nat.
Proof.
  intros Hes.
  destruct (rowEntries_shape _ _ _ _ Hes) as [-> | (emoji & n & g & cps & ->)];
    [simpl; lia|].
  unfold Builder.variantEntries.
  destruct (Builder.hasSkinToneSupport singleKeywords n); [|simpl; lia].
  destruct (Builder.hasDualSkinToneSupport dualKeywords n); simpl; lia.
Qed.

Lemma defineOwn_length (o : JsObject.t EmojiRecord) k r :
  (List.length (JsObject.defineOwn o k r) <= S (List.length o))%nat.
Proof.
  induction o as [|[k0 r0] o IH]; simpl; [lia|].
  destruct (str_eqb k0 k); simpl; lia.
Qed.

Lemma assigned_length (es : list (jsstring * EmojiRecord)) emojiData :
  (List.length (fold_left Builder.assign es emojiData)
   <= List.length emojiData + List.length es)%nat.
Proof.
  revert emojiData. induction es as [|[k r] es IH]; simpl; intros o; [lia|].
  specialize (IH (Builder.assign o (k, r))).
  assert (List.length (Builder.assign o (k, r)) <= S (List.length o))%nat.
  { unfold Builder.assign, JsObject.set. simpl.
    destruct (str_eqb k JsObject.proto); [lia|apply defineOwn_length]. }
  lia.
Qed.

Lemma parseRows_length rows emojiData emojiData' :
  parseRows rows emojiData = Returned emojiData' ->
  (List.length emojiData'
   <= List.length emojiData + 31 * List.length (filter complete rows))%nat.
Proof.
  revert emojiData. induction rows as [|row rows IH]; simpl; intros o Hparse.
  - injection Hparse as <-. lia.
  - unfold Builder.processRow in Hparse.
    destruct (rowEntries row) as [es|e] eqn:Hes; simpl in Hparse; [|discriminate].
    specialize (IH _ Hparse).
    pose proof (assigned_length es o) as Hlen.
    destruct (complete row) eqn:Hc.
    + pose proof (rowEntries_length _ Hes). simpl. lia.
    + rewrite rowEntries_incomplete in Hes by assumption.
      injection Hes as <-. cbn [fold_left List.length] in *. lia.
Qed.

Lemma modifier_code_point m :
  In m SKIN_TONE_MODIFIERS -> fromCodePoint [codePointAt0 m] = Returned m.
Proof.
  intros H. repeat (destruct H as [<-|H]; [reflexivity|]). destruct H.
Qed.

(** The code points stored with a record spell its key. *)
Lemma rowEntries_code_points row es k r :
  rowEntries row = Returned es ->
  In (k, r) es ->
  exists cps, code_points r = Builder.stored withCodePoints cps
              /\ fromCodePoint cps = Returned k.
Proof.
  unfold Builder.rowEntries.
  destruct (codeCell row) as [c|]; [|intros [= <-]; intros []].
  destruct (nameCell row) as [n|]; [|intros [= <-]; intros []].
  destruct (groupCell row) as [g|]; [|intros [= <-]; intros []].
  destruct (fromCodePoint (codePointsOf c)) as [emoji|e] eqn:Hemoji; simpl;
    [|discriminate].
  intros [= <-] [[= <- <-]|Hin].
  - exists (codePointsOf c). now split.
  - unfold Builder.variantEntries in Hin.
    destruct (Builder.hasSkinToneSupport singleKeywords (trim n));
      [|destruct Hin].
    apply in_app_iff in Hin as [Hin|Hin].
    + apply in_map_iff in Hin as (m & [= <- <-] & Hm).
      exists (codePointsOf c ++ [codePointAt0 m]). split; [reflexivity|].
      rewrite (@fromCodePoint_app _ _ _ Hemoji), (@modifier_code_point _ Hm).
      reflexivity.
    + destruct (Builder.hasDualSkinToneSupport dualKeywords (trim n));
        [|destruct Hin].
      apply in_flat_map in Hin as (m1 & Hm1 & Hin).
      apply in_map_iff in Hin as (m2 & [= <- <-] & Hm2).
      exists (codePointsOf c ++ [codePointAt0 m1; codePointAt0 m2]).
      split; [reflexivity|].
      rewrite (@fromCodePoint_app _ _ _ Hemoji).
      change [codePointAt0 m1; codePointAt0 m2]
        with ([codePointAt0 m1] ++ [codePointAt0 m2]).
      rewrite (@fromCodePoint_app _ _ _ (@modifier_code_point _ Hm1)),
              (@modifier_code_point _ Hm2).
      simpl. now rewrite app_assoc.
Qed.

End Stored.

(** ** Enumeration of an object *)

Module EnumFacts.
Import JsObject.
Section Facts.
Variable V : Type.
Implicit Types o : t V.

Lemma insertIndexed_perm (x : N * (jsstring * V)) l :
  Permutation (x :: l) (insertIndexed x l).
Proof.
  induction l as [|y l IH]; simpl; [reflexivity|].
  destruct (fst x <=? fst y)%N; [reflexivity|].
  rewrite perm_swap. now constructor.
Qed.

Lemma sorted_perm (l : list (N * (jsstring * V))) :
  Permutation l (fold_right (@insertIndexed V) [] l).
Proof.
  induction l as [|x l IH]; simpl; [reflexivity|].
  rewrite <- insertIndexed_perm. now constructor.
Qed.

Lemma indexed_named_perm o :
  Permutation (map snd (indexed o) ++ filter (fun e => isNamed (fst e)) o) o.
Proof.
  induction o as [|e o IH]; simpl; [reflexivity|].
  unfold isNamed. destruct (arrayIndex (fst e)); simpl.
  - now constructor.
  - rewrite <- Permutation_middle. now constructor.
Qed.

(** [Object.entries] lists every own property once. *)
Lemma entries_perm o : Permutation (entries o) o.
Proof.
  unfold entries.
  rewrite <- (indexed_named_perm o) at 3.
  apply Permutation_app_tail, Permutation_map, Permutation_sym, sorted_perm.
Qed.

Lemma keys_length o : List.length (keys o) = List.length o.
Proof.
  unfold keys. rewrite length_map. apply Permutation_length, entries_perm.
Qed.

Lemma entries_In o e : In e (entries o) <-> In e o.
Proof.
  split; apply Permutation_in;
    [apply entries_perm|apply Permutation_sym, entries_perm].
Qed.

End Facts.
End EnumFacts.

(** X1.  A row that lacks one of its three cells has no effect on the
    mapping: [parseEmojiData] gives the same result, or fails alike, on
    the rows that have their cells. *)
Theorem incomplete_rows_have_no_effect
    (singleKeywords dualKeywords : list jsstring) (withCodePoints : bool)
    (rows : list Row) :
  Builder.parseEmojiData singleKeywords dualKeywords withCodePoints
                         (filter complete rows)
  = Builder.parseEmojiData singleKeywords dualKeywords withCodePoints rows.
Proof.
  apply parseRows_filter_complete.
Qed.

(** X2.  [parseEmojiData] returns a mapping when every row that has its
    cells has a code whose tokens [parseInt] reads as code points, and
    throws a RangeError otherwise; names and groups never make it fail. *)
Theorem parseEmojiData_fails_on_codes_only
    (singleKeywords dualKeywords : list jsstring) (withCodePoints : bool)
    (rows : list Row) :
  if forallb decodable rows
  then exists emojiData,
      Builder.parseEmojiData singleKeywords dualKeywords withCodePoints rows
      = Returned emojiData
  else Builder.parseEmojiData singleKeywords dualKeywords withCodePoints rows
       = Thrown RangeError.
Proof.
  destruct (forallb decodable rows) eqn:H.
  - now apply parseRows_decodable.
  - now apply parseRows_undecodable.
Qed.

(** X3.  Every record of the mapping that [parseEmojiData] returns was
    assigned, under its key, by a row of the list. *)
Theorem stored_record_comes_from_a_row
    (singleKeywords dualKeywords : list jsstring) (withCodePoints : bool)
    (rows : list Row) (emojiData : JsObject.t EmojiRecord)
    (k : jsstring) (r : EmojiRecord) :
  Builder.parseEmojiData singleKeywords dualKeywords withCodePoints rows
  = Returned emojiData ->
  JsObject.getOwn emojiData k = Some r ->
  exists row entries,
    In row rows
    /\ complete row = true
    /\ Builder.rowEntries singleKeywords dualKeywords withCodePoints row
       = Returned entries
    /\ In (k, r) entries.
Proof.
  intros Hparse.
  apply (@parseRows_stored singleKeywords dualKeywords withCodePoints
           (fun k r =>
              exists row entries,
                In row rows /\ complete row = true
                /\ Builder.rowEntries singleKeywords dualKeywords
                                      withCodePoints row = Returned entries
                /\ In (k, r) entries) rows JsObject.empty emojiData Hparse).
  - discriminate.
  - intros row es k' r' Hin Hes Hk. exists row, es.
    repeat split; try assumption.
    destruct (complete row) eqn:Hc; [reflexivity|].
    rewrite rowEntries_incomplete in Hes by assumption.
    injection Hes as <-. destruct Hk.
Qed.

Lemma stored_record_comes_from_a_row_mock :
  exists row entries,
    In row [grinningFace; handshake; wavingHand]
    /\ complete row = true
    /\ Part000.rowEntries row = Returned entries
    /\ In (utf16 0x1F44B ++ utf16 0x1F3FD, wavingHandMedium) entries.
Proof.
  apply (@stored_record_comes_from_a_row
           Part000.singleKeywords Part000.dualKeywords true
           [grinningFace; handshake; wavingHand] mockEmojiData).
  - reflexivity.
  - vm_compute. reflexivity.
Defined.

(** X4.  In the mapping that [parseEmojiData] returns a record is either a
    base record, without [is_variant] and [base_emoji] and with a boolean
    [dual_skin_tone_support], or a variant: then [skin_tone_support] is
    true, and its key is [base_emoji] followed by one skin tone modifier
    (no [dual_skin_tone_support]) or by two ([dual_skin_tone_support]
    true). *)
Theorem stored_record_shape
    (singleKeywords dualKeywords : list jsstring) (withCodePoints : bool)
    (rows : list Row) (emojiData : JsObject.t EmojiRecord)
    (k : jsstring) (r : EmojiRecord) :
  Builder.parseEmojiData singleKeywords dualKeywords withCodePoints rows
  = Returned emojiData ->
  JsObject.getOwn emojiData k = Some r ->
  (isVariant r = false /\ is_variant r = None /\ base_emoji r = None
   /\ exists d, dual_skin_tone_support r = Some d)
  \/ (isVariant r = true /\ skin_tone_support r = true
      /\ exists b, base_emoji r = Some b
         /\ ((exists m, In m SKIN_TONE_MODIFIERS /\ k = b ++ m
                        /\ dual_skin_tone_support r = None)
             \/ (exists m1 m2, In m1 SKIN_TONE_MODIFIERS
                               /\ In m2 SKIN_TONE_MODIFIERS
                               /\ k = b ++ m1 ++ m2
                               /\ dual_skin_tone_support r = Some true))).
Proof.
  intros Hparse Hk. pattern k, r.
  match goal with
  | |- ?Q k r =>
      apply (@parseRows_stored singleKeywords dualKeywords withCodePoints Q
                               rows JsObject.empty emojiData Hparse)
  end; [discriminate| |exact Hk].
  intros row es k' r' _ Hes Hin.
  eapply rowEntries_records; eassumption.
Qed.

(** X6.  The mapping that [parseEmojiData] returns has at most 31 keys for
    each row that has its cells: the emoji, five variants and twenty-five
    pairs. *)
Theorem emojiData_size
    (singleKeywords dualKeywords : list jsstring) (withCodePoints : bool)
    (rows : list Row) (emojiData : JsObject.t EmojiRecord) :
  Builder.parseEmojiData singleKeywords dualKeywords withCodePoints rows
  = Returned emojiData ->
  (List.length (JsObject.keys emojiData)
   <= 31 * List.length (filter complete rows))%nat.
Proof.
  intros Hparse. rewrite EnumFacts.keys_length.
  apply parseRows_length in Hparse. exact Hparse.
Qed.

Lemma stored_record_shape_mock :
  (isVariant wavingHandMedium = false /\ is_variant wavingHandMedium = None
   /\ base_emoji wavingHandMedium = None
   /\ exists d, dual_skin_tone_support wavingHandMedium = Some d)
  \/ (isVariant wavingHandMedium = true
      /\ skin_tone_support wavingHandMedium = true
      /\ exists b, base_emoji wavingHandMedium = Some b
         /\ ((exists m, In m SKIN_TONE_MODIFIERS
                        /\ utf16 0x1F44B ++ utf16 0x1F3FD = b ++ m
                        /\ dual_skin_tone_support wavingHandMedium = None)
             \/ (exists m1 m2, In m1 SKIN_TONE_MODIFIERS
                               /\ In m2 SKIN_TONE_MODIFIERS
                               /\ utf16 0x1F44B ++ utf16 0x1F3FD
                                  = b ++ m1 ++ m2
                               /\ dual_skin_tone_support wavingHandMedium
                                  = Some true))).
Proof.
  apply (@stored_record_shape
           Part000.singleKeywords Part000.dualKeywords true
           [grinningFace; handshake; wavingHand] mockEmojiData).
  - reflexivity.
  - vm_compute. reflexivity.
Defined.

Lemma emojiData_size_mock :
  (List.length (JsObject.keys mockEmojiData)
   <= 31 * List.length (filter complete [grinningFace; handshake; wavingHand]))%nat.
Proof.
  apply (@emojiData_size Part000.singleKeywords Part000.dualKeywords true).
  reflexivity.
Defined.

(** X5.  In [part_000] every record of the mapping carries the code points
    of its key: [String.fromCodePoint] of [code_points] is the key under
    which the record is stored.  The other script stores no
    [code_points]. *)
Theorem stored_code_points_spell_the_key
    (singleKeywords dualKeywords : list jsstring) (withCodePoints : bool)
    (rows : list Row) (emojiData : JsObject.t EmojiRecord)
    (k : jsstring) (r : EmojiRecord) :
  Builder.parseEmojiData singleKeywords dualKeywords withCodePoints rows
  = Returned emojiData ->
  JsObject.getOwn emojiData k = Some r ->
  if withCodePoints
  then exists cps, code_points r = Some cps /\ fromCodePoint cps = Returned k
  else code_points r = None.
Proof.
  intros Hparse Hk. pattern k, r.
  match goal with
  | |- ?Q k r =>
      apply (@parseRows_stored singleKeywords dualKeywords withCodePoints Q
                               rows JsObject.empty emojiData Hparse)
  end; [discriminate| |exact Hk].
  intros row es k' r' _ Hes Hin.
  destruct (@rowEntries_code_points _ _ _ _ _ _ _ Hes Hin) as (cps & Hcps & Hkey).
  unfold Builder.stored in Hcps. destruct withCodePoints; eauto.
Qed.

Lemma stored_code_points_of_waving_hand :
  exists cps, code_points wavingHandMedium = Some cps
              /\ fromCodePoint cps = Returned (utf16 0x1F44B ++ utf16 0x1F3FD).
Proof.
  apply (@stored_code_points_spell_the_key
           Part000.singleKeywords Part000.dualKeywords true
           [grinningFace; handshake; wavingHand] mockEmojiData).
  - reflexivity.
  - vm_compute. reflexivity.
Defined.

(* ================================================================== *)
(** * generateGroupData: every mapping *)
(* ================================================================== *)

Module GroupLoop.
Import GroupFacts.

Lemma inherited_not_proto k :
  JsObject.inherited k = false -> str_eqb k JsObject.proto = false.
Proof.
  intros H. apply str_eqb_neq. intros ->. discriminate.
Qed.

(** One turn of the loop for a category that [Object.prototype] does not
    answer for, array-index names included. *)
Lemma groupStep_own pre e :
  JsObject.inherited (category e) = false ->
  groupStep (groupsOf pre) e = Returned (groupsOf (pre ++ [e])).
Proof.
  intros Hinh. destruct e as [emoji data].
  pose proof (inherited_not_proto _ Hinh) as Hproto.
  unfold category in *. simpl in Hinh, Hproto.
  set (g := group data) in *.
  set (names := firstOccurrences (map category pre)).
  assert (Hnames : firstOccurrences (map category (pre ++ [(emoji, data)]))
                   = if existsb (str_eqb g) names then names else names ++ [g]).
  { rewrite map_app. simpl. rewrite firstOccurrences_snoc. fold names.
    change (category (emoji, data)) with g.
    change (map (fun entry : jsstring * EmojiRecord => group (snd entry)) pre)
      with (map category pre).
    destruct (existsb (str_eqb g) (map category pre)) eqn:E1;
      destruct (existsb (str_eqb g) names) eqn:E2; try reflexivity; exfalso.
    - apply existsb_In in E1. apply existsb_not_In in E2. apply E2.
      unfold names. now apply (proj2 (firstOccurrences_In _ _)).
    - apply existsb_not_In in E1. apply existsb_In in E2. apply E1.
      unfold names in E2. now apply (proj1 (firstOccurrences_In _ _)) in E2. }
  unfold groupStep. cbv zeta. fold g.
  set (groups1 := match JsObject.get (groupsOf pre) g with
                  | JsObject.Undefined => _
                  | _ => _
                  end).
  assert (Hg1 : groups1
                = if existsb (str_eqb g) names then groupsOf pre
                  else JsObject.defineOwn (groupsOf pre) g (newGroup data)).
  { unfold groups1, JsObject.get, groupsOf at 1. fold names.
    rewrite getOwn_table, Hinh.
    destruct (existsb (str_eqb g) names); [reflexivity|].
    unfold JsObject.set. now rewrite Hproto. }
  clearbody groups1. subst groups1.
  unfold groupsOf. rewrite Hnames. fold names.
  destruct (existsb (str_eqb g) names) eqn:Hex.
  - assert (Hin : In g names) by now apply existsb_In.
    destruct (isVariant data) eqn:Hv.
    + f_equal. apply map_ext. intros n. unfold groupOf. f_equal.
      rewrite membersOf_snoc. unfold nonVariant. simpl. rewrite Hv. simpl.
      now rewrite app_nil_r.
    + unfold JsObject.get. rewrite getOwn_table, Hex.
      rewrite defineOwn_table_present;
        [|apply firstOccurrences_NoDup|assumption].
      f_equal. apply map_ext. intros n. f_equal.
      unfold groupOf, push. simpl. rewrite !membersOf_snoc.
      unfold nonVariant, category. simpl. rewrite Hv. fold g. simpl.
      rewrite (str_eqb_sym n g).
      destruct (str_eqb g n) eqn:E; [|now rewrite app_nil_r].
      apply str_eqb_eq in E. now subst n.
  - apply existsb_not_In in Hex.
    assert (Hfresh : ~ In g (map category pre)).
    { intros H. apply Hex. unfold names.
      now apply (proj2 (firstOccurrences_In _ _)). }
    destruct (isVariant data) eqn:Hv.
    + rewrite defineOwn_table_absent by assumption.
      rewrite map_app. simpl. f_equal. f_equal.
      * apply map_ext. intros n. unfold groupOf. f_equal.
        rewrite membersOf_snoc. unfold nonVariant. simpl. rewrite Hv. simpl.
        now rewrite app_nil_r.
      * unfold groupOf, newGroup. fold g. do 3 f_equal.
        rewrite membersOf_snoc, membersOf_absent by assumption.
        unfold nonVariant. simpl. rewrite Hv. reflexivity.
    + unfold JsObject.get. rewrite JsObjectFacts.getOwn_defineOwn, str_eqb_refl.
      rewrite defineOwn_twice, defineOwn_table_absent by assumption.
      rewrite map_app. simpl. f_equal. f_equal.
      * apply map_ext_in. intros n Hn. unfold groupOf. f_equal.
        rewrite membersOf_snoc. unfold nonVariant, category. simpl. fold g.
        str_cases g n; [subst; contradiction|].
        rewrite andb_false_r. now rewrite app_nil_r.
      * unfold groupOf, push, newGroup. simpl. fold g. do 3 f_equal.
        rewrite membersOf_snoc, membersOf_absent by assumption.
        unfold nonVariant, category. simpl. rewrite Hv. fold g.
        now rewrite str_eqb_refl.
Qed.

(** One turn of the loop for a category that [Object.prototype] answers
    for: no group is made, and a record that is no variant stops the
    loop. *)
Lemma groupStep_inherited pre e :
  forallb (fun x => negb (JsObject.inherited (category x))) pre = true ->
  JsObject.inherited (category e) = true ->
  groupStep (groupsOf pre) e
  = if nonVariant e then Thrown TypeError else Returned (groupsOf pre).
Proof.
  intros Hpre Hinh. destruct e as [emoji data].
  unfold category in Hinh. simpl in Hinh.
  assert (Hget : JsObject.get (groupsOf pre) (group data) = JsObject.Inherited).
  { unfold JsObject.get, groupsOf. rewrite getOwn_table.
    destruct (existsb (str_eqb (group data))
                      (firstOccurrences (map category pre))) eqn:Hex.
    - exfalso. apply existsb_In, firstOccurrences_In, in_map_iff in Hex
        as (x & Hx & Hin).
      rewrite forallb_forall in Hpre. specialize (Hpre x Hin).
      rewrite Hx, Hinh in Hpre. discriminate.
    - now rewrite Hinh. }
  unfold groupStep, nonVariant. simpl. rewrite Hget.
  destruct (isVariant data); simpl; [reflexivity|].
  now rewrite Hget.
Qed.

Lemma kept_all l :
  forallb (fun x => negb (JsObject.inherited (category x))) (kept l) = true.
Proof.
  apply forallb_forall. intros x Hx. unfold kept in Hx.
  now apply filter_In in Hx as [_ Hx].
Qed.

Lemma groupLoop_kept rest pre :
  forallb (fun x => negb (JsObject.inherited (category x))) pre = true ->
  groupLoop rest (groupsOf pre)
  = if existsb blocked rest then Thrown TypeError
    else Returned (groupsOf (pre ++ kept rest)).
Proof.
  revert pre. induction rest as [|e rest IH]; simpl; intros pre Hpre.
  - now rewrite app_nil_r.
  - destruct (JsObject.inherited (category e)) eqn:Hinh; simpl.
    + rewrite groupStep_inherited by assumption. unfold blocked at 1.
      rewrite Hinh, andb_true_r.
      destruct (nonVariant e); simpl; [reflexivity|]. now apply IH.
    + rewrite groupStep_own by assumption. simpl.
      unfold blocked at 1. rewrite Hinh, andb_false_r. simpl.
      rewrite IH.
      * now rewrite <- app_assoc.
      * rewrite forallb_app, Hpre. simpl. now rewrite Hinh.
Qed.

Lemma generateGroupData_closed emojiData :
  generateGroupData emojiData
  = if existsb blocked (JsObject.entries emojiData) then Thrown TypeError
    else Returned (JsObject.values (groupsOf (kept (JsObject.entries emojiData)))).
Proof.
  unfold generateGroupData.
  change (@JsObject.empty Group.t) with (groupsOf []).
  rewrite groupLoop_kept by reflexivity.
  destruct (existsb blocked (JsObject.entries emojiData)); reflexivity.
Qed.

End GroupLoop.

(** ** The order of an enumeration *)

Module OrderFacts.
Import JsObject.
Section Facts.
Variable V : Type.
Implicit Types o : t V.

Local Abbreviation byIndex :=
  (fun x y : N * (jsstring * V) => (fst x <= fst y)%N).

Lemma insertIndexed_In (x y : N * (jsstring * V)) l :
  In y (insertIndexed x l) -> y = x \/ In y l.
Proof.
  induction l as [|z l IH]; simpl.
  - intros [<-|[]]. now left.
  - destruct (fst x <=? fst z)%N; simpl.
    + intros [<-|H]; [now left|now right].
    + intros [<-|H]; [right; now left|].
      destruct (IH H) as [->|Hin]; [now left|right; now right].
Qed.

Lemma insertIndexed_sorted (x : N * (jsstring * V)) l :
  StronglySorted byIndex l -> StronglySorted byIndex (insertIndexed x l).
Proof.
  induction l as [|y l IH]; simpl; intros Hs.
  - repeat constructor.
  - inversion Hs as [|? ? Hl Hy]; subst.
    destruct (fst x <=? fst y)%N eqn:E.
    + apply N.leb_le in E. constructor; [assumption|].
      constructor; [assumption|].
      rewrite Forall_forall in *. intros z Hz. specialize (Hy z Hz).
      simpl in *. lia.
    + apply N.leb_gt in E. constructor; [now apply IH|].
      rewrite Forall_forall in *. intros z Hz.
      destruct (insertIndexed_In _ _ _ Hz) as [->|Hin]; [simpl; lia|].
      now apply Hy.
Qed.

Lemma sorted_sorted (l : list (N * (jsstring * V))) :
  StronglySorted byIndex (fold_right (@insertIndexed V) [] l).
Proof.
  induction l as [|x l IH]; simpl; [constructor|].
  now apply insertIndexed_sorted.
Qed.

Lemma indexed_index o :
  Forall (fun x => arrayIndex (fst (snd x)) = Some (fst x)) (indexed o).
Proof.
  unfold indexed. induction o as [|e o IH]; simpl; [constructor|].
  destruct (arrayIndex (fst e)) eqn:E; simpl; [|assumption].
  constructor; assumption.
Qed.

Lemma sorted_index (l : list (N * (jsstring * V))) :
  StronglySorted byIndex l ->
  Forall (fun x => arrayIndex (fst (snd x)) = Some (fst x)) l ->
  StronglySorted indexOrder (map (fun x => fst (snd x)) l).
Proof.
  induction 1 as [|x l Hs IH Hx]; simpl; intros Hf; [constructor|].
  inversion Hf as [|? ? Hx' Hl]; subst.
  constructor; [now apply IH|].
  rewrite Forall_forall in *. intros n Hn.
  apply in_map_iff in Hn as (y & <- & Hy).
  unfold indexOrder. rewrite Hx', (Hl y Hy). now apply Hx.
Qed.

(** [Object.keys]: the array indices in ascending order, then the other
    keys in the order of their creation. *)
Lemma keys_order o :
  exists indices,
    keys o = indices ++ filter isNamed (map fst o)
    /\ StronglySorted indexOrder indices.
Proof.
  exists (map (fun x => fst (snd x)) (fold_right (@insertIndexed V) [] (indexed o))).
  split.
  - unfold keys, entries. rewrite map_app, map_map. f_equal.
    induction o as [|e o IH]; simpl; [reflexivity|].
    destruct (isNamed (fst e)); simpl; now rewrite IH.
  - apply sorted_index; [apply sorted_sorted|].
    apply (Permutation_Forall (EnumFacts.sorted_perm (indexed o))), indexed_index.
Qed.

End Facts.
End OrderFacts.

Lemma membersOf_kept n entries :
  JsObject.inherited n = false -> membersOf n (kept entries) = membersOf n entries.
Proof.
  intros Hn. unfold membersOf, kept. f_equal.
  induction entries as [|e entries IH]; simpl; [reflexivity|].
  destruct (JsObject.inherited (category e)) eqn:Hinh; simpl.
  - str_cases (category e) n; [congruence|]. now rewrite andb_false_r.
  - now rewrite IH.
Qed.

Lemma nonVariant_kept entries :
  existsb blocked entries = false ->
  filter nonVariant (kept entries) = filter nonVariant entries.
Proof.
  unfold kept, blocked.
  induction entries as [|e entries IH]; simpl; intros H; [reflexivity|].
  apply orb_false_iff in H as [He Hrest].
  destruct (JsObject.inherited (category e)); simpl.
  - rewrite andb_true_r in He. rewrite He. now apply IH.
  - now rewrite IH.
Qed.

Lemma values_groupsOf_perm entries :
  Permutation (JsObject.values (groupsOf entries))
              (map (groupOf entries) (firstOccurrences (map category entries))).
Proof.
  unfold JsObject.values.
  rewrite (Permutation_map snd (EnumFacts.entries_perm (groupsOf entries))).
  unfold groupsOf. rewrite map_map. reflexivity.
Qed.

Lemma names_groupsOf entries :
  map Group.name (JsObject.values (groupsOf entries))
  = JsObject.keys (groupsOf entries).
Proof.
  unfold JsObject.values, JsObject.keys. rewrite map_map.
  apply map_ext_in. intros [n g] Hin.
  apply (proj1 (EnumFacts.entries_In _ _)) in Hin. unfold groupsOf in Hin.
  apply in_map_iff in Hin as (n' & [= <- <-] & _). reflexivity.
Qed.

Lemma memberships_perm (l l' : list Group.t) :
  Permutation l l' -> Permutation (memberships l) (memberships l').
Proof.
  intros H. unfold memberships.
  induction H; simpl.
  - constructor.
  - now apply Permutation_app_head.
  - rewrite !app_assoc. apply Permutation_app_tail, Permutation_app_comm.
  - etransitivity; eassumption.
Qed.

(** X7.  [generateGroupData] throws a TypeError exactly when the mapping
    has a record that is no variant and whose category is the name of a
    member of [Object.prototype]; on every other mapping it returns. *)
Theorem generateGroupData_fails_on_inherited_names
    (emojiData : JsObject.t EmojiRecord) :
  if existsb blocked (JsObject.entries emojiData)
  then generateGroupData emojiData = Thrown TypeError
  else exists groups, generateGroupData emojiData = Returned groups.
Proof.
  rewrite GroupLoop.generateGroupData_closed.
  destruct (existsb blocked (JsObject.entries emojiData)); eauto.
Qed.

(** X8.  Whenever [generateGroupData] returns, whatever the category
    names: no two groups have the same name; there is a group for exactly
    the categories of the mapping that are no names of members of
    [Object.prototype], also for a category of variants only; the members
    of a group are the non-variant records of its category, in the order of
    the mapping; and the (group, member) pairs are, counting repetitions,
    the non-variant records of the mapping. *)
Theorem groups_whenever_returned
    (emojiData : JsObject.t EmojiRecord) (groups : list Group.t) :
  generateGroupData emojiData = Returned groups ->
  NoDup (map Group.name groups)
  /\ (forall n, In n (map Group.name groups)
                <-> JsObject.inherited n = false
                    /\ In n (map category (JsObject.entries emojiData)))
  /\ (forall g, In g groups ->
                Group.emojis g
                = membersOf (Group.name g) (JsObject.entries emojiData))
  /\ Permutation
       (memberships groups)
       (map (fun e => (category e, toMember (fst e) (snd e)))
            (filter nonVariant (JsObject.entries emojiData))).
Proof.
  rewrite GroupLoop.generateGroupData_closed.
  set (entries := JsObject.entries emojiData).
  destruct (existsb blocked entries) eqn:Hblocked; [discriminate|].
  intros [= <-].
  set (names := firstOccurrences (map category (kept entries))).
  pose proof (values_groupsOf_perm (kept entries)) as Hperm. fold names in Hperm.
  assert (Hnames : forall n, In n names
                             <-> JsObject.inherited n = false
                                 /\ In n (map category entries)).
  { intros n. unfold names. rewrite GroupFacts.firstOccurrences_In.
    rewrite !in_map_iff. unfold kept. split.
    - intros (e & <- & He). apply filter_In in He as [He Hinh].
      apply negb_true_iff in Hinh. split; [assumption|]. now exists e.
    - intros (Hinh & e & <- & He). exists e. split; [reflexivity|].
      apply filter_In. split; [assumption|]. now rewrite Hinh. }
  assert (Hgroups : Permutation
                      (map Group.name (JsObject.values (groupsOf (kept entries))))
                      names).
  { rewrite (Permutation_map Group.name Hperm), map_map. simpl.
    now rewrite map_id. }
  split.
  { apply (Permutation_NoDup (Permutation_sym Hgroups)).
    apply GroupFacts.firstOccurrences_NoDup. }
  split.
  { intros n. rewrite <- Hnames. split; apply Permutation_in;
      [assumption|now apply Permutation_sym]. }
  split.
  { intros g Hg. apply (Permutation_in _ Hperm) in Hg.
    apply in_map_iff in Hg as (n & <- & Hn). simpl.
    apply membersOf_kept. now apply Hnames in Hn as [Hn _]. }
  rewrite (memberships_perm Hperm), memberships_groupOf.
  rewrite buckets_perm by apply GroupFacts.firstOccurrences_NoDup.
  rewrite nonVariant_kept by assumption.
  rewrite filter_all; [reflexivity|].
  intros p Hp. apply in_map_iff in Hp as (e & <- & He). simpl.
  apply GroupFacts.existsb_In. apply Hnames.
  apply filter_In in He as [He Hnv].
  split; [|now apply in_map].
  destruct (JsObject.inherited (category e)) eqn:Hinh; [|reflexivity].
  exfalso. assert (Hex : existsb blocked entries = true).
  { apply existsb_exists. exists e. split; [assumption|].
    unfold blocked. now rewrite Hnv, Hinh. }
  congruence.
Qed.

(** The mapping in which "People & Body" and "toString" have variants
    only: the former gets an empty group, the latter none. *)
Lemma groups_of_variant_only_category :
  NoDup (map Group.name [groupOf variantOnlyCategory (lit "Smileys & Emotion");
                         groupOf variantOnlyCategory (lit "People & Body")])
  /\ (forall n,
         In n (map Group.name
                   [groupOf variantOnlyCategory (lit "Smileys & Emotion");
                    groupOf variantOnlyCategory (lit "People & Body")])
         <-> JsObject.inherited n = false
             /\ In n (map category (JsObject.entries variantOnlyCategory)))
  /\ (forall g,
         In g [groupOf variantOnlyCategory (lit "Smileys & Emotion");
               groupOf variantOnlyCategory (lit "People & Body")] ->
         Group.emojis g
         = membersOf (Group.name g) (JsObject.entries variantOnlyCategory))
  /\ Permutation
       (memberships [groupOf variantOnlyCategory (lit "Smileys & Emotion");
                     groupOf variantOnlyCategory (lit "People & Body")])
       (map (fun e => (category e, toMember (fst e) (snd e)))
            (filter nonVariant (JsObject.entries variantOnlyCategory))).
Proof.
  apply (@groups_whenever_returned variantOnlyCategory).
  vm_compute. reflexivity.
Defined.

(** X9.  Whenever [generateGroupData] returns, the groups whose names are
    array indices come first, by ascending index, and the other groups
    follow in the order in which their categories first occur in the
    mapping. *)
Theorem groups_order
    (emojiData : JsObject.t EmojiRecord) (groups : list Group.t) :
  generateGroupData emojiData = Returned groups ->
  exists indices,
    map Group.name groups
    = indices
        ++ filter JsObject.isNamed
             (firstOccurrences (map category (kept (JsObject.entries emojiData))))
    /\ StronglySorted indexOrder indices.
Proof.
  rewrite GroupLoop.generateGroupData_closed.
  destruct (existsb blocked (JsObject.entries emojiData)); [discriminate|].
  intros [= <-]. rewrite names_groupsOf.
  destruct (OrderFacts.keys_order (groupsOf (kept (JsObject.entries emojiData))))
    as (indices & Hkeys & Hsorted).
  exists indices. split; [|assumption].
  rewrite Hkeys. f_equal. f_equal. unfold groupsOf. rewrite map_map. simpl.
  apply map_id.
Qed.

Lemma groups_order_numbered :
  exists indices,
    map Group.name [groupOf numberedCategory (lit "2024");
                    groupOf numberedCategory (lit "Smileys & Emotion")]
    = indices
        ++ filter JsObject.isNamed
             (firstOccurrences
                (map category (kept (JsObject.entries numberedCategory))))
    /\ StronglySorted indexOrder indices.
Proof.
  apply (@groups_order numberedCategory). vm_compute. reflexivity.
Defined.

(* ================================================================== *)
(** * From the rows to the groups *)
(* ================================================================== *)

Section Pipeline.
Variable singleKeywords dualKeywords : list jsstring.
Variable withCodePoints : bool.

Local Abbreviation rowEntries :=
  (Builder.rowEntries singleKeywords dualKeywords withCodePoints).
Local Abbreviation parseRows :=
  (Builder.parseRows singleKeywords dualKeywords withCodePoints).

Lemma defineOwn_member (o : JsObject.t EmojiRecord) k v e :
  In e (JsObject.defineOwn o k v) -> e = (k, v) \/ In e o.
Proof.
  induction o as [|[k0 v0] o IH]; simpl.
  - intros [<-|[]]. now left.
  - str_cases k0 k; simpl.
    + intros [<-|H]; [left; now subst|right; now right].
    + intros [<-|H]; [right; now left|].
      destruct (IH H) as [->|Hin]; [now left|right; now right].
Qed.

Lemma assigned_member (es : list (jsstring * EmojiRecord)) emojiData e :
  In e (fold_left Builder.assign es emojiData) -> In e es \/ In e emojiData.
Proof.
  revert emojiData. induction es as [|[k r] es IH]; simpl; intros o H.
  - now right.
  - destruct (IH _ H) as [Hin|Ho]; [left; now right|].
    unfold Builder.assign, JsObject.set in Ho. simpl in Ho.
    destruct (str_eqb k JsObject.proto); [now right|].
    destruct (defineOwn_member _ _ _ _ Ho) as [->|Hin];
      [left; now left|now right].
Qed.

(** A property of the assignments of every row is a property of every
    property of the object. *)
Lemma parseRows_members (Q : jsstring * EmojiRecord -> Prop)
      rows emojiData emojiData' :
  parseRows rows emojiData = Returned emojiData' ->
  (forall e, In e emojiData -> Q e) ->
  (forall row es e, In row rows -> rowEntries row = Returned es ->
                    In e es -> Q e) ->
  forall e, In e emojiData' -> Q e.
Proof.
  revert emojiData. induction rows as [|row rows IH]; simpl;
    intros o Hparse Ho Hrows.
  - injection Hparse as <-. exact Ho.
  - unfold Builder.processRow in Hparse.
    destruct (rowEntries row) as [es|err] eqn:Hes; simpl in Hparse;
      [|discriminate].
    apply (IH _ Hparse).
    + intros e He. destruct (assigned_member _ _ _ He) as [Hin|Hold].
      * apply (Hrows row es); auto.
      * now apply Ho.
    + intros row' es' e Hin. apply Hrows. now right.
Qed.

(** Every record of a row has the trimmed text of the group cell as its
    category. *)
Lemma rowEntries_category row es e :
  rowEntries row = Returned es ->
  In e es ->
  exists groupText, groupCell row = Some groupText
                    /\ complete row = true
                    /\ category e = trim groupText.
Proof.
  unfold Builder.rowEntries, complete.
  destruct (codeCell row) as [c|]; [|intros [= <-]; intros []].
  destruct (nameCell row) as [n|]; [|intros [= <-]; intros []].
  destruct (groupCell row) as [g|]; [|intros [= <-]; intros []].
  destruct (fromCodePoint (codePointsOf c)) as [emoji|err]; simpl;
    [|discriminate].
  intros [= <-] Hin. exists g. split; [reflexivity|]. split; [reflexivity|].
  destruct Hin as [<-|Hin]; [reflexivity|].
  unfold Builder.variantEntries in Hin.
  destruct (Builder.hasSkinToneSupport singleKeywords (trim n));
    [|destruct Hin].
  apply in_app_iff in Hin as [Hin|Hin].
  - apply in_map_iff in Hin as (m & <- & _). reflexivity.
  - destruct (Builder.hasDualSkinToneSupport dualKeywords (trim n));
      [|destruct Hin].
    apply in_flat_map in Hin as (m1 & _ & Hin).
    apply in_map_iff in Hin as (m2 & <- & _). reflexivity.
Qed.

Lemma groupable_categories rows emojiData :
  parseRows rows JsObject.empty = Returned emojiData ->
  forallb groupable rows = true ->
  forall e, In e emojiData -> JsObject.inherited (category e) = false.
Proof.
  intros Hparse Hrows.
  apply parseRows_members with (rows := rows) (emojiData := JsObject.empty);
    [exact Hparse|intros e []|].
  intros row es e Hin Hes He.
  destruct (rowEntries_category _ _ Hes He) as (g & Hg & Hc & ->).
  rewrite forallb_forall in Hrows. specialize (Hrows row Hin).
  unfold groupable in Hrows. unfold complete in Hc. rewrite Hg in *.
  destruct (codeCell row); [|discriminate].
  destruct (nameCell row); [|discriminate].
  now apply negb_true_iff in Hrows.
Qed.

End Pipeline.

(** X10.  The two steps of [main] in sequence: when [parseEmojiData]
    returns a mapping for rows none of which has, with all its cells, a
    group text that trims to the name of a member of [Object.prototype],
    [generateGroupData] returns on that mapping, and every group bears the
    trimmed group text of a row. *)
Theorem groups_of_parsed_rows
    (singleKeywords dualKeywords : list jsstring) (withCodePoints : bool)
    (rows : list Row) (emojiData : JsObject.t EmojiRecord) :
  Builder.parseEmojiData singleKeywords dualKeywords withCodePoints rows
  = Returned emojiData ->
  forallb groupable rows = true ->
  exists groups,
    generateGroupData emojiData = Returned groups
    /\ forall g, In g groups ->
                 exists row groupText,
                   In row rows /\ complete row = true
                   /\ groupCell row = Some groupText
                   /\ Group.name g = trim groupText.
Proof.
  intros Hparse Hrows.
  pose proof (@groupable_categories _ _ _ _ _ Hparse Hrows) as Hcat.
  rewrite GroupLoop.generateGroupData_closed.
  assert (Hblocked : existsb blocked (JsObject.entries emojiData) = false).
  { destruct (existsb blocked (JsObject.entries emojiData)) eqn:E;
      [|reflexivity].
    apply existsb_exists in E as (e & He & Hb).
    apply (proj1 (EnumFacts.entries_In _ _)) in He.
    unfold blocked in Hb. rewrite (Hcat e He), andb_false_r in Hb.
    discriminate. }
  rewrite Hblocked. eexists. split; [reflexivity|].
  intros g Hg.
  apply (Permutation_in _ (values_groupsOf_perm _)) in Hg.
  apply in_map_iff in Hg as (n & <- & Hn). simpl.
  apply GroupFacts.firstOccurrences_In, in_map_iff in Hn as (e & <- & He).
  unfold kept in He. apply filter_In in He as [He _].
  apply (proj1 (EnumFacts.entries_In _ _)) in He.
  revert e He.
  apply (@parseRows_members singleKeywords dualKeywords withCodePoints
           (fun e => exists row groupText,
                In row rows /\ complete row = true
                /\ groupCell row = Some groupText
                /\ category e = trim groupText)
           rows JsObject.empty emojiData Hparse); [intros e []|].
  intros row es e Hin Hes He.
  destruct (@rowEntries_category _ _ _ _ _ _ Hes He) as (gt & Hg & Hc & Hcat').
  exists row, gt. auto.
Qed.

Lemma groups_of_parsed_rows_mock :
  exists groups,
    generateGroupData mockEmojiData = Returned groups
    /\ forall g, In g groups ->
                 exists row groupText,
                   In row [grinningFace; handshake; wavingHand]
                   /\ complete row = true
                   /\ groupCell row = Some groupText
                   /\ Group.name g = trim groupText.
Proof.
  apply (@groups_of_parsed_rows Part000.singleKeywords Part000.dualKeywords
                                true [grinningFace; handshake; wavingHand]);
    reflexivity.
Defined.

(* ================================================================== *)
(** * parseEmojiCounts of part_000: fields, rows without effect *)
(* ================================================================== *)

Module CountRows.
Import Part000.

Lemma dual_countRow stats cells :
  dual_skin_tone_support (countRow stats cells) = dual_skin_tone_support stats.
Proof.
  unfold countRow.
  destruct (str_eqb (categoryOf cells) (lit "Component")); [reflexivity|].
  destruct (str_eqb (categoryOf cells) (lit "Total")); [reflexivity|].
  destruct (str_eqb (categoryOf cells) (lit "With skin tone variations"));
    [reflexivity|].
  destruct (negb _ && negb _); reflexivity.
Qed.

Lemma dual_scan rows stats :
  dual_skin_tone_support (fold_left countRow rows stats)
  = dual_skin_tone_support stats.
Proof.
  revert stats. induction rows as [|cells rows IH]; simpl; intros stats;
    [reflexivity|].
  now rewrite IH, dual_countRow.
Qed.

Lemma countRow_uncounted stats cells :
  counted cells = false -> countRow stats cells = stats.
Proof.
  unfold counted, special, countRow.
  destruct (str_eqb (categoryOf cells) (lit "Component")); [discriminate|].
  destruct (str_eqb (categoryOf cells) (lit "Total")); [discriminate|].
  destruct (str_eqb (categoryOf cells) (lit "With skin tone variations"));
    [discriminate|].
  simpl.
  destruct (negb (str_eqb (categoryOf cells) (lit "Group"))
            && negb (isNaN (countOf cells))); simpl; [|reflexivity].
  intros H. apply negb_false_iff in H.
  unfold setGroup, JsObject.set. rewrite H. now destruct stats.
Qed.

Lemma scan_counted rows stats :
  fold_left countRow (filter counted rows) stats = fold_left countRow rows stats.
Proof.
  revert stats. induction rows as [|cells rows IH]; simpl; intros stats;
    [reflexivity|].
  destruct (counted cells) eqn:Hc; simpl.
  - apply IH.
  - now rewrite countRow_uncounted.
Qed.

End CountRows.

(** X11.  The fields of the statistics of [part_000]: whatever the rows,
    [dual_skin_tone_support] is 0; [component] is the count of the last row
    labelled "Component", and 0 without such a row; [total_with_variations]
    and [skin_tone_variations] are the counts of the last rows with their
    labels and are absent without such rows.  The first row is never
    read. *)
Theorem counts_fields (header : list jsstring) (rows : list (list jsstring)) :
  exists stats,
    Part000.parseEmojiCounts (header :: rows) = Returned stats
    /\ Part000.dual_skin_tone_support stats = Num 0
    /\ Part000.component stats
       = match lastLabelled (lit "Component") rows with
         | Some n => n
         | None => Num 0
         end
    /\ Part000.total_with_variations stats = lastLabelled (lit "Total") rows
    /\ Part000.skin_tone_variations stats
       = lastLabelled (lit "With skin tone variations") rows.
Proof.
  eexists. split; [reflexivity|].
  cbn [Part000.setResult Part000.dual_skin_tone_support Part000.component
       Part000.total_with_variations Part000.skin_tone_variations tl].
  rewrite CountRows.dual_scan, CountsFacts.component_scan,
          CountsFacts.total_scan, CountsFacts.variations_scan.
  repeat split.
  - now destruct (lastLabelled (lit "Total") rows).
  - now destruct (lastLabelled (lit "With skin tone variations") rows).
Qed.

(** X12.  In [part_000] the rows that bear none of the three special
    labels and have the label "Group", the label "__proto__" or a count
    that is no number (so the rows without [td] cells) have no effect:
    [parseEmojiCounts] returns the same statistics without them. *)
Theorem uncounted_rows_have_no_effect
    (header : list jsstring) (rows : list (list jsstring)) :
  Part000.parseEmojiCounts (header :: filter counted rows)
  = Part000.parseEmojiCounts (header :: rows).
Proof.
  unfold Part000.parseEmojiCounts. cbn [tl].
  now rewrite CountRows.scan_counted.
Qed.

(* ================================================================== *)
(** * parseEmojiCounts of script/generate-emoji-counts.js: the columns *)
(* ================================================================== *)

Section ScriptColumns.
Variable double : Type.
Variable Number : jsstring -> double.
Variable plus minus : double -> double -> double.
Variable ofInt : Z -> double.

Local Abbreviation columns := (Script.columns Number).
Local Abbreviation isGroup :=
  (fun column : jsstring => existsb (str_eqb column) Script.groupNames).

Lemma group_not_proto column :
  isGroup column = true -> str_eqb column JsObject.proto = false.
Proof.
  intros H. apply str_eqb_neq. intros ->. discriminate.
Qed.

Lemma group_not_component column :
  isGroup column = true -> str_eqb column Script.componentKey = false.
Proof.
  intros H. apply str_eqb_neq. intros ->. discriminate.
Qed.

Lemma skipn_nth_error (A : Type) (l : list A) i x :
  nth_error l i = Some x -> skipn i l = x :: skipn (S i) l.
Proof.
  revert l. induction i as [|i IH]; intros [|y l]; simpl; try discriminate.
  - now intros [= ->].
  - intros H. now apply IH.
Qed.

(** The groups after the loop over the cells of the first row. *)
Lemma columns_groups theadCells i totalCells stats stats' column :
  columns theadCells i totalCells stats = Returned stats' ->
  JsObject.getOwn (Script.groups stats') column
  = match lastColumn column theadCells (skipn i totalCells) with
    | Some cell => if isGroup column then Some (Number cell)
                   else JsObject.getOwn (Script.groups stats) column
    | None => JsObject.getOwn (Script.groups stats) column
    end.
Proof.
  revert i stats. induction theadCells as [|head rest IH];
    cbn [Script.columns lastColumn]; intros i stats.
  - now intros [= <-].
  - destruct (nth_error totalCells i) as [text|] eqn:Hnth; [|discriminate].
    intros Hcols. rewrite (skipn_nth_error _ _ Hnth).
    rewrite (IH _ _ Hcols).
    destruct (lastColumn column rest (skipn (S i) totalCells)) as [cell|].
    + destruct (isGroup column) eqn:Hcol; [reflexivity|].
      destruct (isGroup head) eqn:Hhead; cbn [Script.groups Script.component].
      * rewrite JsObjectFacts.getOwn_set, (group_not_proto _ Hhead).
        str_cases head column; [subst; congruence|reflexivity].
      * destruct (str_eqb head Script.componentKey); reflexivity.
    + str_cases head column.
      * subst head.
        destruct (isGroup column) eqn:Hc; cbn [Script.groups Script.component].
        -- rewrite JsObjectFacts.getOwn_set, (group_not_proto _ Hc).
           now rewrite str_eqb_refl.
        -- destruct (str_eqb column Script.componentKey); reflexivity.
      * destruct (isGroup head) eqn:Hhead; cbn [Script.groups Script.component].
        -- rewrite JsObjectFacts.getOwn_set, (group_not_proto _ Hhead).
           apply str_eqb_neq in E. now rewrite E.
        -- destruct (str_eqb head Script.componentKey); reflexivity.
Qed.

Lemma columns_component theadCells i totalCells stats stats' :
  columns theadCells i totalCells stats = Returned stats' ->
  Script.component stats'
  = match lastColumn Script.componentKey theadCells (skipn i totalCells) with
    | Some cell => Number cell
    | None => Script.component stats
    end.
Proof.
  revert i stats. induction theadCells as [|head rest IH];
    cbn [Script.columns lastColumn]; intros i stats.
  - now intros [= <-].
  - destruct (nth_error totalCells i) as [text|] eqn:Hnth; [|discriminate].
    intros Hcols. rewrite (skipn_nth_error _ _ Hnth).
    rewrite (IH _ _ Hcols).
    destruct (lastColumn Script.componentKey rest (skipn (S i) totalCells));
      [reflexivity|].
    destruct (isGroup head) eqn:Hhead; cbn [Script.groups Script.component].
    + now rewrite (group_not_component _ Hhead).
    + destruct (str_eqb head Script.componentKey); reflexivity.
Qed.

Lemma columns_total theadCells i totalCells stats stats' :
  columns theadCells i totalCells stats = Returned stats' ->
  Script.total_without_skin_tone_variations stats'
  = Script.total_without_skin_tone_variations stats.
Proof.
  revert i stats. induction theadCells as [|head rest IH];
    cbn [Script.columns lastColumn]; intros i stats.
  - now intros [= <-].
  - destruct (nth_error totalCells i) as [text|]; [|discriminate].
    intros Hcols. rewrite (IH _ _ Hcols).
    destruct (isGroup head);
      cbn [Script.total_without_skin_tone_variations]; [reflexivity|].
    destruct (str_eqb head Script.componentKey); reflexivity.
Qed.

End ScriptColumns.

(** X13.  Whenever [parseEmojiCounts] of
    [script/generate-emoji-counts.js] returns: [groups] has only the nine
    fixed names as keys, and under each of them [Number] of the cell of the
    last row below the last cell of the first row that bears the name
    (nothing when no cell bears it); [component] is read in the same way
    under "Component", and is 0 without such a column. *)
Theorem counts_by_column
    (double : Type) (Number : jsstring -> double)
    (plus minus : double -> double -> double) (ofInt : Z -> double)
    (theadCells : list jsstring) (rest : list (list jsstring))
    (stats : Script.Stats double) :
  Script.parseEmojiCounts Number plus minus ofInt (theadCells :: rest)
  = Returned stats ->
  (forall column,
      JsObject.getOwn (Script.groups stats) column
      = if existsb (str_eqb column) Script.groupNames
        then option_map Number
               (lastColumn column theadCells (last (theadCells :: rest) []))
        else None)
  /\ Script.component stats
     = match lastColumn Script.componentKey theadCells
                        (last (theadCells :: rest) []) with
       | Some cell => Number cell
       | None => ofInt 0%Z
       end.
Proof.
  unfold Script.parseEmojiCounts.
  set (totalCells := last (theadCells :: rest) []).
  destruct (rev totalCells) as [|lastCell cells]; [discriminate|].
  destruct (Script.columns _ _ _ _ _) as [stats1|e] eqn:Hcols; cbn [bind];
    [|discriminate].
  destruct (Script.markedRows _) as [marked|e]; cbn [bind]; [|discriminate].
  intros [= <-]. cbn [Script.groups Script.component]. split.
  - intros column. rewrite (columns_groups _ _ _ _ _ column Hcols).
    cbn [skipn Script.groups Script.initialStats JsObject.getOwn].
    destruct (lastColumn column theadCells totalCells);
      destruct (existsb (str_eqb column) Script.groupNames); reflexivity.
  - rewrite (columns_component _ _ _ _ _ Hcols). reflexivity.
Qed.

Lemma counts_by_column_example :
  exists stats,
    Script.parseEmojiCounts integerNumber add sub Num countsByColumn
    = Returned stats
    /\ (forall column,
          JsObject.getOwn (Script.groups stats) column
          = if existsb (str_eqb column) Script.groupNames
            then option_map integerNumber
                   (lastColumn column
                      (map lit ["Smileys & Emotion"; "People & Body";
                                "Component"; "Total"]%string)
                      (map lit ["100"; "200"; "10"; "310"]%string))
            else None)
    /\ Script.component stats = Num 10%Z.
Proof.
  destruct (Script.parseEmojiCounts integerNumber add sub Num countsByColumn)
    as [stats|e] eqn:Hparse; [|vm_compute in Hparse; discriminate].
  exists stats. split; [reflexivity|].
  exact (@counts_by_column number integerNumber add sub Num _ _ stats Hparse).
Defined.

(* ================================================================== *)
(** * fetchWithRetry *)
(* ================================================================== *)

Module FetchFacts.
Import Fetch.
Section Facts.
Variable network : History -> jsstring -> Attempt.

Local Abbreviation attempt := (Fetch.attempt network).
Local Abbreviation retry := (Fetch.retry network).
Local Abbreviation fetchWithRetry := (Fetch.fetchWithRetry network).

(** The equation of the function in the words of the script. *)
Lemma fetchWithRetry_unfold url retryCount h :
  fetchWithRetry url retryCount h
  = match attempt url h with
    | inl response => (inl response, h ++ [Request url])
    | inr error =>
        if (retryCount <? maxRetries)%nat
        then fetchWithRetry url (S retryCount)
                            (h ++ [Request url; Pause retryDelay])
        else (inr error, h ++ [Request url])
    end.
Proof.
  unfold Fetch.fetchWithRetry.
  destruct (retryCount <? maxRetries)%nat eqn:E.
  - apply Nat.ltb_lt in E.
    replace (maxRetries - retryCount)%nat
      with (S (maxRetries - S retryCount)) by lia.
    reflexivity.
  - apply Nat.ltb_ge in E.
    replace (maxRetries - retryCount)%nat with 0%nat by lia.
    reflexivity.
Qed.

Lemma rounds_S url n :
  rounds url (S n) = [Request url; Pause retryDelay] ++ rounds url n.
Proof. reflexivity. Qed.

Lemma requests_app h1 h2 : requests (h1 ++ h2) = (requests h1 + requests h2)%nat.
Proof. unfold requests. now rewrite filter_app, length_app. Qed.

Lemma requests_rounds url n : requests (rounds url n) = n.
Proof.
  induction n as [|n IH]; [reflexivity|].
  rewrite rounds_S, requests_app, IH. reflexivity.
Qed.

(** The calls of one run: [n] failed requests with their pauses, and a
    last request whose outcome is the result; a failure comes out only
    when no retry is left. *)
Lemma retry_spec retriesLeft url h :
  exists n,
    (n <= retriesLeft)%nat
    /\ snd (retry retriesLeft url h) = h ++ rounds url n ++ [Request url]
    /\ (forall j, (j < n)%nat ->
                  exists error, attempt url (h ++ rounds url j) = inr error)
    /\ attempt url (h ++ rounds url n) = fst (retry retriesLeft url h)
    /\ (forall error, fst (retry retriesLeft url h) = inr error ->
                      n = retriesLeft).
Proof.
  revert h. induction retriesLeft as [|k IH]; intros h; simpl.
  - exists 0%nat. simpl. rewrite app_nil_r.
    split; [lia|].
    destruct (attempt url h) as [response|error] eqn:Ha; simpl.
    + split; [reflexivity|]. split; [intros j Hj; lia|].
      split; [reflexivity|]. reflexivity.
    + split; [reflexivity|]. split; [intros j Hj; lia|].
      split; [reflexivity|]. reflexivity.
  - destruct (attempt url h) as [response|error] eqn:Ha.
    + exists 0%nat. simpl. rewrite app_nil_r.
      split; [lia|]. split; [reflexivity|]. split; [intros j Hj; lia|].
      split; [assumption|]. discriminate.
    + destruct (IH (h ++ [Request url; Pause retryDelay]))
        as (n & Hn & Hh & Hfail & Hlast & Hend).
      exists (S n). rewrite rounds_S.
      split; [lia|].
      split; [rewrite Hh; now rewrite <- !app_assoc|].
      split.
      { intros [|j] Hj.
        - exists error. simpl. now rewrite app_nil_r.
        - rewrite rounds_S, app_assoc. apply Hfail. lia. }
      split; [now rewrite app_assoc|].
      intros e He. f_equal. now apply Hend with e.
Qed.

End Facts.
End FetchFacts.

(** X14.  The requests of [fetchWithRetry]: whatever the network does, a
    call with [retryCount] makes at most [maxRetries - retryCount + 1]
    requests, so at most four, all of the same address; between two
    requests it pauses once, for 2000 milliseconds, and it does not pause
    after the last one.  A call with [retryCount] at or above [maxRetries]
    makes one request. *)
Theorem fetchWithRetry_schedule
    (network : Fetch.History -> jsstring -> Fetch.Attempt)
    (url : jsstring) (retryCount : nat) (h : Fetch.History) :
  exists n,
    (n <= Fetch.maxRetries - retryCount)%nat
    /\ (n <= 3)%nat
    /\ snd (Fetch.fetchWithRetry network url retryCount h)
       = h ++ Fetch.rounds url n ++ [Fetch.Request url]
    /\ Fetch.requests (snd (Fetch.fetchWithRetry network url retryCount h))
       = (Fetch.requests h + n + 1)%nat.
Proof.
  destruct (FetchFacts.retry_spec network (Fetch.maxRetries - retryCount) url h)
    as (n & Hn & Hh & _).
  exists n. split; [assumption|].
  split; [unfold Fetch.maxRetries in Hn; lia|].
  unfold Fetch.fetchWithRetry. rewrite Hh. split; [reflexivity|].
  rewrite !FetchFacts.requests_app, FetchFacts.requests_rounds.
  change (Fetch.requests [Fetch.Request url]) with 1%nat. lia.
Qed.

(** X15.  The result of [fetchWithRetry]: a response that it returns is
    the first response of the run with [ok] true, every request before
    having failed (by a rejection, the time limit, or a response that is
    not ok); an error that it throws is the failure of the last request,
    after [maxRetries - retryCount + 1] requests that all failed. *)
Theorem fetchWithRetry_result
    (network : Fetch.History -> jsstring -> Fetch.Attempt)
    (url : jsstring) (retryCount : nat) (h : Fetch.History) :
  exists n,
    (forall j, (j < n)%nat ->
               exists error,
                 Fetch.attempt network url (h ++ Fetch.rounds url j) = inr error)
    /\ match fst (Fetch.fetchWithRetry network url retryCount h) with
       | inl response =>
           network (h ++ Fetch.rounds url n) url = Fetch.Responds response
           /\ Fetch.ok response = true
       | inr error =>
           n = (Fetch.maxRetries - retryCount)%nat
           /\ Fetch.attempt network url (h ++ Fetch.rounds url n) = inr error
       end.
Proof.
  destruct (FetchFacts.retry_spec network (Fetch.maxRetries - retryCount) url h)
    as (n & _ & _ & Hfail & Hlast & Hend).
  exists n. split; [assumption|].
  unfold Fetch.fetchWithRetry.
  destruct (fst (Fetch.retry network (Fetch.maxRetries - retryCount) url h))
    as [response|error] eqn:Hres.
  - unfold Fetch.attempt in Hlast.
    destruct (network (h ++ Fetch.rounds url n) url) as [r| |m];
      try discriminate.
    destruct (Fetch.ok r) eqn:Hok; [|discriminate].
    injection Hlast as ->. now split.
  - split; [now apply Hend with error|assumption].
Qed.

(* ================================================================== *)
(** * getLatestEmojiVersion, checkForUpdates *)
(* ================================================================== *)

Module UpdateFacts.
Import Updates.

Lemma startsWith_prefix (s p : jsstring) :
  startsWith s p = true -> s = p ++ skipn (List.length p) s.
Proof.
  revert s. induction p as [|x p IH]; intros s; simpl; [reflexivity|].
  destruct s as [|y s]; [discriminate|].
  intros H. apply andb_true_iff in H as [Hxy Hrest].
  apply N.eqb_eq in Hxy. subst y. f_equal. now apply IH.
Qed.

Lemma startsWith_includes (s p : jsstring) :
  startsWith s p = true -> includes s p = true.
Proof.
  intros H. destruct s; simpl in *; rewrite H; reflexivity.
Qed.

Lemma digits_spec (s : jsstring) :
  s = fst (digits s) ++ snd (digits s)
  /\ forallb JsObject.isDigit (fst (digits s)) = true.
Proof.
  induction s as [|c s [IHs IHd]]; simpl; [now split|].
  destruct (JsObject.isDigit c) eqn:Hc; [|now split].
  destruct (digits s) as [run rest]. simpl in *. rewrite Hc, IHd.
  split; [now f_equal|reflexivity].
Qed.

(** What a match at the start of [s] captures. *)
Lemma versionAt_sound (s v : jsstring) :
  versionAt s = Some v ->
  exists major minor rest,
    s = lit "Emoji " ++ v ++ rest
    /\ v = major ++ dot :: minor
    /\ major <> [] /\ minor <> []
    /\ forallb JsObject.isDigit major = true
    /\ forallb JsObject.isDigit minor = true.
Proof.
  unfold versionAt.
  destruct (startsWith s (lit "Emoji ")) eqn:Hstart; [|discriminate].
  apply startsWith_prefix in Hstart.
  change (List.length (lit "Emoji ")) with 6%nat in Hstart.
  destruct (digits_spec (skipn 6 s)) as [Hsplit Hmajor].
  destruct (digits (skipn 6 s)) as [major afterMajor]. simpl in *.
  destruct major as [|m major]; [discriminate|].
  destruct afterMajor as [|c afterDot]; [discriminate|].
  destruct (N.eqb c dot) eqn:Hdot; [|discriminate].
  apply N.eqb_eq in Hdot. subst c.
  destruct (digits_spec afterDot) as [Hsplit' Hminor].
  destruct (digits afterDot) as [minor rest]. simpl in *.
  destruct minor as [|n minor]; [discriminate|].
  intros [= <-]. exists (m :: major), (n :: minor), rest.
  split.
  { rewrite Hstart at 1. f_equal. rewrite Hsplit, Hsplit'.
    simpl. now rewrite <- app_assoc. }
  repeat split; try assumption; discriminate.
Qed.

Lemma versionMatch_sound (versionText v : jsstring) :
  versionMatch versionText = Some v ->
  exists before s, versionText = before ++ s /\ versionAt s = Some v.
Proof.
  induction versionText as [|c t IH]; simpl.
  - discriminate.
  - destruct (versionAt (c :: t)) eqn:E.
    + intros [= <-]. now exists [], (c :: t).
    + intros H. destruct (IH H) as (before & s & -> & Hs).
      now exists (c :: before), s.
Qed.

Lemma versionAt_includes (s : jsstring) :
  includes s (lit "Emoji ") = false -> versionAt s = None.
Proof.
  intros H. unfold versionAt.
  destruct (startsWith s (lit "Emoji ")) eqn:E; [|reflexivity].
  apply startsWith_includes in E. congruence.
Qed.

Lemma versionMatch_includes (versionText : jsstring) :
  includes versionText (lit "Emoji ") = false -> versionMatch versionText = None.
Proof.
  induction versionText as [|c t IH]; intros H.
  - reflexivity.
  - cbn [versionMatch]. rewrite (versionAt_includes _ H).
    apply IH. cbn [includes] in H. now apply orb_false_iff in H as [_ H].
Qed.

Lemma versionMatch_nonempty (versionText v : jsstring) :
  versionMatch versionText = Some v -> currentVersionOf (Some v) = v.
Proof.
  intros H. destruct (versionMatch_sound _ H) as (before & s & _ & Hs).
  destruct (versionAt_sound _ Hs) as (major & minor & rest & _ & -> & Hm & _).
  destruct major; [congruence|reflexivity].
Qed.

Section Page.
Variable network : Fetch.History -> jsstring -> Fetch.Attempt.
Variable firstHeading : jsstring -> jsstring.

Local Abbreviation getLatestEmojiVersion :=
  (Updates.getLatestEmojiVersion network firstHeading).

(** A version that [getLatestEmojiVersion] returns was matched in the
    heading of a fetched response. *)
Lemma getLatestEmojiVersion_matched h v :
  fst (getLatestEmojiVersion h) = inl v ->
  exists response,
    fst (Fetch.fetchWithRetry network EMOJI_VERSION_URL 0 h) = inl response
    /\ versionMatch (firstHeading (Fetch.text response)) = Some v.
Proof.
  unfold Updates.getLatestEmojiVersion.
  destruct (Fetch.fetchWithRetry network EMOJI_VERSION_URL 0 h)
    as [[response|error] h']; simpl; [|discriminate].
  destruct (versionMatch (firstHeading (Fetch.text response))) as [version|]
    eqn:Hmatch; simpl; [|discriminate].
  intros [= <-]. now exists response.
Qed.

Lemma getLatestEmojiVersion_history h :
  snd (getLatestEmojiVersion h)
  = snd (Fetch.fetchWithRetry network EMOJI_VERSION_URL 0 h).
Proof.
  unfold Updates.getLatestEmojiVersion.
  destruct (Fetch.fetchWithRetry network EMOJI_VERSION_URL 0 h)
    as [[response|error] h']; simpl; [|reflexivity].
  destruct (versionMatch (firstHeading (Fetch.text response))); reflexivity.
Qed.

(** Within the interval nothing is looked up. *)
Lemma checkForUpdates_recent last_update emoji_version now h :
  (now - last_update <= 86400000)%Z ->
  Updates.checkForUpdates network firstHeading
                          (Stats (Some last_update) emoji_version) now h
  = (false, h).
Proof.
  intros Hnow. unfold Updates.checkForUpdates, lastUpdateOf.
  assert (Hlast : (if (last_update =? 0)%Z then 0%Z else last_update)
                  = last_update).
  { destruct (last_update =? 0)%Z eqn:E; [|reflexivity].
    apply Z.eqb_eq in E. now subst. }
  rewrite Hlast.
  assert (Hint : (now - last_update >? versionCheckInterval)%Z = false).
  { unfold versionCheckInterval. rewrite Z.gtb_ltb. apply Z.ltb_ge. lia. }
  now rewrite Hint.
Qed.

End Page.
End UpdateFacts.

(** X16.  A version that [getLatestEmojiVersion] returns is a run of
    digits, a dot and a run of digits, both runs non-empty, and it stands
    after "Emoji " in the first heading of the page that [fetchWithRetry]
    returned; for a heading without "Emoji " the function throws, also
    when the page was fetched. *)
Theorem latest_version_shape
    (network : Fetch.History -> jsstring -> Fetch.Attempt)
    (firstHeading : jsstring -> jsstring) (h : Fetch.History) :
  (forall v,
      fst (Updates.getLatestEmojiVersion network firstHeading h) = inl v ->
      exists response before rest major minor,
        fst (Fetch.fetchWithRetry network Updates.EMOJI_VERSION_URL 0 h)
        = inl response
        /\ firstHeading (Fetch.text response)
           = before ++ lit "Emoji " ++ v ++ rest
        /\ v = major ++ Updates.dot :: minor
        /\ major <> [] /\ minor <> []
        /\ forallb JsObject.isDigit major = true
        /\ forallb JsObject.isDigit minor = true)
  /\ (forall response,
         fst (Fetch.fetchWithRetry network Updates.EMOJI_VERSION_URL 0 h)
         = inl response ->
         includes (firstHeading (Fetch.text response)) (lit "Emoji ") = false ->
         fst (Updates.getLatestEmojiVersion network firstHeading h)
         = inr Updates.NoVersion).
Proof.
  split.
  - intros v Hv.
    destruct (UpdateFacts.getLatestEmojiVersion_matched _ _ _ Hv)
      as (response & Hfetch & Hmatch).
    destruct (UpdateFacts.versionMatch_sound _ Hmatch)
      as (before & s & Htext & Hs).
    destruct (UpdateFacts.versionAt_sound _ Hs)
      as (major & minor & rest & -> & Hv' & Hmajor & Hminor & Hd1 & Hd2).
    exists response, before, rest, major, minor.
    repeat split; assumption.
  - intros response Hfetch Hinc. unfold Updates.getLatestEmojiVersion.
    destruct (Fetch.fetchWithRetry network Updates.EMOJI_VERSION_URL 0 h)
      as [fetched h']. simpl in Hfetch. subst fetched.
    now rewrite (UpdateFacts.versionMatch_includes _ Hinc).
Qed.

(** The page of the steady network. *)
Lemma latest_version_of_steady_page :
  exists response before rest major minor,
    fst (Fetch.fetchWithRetry steadyNetwork Updates.EMOJI_VERSION_URL 0 [])
    = inl response
    /\ wholePage (Fetch.text response)
       = before ++ lit "Emoji " ++ lit "15.1" ++ rest
    /\ lit "15.1" = major ++ Updates.dot :: minor
    /\ major <> [] /\ minor <> []
    /\ forallb JsObject.isDigit major = true
    /\ forallb JsObject.isDigit minor = true.
Proof.
  apply (proj1 (@latest_version_shape steadyNetwork wholePage []) (lit "15.1")).
  reflexivity.
Defined.

(** X17.  Within [versionCheckInterval] (24 hours) of the [last_update] of
    a readable statistics file, [checkForUpdates] answers false without a
    request, whatever the file says about the version and whatever the
    network would answer. *)
Theorem no_lookup_within_interval
    (network : Fetch.History -> jsstring -> Fetch.Attempt)
    (firstHeading : jsstring -> jsstring)
    (last_update : Z) (emoji_version : option jsstring)
    (now : Z) (h : Fetch.History) :
  (now - last_update <= 86400000)%Z ->
  Updates.checkForUpdates network firstHeading
                          (Updates.Stats (Some last_update) emoji_version) now h
  = (false, h).
Proof.
  intros Hnow. unfold Updates.checkForUpdates, Updates.lastUpdateOf.
  assert (Hlast : (if (last_update =? 0)%Z then 0%Z else last_update) = last_update).
  { destruct (last_update =? 0)%Z eqn:E; [|reflexivity].
    apply Z.eqb_eq in E. now subst. }
  rewrite Hlast.
  assert (Hint : (now - last_update >? Updates.versionCheckInterval)%Z = false).
  { unfold Updates.versionCheckInterval. rewrite Z.gtb_ltb. apply Z.ltb_ge. lia. }
  now rewrite Hint.
Qed.

Lemma no_lookup_within_interval_example :
  Updates.checkForUpdates steadyNetwork wholePage
                          (Updates.Stats (Some 1700000000000%Z)
                                         (Some (lit "14.0")))
                          1700003600000%Z []
  = (false, []).
Proof.
  apply (@no_lookup_within_interval steadyNetwork wholePage). lia.
Defined.

(** X18.  [checkForUpdates] answers false in two cases only: the
    statistics file was read and [now] is within the interval of its
    [last_update] (0 where the file has none), or the file was read and
    [getLatestEmojiVersion] returned the version of the file ("0.0" where
    the file has none).  A missing or unreadable file and a failed lookup
    are answered with true. *)
Theorem update_unless_current
    (network : Fetch.History -> jsstring -> Fetch.Attempt)
    (firstHeading : jsstring -> jsstring)
    (file : Updates.StatsFile) (now : Z) (h : Fetch.History) :
  fst (Updates.checkForUpdates network firstHeading file now h) = false
  <-> exists last_update emoji_version,
        file = Updates.Stats last_update emoji_version
        /\ ((now - Updates.lastUpdateOf last_update <= 86400000)%Z
            \/ fst (Updates.getLatestEmojiVersion network firstHeading h)
               = inl (Updates.currentVersionOf emoji_version)).
Proof.
  unfold Updates.checkForUpdates.
  destruct file as [| |last_update emoji_version].
  - split; [discriminate|]. intros (lu & ev & Hfile & _). discriminate.
  - split; [discriminate|]. intros (lu & ev & Hfile & _). discriminate.
  - cbv zeta.
    destruct (now - Updates.lastUpdateOf last_update
              >? Updates.versionCheckInterval)%Z eqn:Hint.
    + apply Z.gtb_lt in Hint. unfold Updates.versionCheckInterval in Hint.
      destruct (Updates.getLatestEmojiVersion network firstHeading h)
        as [[latestVersion|error] h']; simpl.
      * str_cases latestVersion (Updates.currentVersionOf emoji_version); simpl.
        -- split; [|reflexivity]. intros _.
           exists last_update, emoji_version. split; [reflexivity|].
           right. now f_equal.
        -- split; [discriminate|].
           intros (lu & ev & [= <- <-] & [Hle|Heq]); [lia|congruence].
      * split; [discriminate|].
        intros (lu & ev & [= <- <-] & [Hle|Heq]); [lia|discriminate].
    + rewrite Z.gtb_ltb in Hint. apply Z.ltb_ge in Hint.
      unfold Updates.versionCheckInterval in Hint. simpl.
      split; [|reflexivity]. intros _.
      exists last_update, emoji_version. split; [reflexivity|]. now left.
Qed.

(** X19.  What [main] stores and [checkForUpdates] later reads: with the
    version that [getLatestEmojiVersion] returned in the statistics file,
    a later check that finds the same version answers false, at any time
    and whatever the [last_update]. *)
Theorem stored_version_is_current
    (network : Fetch.History -> jsstring -> Fetch.Attempt)
    (firstHeading : jsstring -> jsstring)
    (h0 h : Fetch.History) (v : jsstring) (last_update : option Z) (now : Z) :
  fst (Updates.getLatestEmojiVersion network firstHeading h0) = inl v ->
  fst (Updates.getLatestEmojiVersion network firstHeading h) = inl v ->
  fst (Updates.checkForUpdates network firstHeading
                               (Updates.Stats last_update (Some v)) now h)
  = false.
Proof.
  intros Hstored Hlater.
  destruct (UpdateFacts.getLatestEmojiVersion_matched _ _ _ Hstored)
    as (response & _ & Hmatch).
  pose proof (UpdateFacts.versionMatch_nonempty _ Hmatch) as Hcurrent.
  unfold Updates.checkForUpdates. cbv zeta. rewrite Hcurrent.
  destruct (now - Updates.lastUpdateOf last_update
            >? Updates.versionCheckInterval)%Z; [|reflexivity].
  destruct (Updates.getLatestEmojiVersion network firstHeading h)
    as [[latestVersion|error] h']; simpl in *; [|discriminate].
  injection Hlater as ->. now rewrite str_eqb_refl.
Qed.

Lemma stored_version_is_current_example :
  fst (Updates.checkForUpdates steadyNetwork wholePage
                               (Updates.Stats (Some 1700000000000%Z)
                                              (Some (lit "15.1")))
                               1800000000000%Z [])
  = false.
Proof.
  apply (@stored_version_is_current steadyNetwork wholePage [] []); reflexivity.
Defined.

(* ================================================================== *)
(** * The component list *)
(* ================================================================== *)

Module ComponentFacts.
Import JsObject.
Section Facts.
Variable V : Type.
Implicit Types o : t V.

Local Abbreviation byIndex :=
  (fun x y : N * (jsstring * V) => (fst x <= fst y)%N).
Local Abbreviation hasIndex :=
  (fun x : N * (jsstring * V) => arrayIndex (fst (snd x)) = Some (fst x)).
Local Abbreviation named := (fun e : jsstring * V => isNamed (fst e)).

Lemma defineOwn_fresh o k v :
  ~ In k (map fst o) -> defineOwn o k v = o ++ [(k, v)].
Proof.
  induction o as [|[k0 v0] o IH]; simpl; intros H; [reflexivity|].
  str_cases k0 k; [exfalso; apply H; now left|].
  f_equal. apply IH. tauto.
Qed.

Lemma defineOwn_NoDup o k v :
  NoDup (map fst o) -> NoDup (map fst (defineOwn o k v)).
Proof.
  intros H. rewrite JsObjectFacts.keys_defineOwn.
  destruct (existsb (str_eqb k) (map fst o)) eqn:E; [assumption|].
  apply GroupFacts.existsb_not_In in E.
  apply NoDup_app; [assumption|repeat constructor; intros []|].
  intros x Hx [<-|[]]. contradiction.
Qed.

Lemma fold_defineOwn (pairs : list (jsstring * V)) o :
  NoDup (map fst (o ++ pairs)) ->
  fold_left (fun o e => defineOwn o (fst e) (snd e)) pairs o = o ++ pairs.
Proof.
  revert o. induction pairs as [|[k v] pairs IH]; intros o H; simpl.
  - now rewrite app_nil_r.
  - rewrite defineOwn_fresh.
    + rewrite IH; rewrite <- app_assoc; [reflexivity|exact H].
    + rewrite map_app in H. simpl in H.
      apply NoDup_remove_2 in H. intros Hin. apply H.
      apply in_or_app. now left.
Qed.

(** An object made from pairs with distinct keys has these pairs as its
    properties, in their order. *)
Lemma fromEntries_distinct (pairs : list (jsstring * V)) :
  NoDup (map fst pairs) -> fromEntries pairs = pairs.
Proof.
  intros H. unfold fromEntries. now rewrite fold_defineOwn.
Qed.

Lemma sorted_fixed (l : list (N * (jsstring * V))) :
  StronglySorted byIndex l -> fold_right (@insertIndexed V) [] l = l.
Proof.
  induction 1 as [|x l Hs IH Hx]; simpl; [reflexivity|].
  rewrite IH. destruct l as [|y l]; [reflexivity|]. simpl.
  inversion Hx as [|? ? Hxy _]; subst.
  apply N.leb_le in Hxy. now rewrite Hxy.
Qed.

Lemma sorted_filter (p : N * (jsstring * V) -> bool) l :
  StronglySorted byIndex l -> StronglySorted byIndex (filter p l).
Proof.
  induction 1 as [|x l Hs IH Hx]; simpl; [constructor|].
  destruct (p x); [|assumption].
  constructor; [assumption|].
  rewrite Forall_forall in *. intros y Hy. apply Hx.
  now apply filter_In in Hy as [Hy _].
Qed.

Lemma indexed_app o1 o2 : indexed (o1 ++ o2) = indexed o1 ++ indexed o2.
Proof. unfold indexed. apply flat_map_app. Qed.

Lemma indexed_map_snd (l : list (N * (jsstring * V))) :
  Forall hasIndex l -> indexed (map snd l) = l.
Proof.
  unfold indexed.
  induction 1 as [|[n e] l Hx Hl IH]; simpl; [reflexivity|].
  simpl in Hx. rewrite Hx. simpl. now rewrite IH.
Qed.

Lemma indexed_named (l : list (jsstring * V)) :
  forallb named l = true -> indexed l = [].
Proof.
  unfold indexed. induction l as [|e l IH]; simpl; [reflexivity|].
  intros H. apply andb_true_iff in H as [He Hl].
  unfold isNamed in He. destruct (arrayIndex (fst e)); [discriminate|].
  now apply IH.
Qed.

Lemma named_map_snd (l : list (N * (jsstring * V))) :
  Forall hasIndex l -> filter named (map snd l) = [].
Proof.
  induction 1 as [|[n e] l Hx Hl IH]; simpl; [reflexivity|].
  simpl in Hx. unfold isNamed. now rewrite Hx.
Qed.

Lemma filter_named_all (l : list (jsstring * V)) :
  forallb named l = true -> filter named l = l.
Proof.
  induction l as [|e l IH]; simpl; [reflexivity|].
  intros H. apply andb_true_iff in H as [He Hl]. rewrite He.
  f_equal. now apply IH.
Qed.

Lemma filter_map_snd (p : jsstring * V -> bool) (l : list (N * (jsstring * V))) :
  filter p (map snd l) = map snd (filter (fun x => p (snd x)) l).
Proof.
  induction l as [|x l IH]; simpl; [reflexivity|].
  destruct (p (snd x)); simpl; now rewrite IH.
Qed.

(** A selection from the enumeration of an object is enumerated in the
    order it has. *)
Lemma entries_filter (p : jsstring * V -> bool) o :
  entries (filter p (entries o)) = filter p (entries o).
Proof.
  unfold entries at 2 3. rewrite filter_app, filter_map_snd.
  set (S' := filter (fun x => p (snd x)) (fold_right (@insertIndexed V) [] (indexed o))).
  set (Nm := filter p (filter named o)).
  assert (HS : StronglySorted byIndex S')
    by apply sorted_filter, OrderFacts.sorted_sorted.
  assert (HI : Forall hasIndex S').
  { apply Forall_forall. intros x Hx. apply filter_In in Hx as [Hx _].
    revert x Hx. apply Forall_forall.
    apply (Permutation_Forall (EnumFacts.sorted_perm (indexed o))).
    apply OrderFacts.indexed_index. }
  assert (HN : forallb named Nm = true).
  { apply forallb_forall. intros e He. unfold Nm in He.
    apply filter_In in He as [He _]. now apply filter_In in He as [_ He]. }
  unfold entries. rewrite indexed_app, filter_app.
  rewrite (indexed_map_snd HI), (indexed_named _ HN), app_nil_r.
  rewrite (sorted_fixed HS), (named_map_snd HI), (filter_named_all _ HN).
  reflexivity.
Qed.

Lemma entries_NoDup o : NoDup (map fst o) -> NoDup (map fst (entries o)).
Proof.
  apply Permutation_NoDup, Permutation_map, Permutation_sym,
    EnumFacts.entries_perm.
Qed.

Lemma filter_NoDup_keys (p : jsstring * V -> bool) (l : list (jsstring * V)) :
  NoDup (map fst l) -> NoDup (map fst (filter p l)).
Proof.
  induction l as [|e l IH]; simpl; intros H; [constructor|].
  inversion H as [|? ? Hin Hl]; subst.
  destruct (p e); simpl; [|now apply IH].
  constructor; [|now apply IH].
  intros Hin'. apply Hin. apply in_map_iff in Hin' as (x & Hx & Hin').
  apply filter_In in Hin' as [Hin' _]. apply in_map_iff. now exists x.
Qed.

End Facts.

Section Parsed.
Variable singleKeywords dualKeywords : list jsstring.
Variable withCodePoints : bool.

Lemma assigned_NoDup (es : list (jsstring * EmojiRecord)) emojiData :
  NoDup (map fst emojiData) ->
  NoDup (map fst (fold_left Builder.assign es emojiData)).
Proof.
  revert emojiData. induction es as [|[k r] es IH]; simpl; intros o H;
    [assumption|].
  apply IH. unfold Builder.assign, set. simpl.
  destruct (str_eqb k proto); [assumption|now apply defineOwn_NoDup].
Qed.

Lemma parseRows_NoDup rows emojiData emojiData' :
  Builder.parseRows singleKeywords dualKeywords withCodePoints rows emojiData
  = Returned emojiData' ->
  NoDup (map fst emojiData) -> NoDup (map fst emojiData').
Proof.
  revert emojiData. induction rows as [|row rows IH]; simpl; intros o Hparse H.
  - now injection Hparse as <-.
  - unfold Builder.processRow in Hparse.
    destruct (Builder.rowEntries singleKeywords dualKeywords withCodePoints row)
      as [es|e]; simpl in Hparse; [|discriminate].
    apply (IH _ Hparse). now apply assigned_NoDup.
Qed.

End Parsed.
End ComponentFacts.

(** X20.  The component list of [main]: for a mapping that
    [parseEmojiData] returned, the object written to the component file
    lists exactly the records of the mapping whose group is "Component",
    variants included, each under its key and in the order in which the
    mapping lists them. *)
Theorem component_emojis
    (singleKeywords dualKeywords : list jsstring) (withCodePoints : bool)
    (rows : list Row) (emojiData : JsObject.t EmojiRecord) :
  Builder.parseEmojiData singleKeywords dualKeywords withCodePoints rows
  = Returned emojiData ->
  JsObject.entries (componentEmojis emojiData)
  = filter isComponent (JsObject.entries emojiData).
Proof.
  intros Hparse. unfold componentEmojis.
  rewrite ComponentFacts.fromEntries_distinct.
  - apply ComponentFacts.entries_filter.
  - apply ComponentFacts.filter_NoDup_keys, ComponentFacts.entries_NoDup.
    apply (@ComponentFacts.parseRows_NoDup _ _ _ _ _ _ Hparse). constructor.
Qed.

Lemma component_emojis_example :
  exists emojiData,
    Part000.parseEmojiData [lightSkinTone; grinningFace; digitZero]
    = Returned emojiData
    /\ JsObject.entries (componentEmojis emojiData)
       = filter isComponent (JsObject.entries emojiData).
Proof.
  destruct (Part000.parseEmojiData [lightSkinTone; grinningFace; digitZero])
    as [emojiData|e] eqn:Hparse; [|vm_compute in Hparse; discriminate].
  exists emojiData. split; [reflexivity|].
  exact (@component_emojis Part000.singleKeywords Part000.dualKeywords true
                           _ _ Hparse).
Defined.

(* ================================================================== *)
(** * Skin-tone variants of a row *)
(* ================================================================== *)

(** C1, as stated: in [part_000] the row "waving hand" is followed, as in
    the charts, by the row of the sequence with the light skin tone.  The
    later row assigns its own record under the key of the first variant of
    "waving hand": the returned mapping holds four variant records of
    "waving hand", not five. *)
Lemma later_row_replaces_variant :
  Part000.hasSkinToneSupport (trim (lit "waving hand")) = true
  /\ exists emojiData replaced,
      Part000.parseEmojiData [wavingHand; wavingHandLight] = Returned emojiData
      /\ JsObject.getOwn emojiData (utf16 0x1F44B ++ utf16 0x1F3FB)
         = Some replaced
      /\ name replaced = lit "waving hand: light skin tone"
      /\ isVariant replaced = false
      /\ List.length (variantsOf (utf16 0x1F44B) emojiData) = 4%nat.
Proof.
  split; [reflexivity|].
  eexists. eexists. split; [vm_compute; reflexivity|].
  split; [vm_compute; reflexivity|].
  split; [reflexivity|]. split; reflexivity.
Qed.

(** C1, amended.  Let [parseEmojiData] return [emojiData] for a page with
    the row [row], which has its three cells, a code that decodes to
    [emoji] and a name that passes the single-tone check.  The row assigns,
    after its base record, exactly five single-tone variant records, one
    per modifier and in the order of the modifiers: each under the key
    [emoji + modifier], named "<name> (<modifier name>)", with [is_variant]
    true and [base_emoji] the key of the row.  If the name passes the dual
    check as well, exactly 25 dual-tone records follow, one per ordered pair
    of modifiers, under [emoji + modifier1 + modifier2]; otherwise none.
    All keys of the row are distinct.  In [emojiData] every one of these
    keys is present; it holds the variant record of the row unless a later
    row assigns the same key, and then a record of a later row.  If no
    other row of the page has the key [emoji] and no later row assigns one
    of these keys, then the variant records of [emojiData] whose
    [base_emoji] is [emoji] are exactly those of the row: five, or thirty.
    The statement is about the function shared by the two scripts, for any
    lists of keywords; [Part000] and [Script] are its instances. *)
Theorem skin_tone_variants_emitted
    (singleKeywords dualKeywords : list jsstring) (withCodePoints : bool)
    (pre post : list Row) (row : Row)
    (code nameText groupText emoji : jsstring)
    (emojiData : JsObject.t EmojiRecord) :
  codeCell row = Some code ->
  nameCell row = Some nameText ->
  groupCell row = Some groupText ->
  fromCodePoint (codePointsOf code) = Returned emoji ->
  Builder.hasSkinToneSupport singleKeywords (trim nameText) = true ->
  Builder.parseEmojiData singleKeywords dualKeywords withCodePoints
                         (pre ++ row :: post)
  = Returned emojiData ->
  exists base singles duals,
    Builder.rowEntries singleKeywords dualKeywords withCodePoints row
    = Returned ((emoji, base) :: singles ++ duals)
    /\ isVariant base = false
    /\ List.length singles = 5%nat
    /\ Forall2 (fun modifier entry =>
                  fst entry = emoji ++ modifier
                  /\ name (snd entry)
                     = trim nameText ++ lit " (" ++ getSkinToneName modifier
                                     ++ lit ")"
                  /\ is_variant (snd entry) = Some true
                  /\ base_emoji (snd entry) = Some emoji
                  /\ dual_skin_tone_support (snd entry) = None)
               SKIN_TONE_MODIFIERS singles
    /\ (if Builder.hasDualSkinToneSupport dualKeywords (trim nameText)
        then List.length duals = 25%nat
             /\ Forall2 (fun pair entry =>
                           fst entry = emoji ++ fst pair ++ snd pair
                           /\ name (snd entry)
                              = trim nameText ++ lit " ("
                                  ++ getSkinToneName (fst pair) ++ lit " and "
                                  ++ getSkinToneName (snd pair) ++ lit ")"
                           /\ is_variant (snd entry) = Some true
                           /\ base_emoji (snd entry) = Some emoji
                           /\ dual_skin_tone_support (snd entry) = Some true)
                        (list_prod SKIN_TONE_MODIFIERS SKIN_TONE_MODIFIERS)
                        duals
        else duals = [])
    /\ NoDup (map fst ((emoji, base) :: singles ++ duals))
    /\ (forall entry, In entry (singles ++ duals) ->
          ~ In (fst entry)
               (map fst (assignments
                           (Builder.rowEntries singleKeywords dualKeywords
                                               withCodePoints) post)) ->
          JsObject.getOwn emojiData (fst entry) = Some (snd entry))
    /\ (forall entry, In entry (singles ++ duals) ->
          exists r,
            JsObject.getOwn emojiData (fst entry) = Some r
            /\ (r = snd entry
                \/ In (fst entry, r)
                      (assignments
                         (Builder.rowEntries singleKeywords dualKeywords
                                             withCodePoints) post)))
    /\ ((forall other, In other (pre ++ post) ->
           emojiOf (Builder.rowEntries singleKeywords dualKeywords
                                       withCodePoints other)
           <> Some emoji) ->
        (forall entry, In entry (singles ++ duals) ->
           ~ In (fst entry)
                (map fst (assignments
                            (Builder.rowEntries singleKeywords dualKeywords
                                                withCodePoints) post))) ->
        Permutation (variantsOf emoji emojiData) (singles ++ duals)).
Proof.
  intros Hc Hn Hg He Hs Hparse.
  pose proof (rowEntries_decoded singleKeywords dualKeywords withCodePoints
                                 row Hc Hn Hg He) as Hrow.
  set (n := trim nameText) in *. set (g := trim groupText) in *.
  set (cps := codePointsOf code) in *.
  set (base := Builder.baseRecord singleKeywords dualKeywords withCodePoints n g cps) in *.
  set (singles := Builder.singleVariants withCodePoints emoji n g cps).
  set (duals := if Builder.hasDualSkinToneSupport dualKeywords n
                then Builder.dualVariants withCodePoints emoji n g cps else []).
  assert (Hv : Builder.variantEntries singleKeywords dualKeywords withCodePoints
                                      emoji n g cps = singles ++ duals).
  { unfold Builder.variantEntries. rewrite Hs. reflexivity. }
  assert (Hnd : NoDup (map fst ((emoji, base) :: singles ++ duals))).
  { rewrite <- Hv. apply row_keys_distinct. }
  rewrite Hv in Hrow.
  set (later := assignments (Builder.rowEntries singleKeywords dualKeywords
                                                withCodePoints) post).
  assert (Hread : forall k r,
             In (k, r) (singles ++ duals) ->
             JsObject.getOwn emojiData k
             = match lastAssigned k later with
               | Some r' => Some r'
               | None => Some r
               end).
  { intros k r Hin.
    assert (Hk : k <> JsObject.proto).
    { assert (Hkey : In k (map fst (Builder.variantEntries
                                      singleKeywords dualKeywords
                                      withCodePoints emoji n g cps))).
      { rewrite Hv. apply in_map_iff. now exists (k, r). }
      apply variant_keys_in in Hkey as (suffix & -> & Hsuf).
      now apply variant_key_not_proto. }
    unfold Builder.parseEmojiData in Hparse.
    rewrite (@parseRows_last _ _ _ _ _ _ _ Hparse Hk).
    rewrite assignments_app, (@assignments_cons _ _ _ row _ post Hrow).
    fold later. rewrite !lastAssigned_app.
    destruct (lastAssigned k later); [reflexivity|].
    rewrite (@lastAssigned_distinct k r _ Hnd); [reflexivity|now right]. }
  exists base, singles, duals.
  split; [exact Hrow|].
  split; [reflexivity|].
  split; [reflexivity|].
  split.
  { apply Forall2_map_right. intros m _. simpl. repeat split; reflexivity. }
  split.
  { subst duals. destruct (Builder.hasDualSkinToneSupport dualKeywords n).
    - split; [reflexivity|].
      apply Forall2_list_prod with
        (g := Builder.dualVariant withCodePoints emoji n g cps).
      intros m1 m2 _ _. simpl. repeat split; try reflexivity.
      symmetry. apply app_assoc.
    - reflexivity. }
  split; [exact Hnd|].
  assert (Hkept : forall entry,
             In entry (singles ++ duals) ->
             ~ In (fst entry) (map fst later) ->
             JsObject.getOwn emojiData (fst entry) = Some (snd entry)).
  { intros [k r] Hin Hlater. cbn [fst snd] in *.
    rewrite (Hread k r Hin).
    apply lastAssigned_None in Hlater. now rewrite Hlater. }
  split; [exact Hkept|].
  split.
  - intros [k r] Hin. cbn [fst snd].
    rewrite (Hread k r Hin).
    destruct (lastAssigned k later) as [r'|] eqn:Hlast.
    + exists r'. split; [reflexivity|]. right. now apply lastAssigned_In.
    + exists r. split; [reflexivity|]. now left.
  - intros Hothers Hlater.
    assert (Hof : forall k r,
               In (k, r) (singles ++ duals) ->
               isVariant r = true /\ base_emoji r = Some emoji).
    { intros k r Hin. rewrite <- Hv in Hin.
      now destruct (variant_fields _ _ _ _ _ _ _ _ _ Hin) as (H1 & H2 & _). }
    apply NoDup_Permutation.
    + unfold variantsOf. apply (NoDup_map_inv fst).
      apply ComponentFacts.filter_NoDup_keys, ComponentFacts.entries_NoDup.
      unfold Builder.parseEmojiData in Hparse.
      apply (@ComponentFacts.parseRows_NoDup _ _ _ _ _ _ Hparse). constructor.
    + apply (NoDup_map_inv fst). now inversion Hnd.
    + intros [k r]. unfold variantsOf. rewrite filter_In. cbn [fst snd].
      split.
      * intros [Hin Hcond]. apply (proj1 (EnumFacts.entries_In _ _)) in Hin.
        apply andb_true_iff in Hcond as [Hvar Hbase].
        assert (Horigin : forall e,
                   In e emojiData ->
                   isVariant (snd e) = true ->
                   match base_emoji (snd e) with
                   | Some b => str_eqb b emoji
                   | None => false
                   end = true ->
                   In e (singles ++ duals));
          [|exact (Horigin (k, r) Hin Hvar Hbase)].
        clear k r Hin Hvar Hbase.
        refine (@parseRows_members
                  singleKeywords dualKeywords withCodePoints
                  (fun e =>
                     isVariant (snd e) = true ->
                     match base_emoji (snd e) with
                     | Some b => str_eqb b emoji
                     | None => false
                     end = true ->
                     In e (singles ++ duals))
                  (pre ++ row :: post) JsObject.empty emojiData Hparse _ _);
          [intros e []|].
        intros other es [k' r'] Hother Hes Hin' Hvar Hbase. cbn [fst snd] in *.
        destruct (rowEntries_shape _ _ _ _ Hes)
          as [-> | (emoji' & n' & g' & cps' & ->)]; [destruct Hin'|].
        destruct Hin' as [[= <- <-]|Hin']; [discriminate|].
        destruct (variant_fields _ _ _ _ _ _ _ _ _ Hin') as (_ & Hb & _).
        rewrite Hb in Hbase. apply str_eqb_eq in Hbase. subst emoji'.
        apply in_app_or in Hother as [Hother|[<-|Hother]].
        -- exfalso. apply (Hothers other); [apply in_or_app; now left|].
           now rewrite Hes.
        -- rewrite Hrow in Hes.
           apply (f_equal (fun o => match o with
                                    | Returned es => tl es
                                    | Thrown _ => []
                                    end)) in Hes.
           cbv beta iota in Hes. cbn [tl] in Hes. now rewrite Hes.
        -- exfalso. apply (Hothers other); [apply in_or_app; now right|].
           now rewrite Hes.
      * intros Hin. destruct (Hof k r Hin) as [Hvar Hbase]. split.
        -- apply (proj2 (EnumFacts.entries_In _ _)).
           apply JsObjectFacts.getOwn_In.
           apply (Hkept (k, r) Hin). now apply Hlater.
        -- rewrite Hvar, Hbase. apply str_eqb_refl.
Qed.

(** The row "handshake" between two other rows of the self-test, in
    [part_000]: no other row has its key and no later row assigns a key of
    its variants, so the mapping holds its thirty variant records. *)
Lemma skin_tone_variants_emitted_handshake :
  exists base singles duals,
    Part000.rowEntries handshake
    = Returned ((utf16 0x1F91D, base) :: singles ++ duals)
    /\ List.length singles = 5%nat
    /\ List.length duals = 25%nat
    /\ (forall entry, In entry (singles ++ duals) ->
          JsObject.getOwn mockEmojiData (fst entry) = Some (snd entry))
    /\ Permutation (variantsOf (utf16 0x1F91D) mockEmojiData)
                   (singles ++ duals)
    /\ List.length (variantsOf (utf16 0x1F91D) mockEmojiData) = 30%nat.
Proof.
  destruct (@skin_tone_variants_emitted
              Part000.singleKeywords Part000.dualKeywords true
              [grinningFace] [wavingHand] handshake
              (lit "1F91D") (lit "handshake") (lit "People & Body")
              (utf16 0x1F91D) mockEmojiData
              eq_refl eq_refl eq_refl eq_refl eq_refl eq_refl)
    as (base & singles & duals & Hrow & _ & Hfive & _ & Hdual & _ & Hkept & _
        & Hexact).
  change (Builder.hasDualSkinToneSupport Part000.dualKeywords
                                         (trim (lit "handshake")))
    with true in Hdual.
  destruct Hdual as [Hdual _].
  assert (Hes : singles ++ duals
                = tl (match Part000.rowEntries handshake with
                      | Returned es => es
                      | Thrown _ => []
                      end)).
  { unfold Part000.rowEntries. now rewrite Hrow. }
  assert (Hlater : forall entry,
             In entry (singles ++ duals) ->
             ~ In (fst entry)
                  (map fst (assignments Part000.rowEntries [wavingHand]))).
  { rewrite Hes. intros entry Hin.
    apply GroupFacts.existsb_not_In. apply negb_true_iff.
    revert entry Hin. apply forallb_forall. vm_compute. reflexivity. }
  assert (Hperm : Permutation (variantsOf (utf16 0x1F91D) mockEmojiData)
                              (singles ++ duals)).
  { apply Hexact; [|exact Hlater].
    intros other [<-|[<-|[]]]; vm_compute; discriminate. }
  exists base, singles, duals.
  split; [exact Hrow|]. split; [exact Hfive|]. split; [exact Hdual|].
  split; [intros entry Hin; apply Hkept; [exact Hin|now apply Hlater]|].
  split; [exact Hperm|].
  rewrite (Permutation_length Hperm), length_app, Hfive, Hdual. reflexivity.
Defined.

(* ================================================================== *)
(** * The two scripts on the same rows *)
(* ================================================================== *)

Section Keys.
Variable singleKeywords dualKeywords : list jsstring.
Variable withCodePoints : bool.

Local Abbreviation rowEntries :=
  (Builder.rowEntries singleKeywords dualKeywords withCodePoints).
Local Abbreviation parseRows :=
  (Builder.parseRows singleKeywords dualKeywords withCodePoints).

Lemma assigned_keys (es : list (jsstring * EmojiRecord)) emojiData k :
  JsObject.getOwn (fold_left Builder.assign es emojiData) k <> None
  <-> JsObject.getOwn emojiData k <> None
      \/ (k <> JsObject.proto /\ In k (map fst es)).
Proof.
  revert emojiData. induction es as [|[k0 r0] es IH]; simpl; intros o.
  - tauto.
  - rewrite IH. unfold Builder.assign. simpl.
    rewrite JsObjectFacts.getOwn_set.
    str_cases k0 JsObject.proto.
    + subst k0. split; [tauto|].
      intros [H|[Hk [Hp|Hin]]]; [tauto|congruence|tauto].
    + str_cases k0 k.
      * subst k0. split; [|intros _; left; discriminate].
        intros _. right. split; [assumption|now left].
      * split; [tauto|].
        intros [H|[Hk [Hp|Hin]]]; [tauto|congruence|tauto].
Qed.

(** The keys of the mapping are the keys that the rows assign, the key
    "__proto__" apart. *)
Lemma parseRows_keys rows emojiData emojiData' k :
  parseRows rows emojiData = Returned emojiData' ->
  JsObject.getOwn emojiData' k <> None
  <-> JsObject.getOwn emojiData k <> None
      \/ (k <> JsObject.proto
          /\ exists row es, In row rows /\ rowEntries row = Returned es
                            /\ In k (map fst es)).
Proof.
  revert emojiData. induction rows as [|row rows IH]; simpl; intros o Hparse.
  - injection Hparse as <-. split; [tauto|].
    intros [H|(_ & row & es & [] & _)]. exact H.
  - unfold Builder.processRow in Hparse.
    destruct (rowEntries row) as [es|e] eqn:Hes; simpl in Hparse;
      [|discriminate].
    rewrite (IH _ Hparse), assigned_keys. split.
    + intros [[H|[Hk Hin]]|(Hk & row' & es' & Hin & Hes' & Hkey)].
      * now left.
      * right. split; [assumption|]. exists row, es. auto.
      * right. split; [assumption|]. exists row', es'. auto.
    + intros [H|(Hk & row' & es' & [<-|Hin] & Hes' & Hkey)].
      * left. now left.
      * left. right. split; [assumption|]. congruence.
      * right. split; [assumption|]. exists row', es'. auto.
Qed.

End Keys.

Lemma existsb_incl (A : Type) (p : A -> bool) (l l' : list A) :
  incl l l' -> existsb p l = true -> existsb p l' = true.
Proof.
  intros Hincl H. apply existsb_exists in H as (x & Hx & Hp).
  apply existsb_exists. exists x. split; [now apply Hincl|assumption].
Qed.

(** With more keywords a row assigns more keys. *)
Lemma rowEntries_keys_incl
      (single single' dual dual' : list jsstring) (cp cp' : bool) row es :
  incl single single' -> incl dual dual' ->
  Builder.rowEntries single dual cp row = Returned es ->
  exists es',
    Builder.rowEntries single' dual' cp' row = Returned es'
    /\ incl (map fst es) (map fst es').
Proof.
  intros Hs Hd. unfold Builder.rowEntries.
  destruct (codeCell row) as [c|];
    [|intros [= <-]; exists []; split; [reflexivity|apply incl_refl]].
  destruct (nameCell row) as [n|];
    [|intros [= <-]; exists []; split; [reflexivity|apply incl_refl]].
  destruct (groupCell row) as [g|];
    [|intros [= <-]; exists []; split; [reflexivity|apply incl_refl]].
  destruct (fromCodePoint (codePointsOf c)) as [emoji|e]; simpl;
    [|discriminate].
  intros [= <-]. eexists. split; [reflexivity|].
  simpl. apply incl_cons; [now left|]. apply incl_tl.
  unfold Builder.variantEntries.
  destruct (Builder.hasSkinToneSupport single (trim n)) eqn:H1;
    [|intros k []].
  unfold Builder.hasSkinToneSupport in *.
  rewrite (existsb_incl _ Hs H1).
  rewrite !map_app. apply incl_app.
  - apply incl_appl. unfold Builder.singleVariants. rewrite !map_map.
    apply incl_refl.
  - destruct (Builder.hasDualSkinToneSupport dual (trim n)) eqn:H2;
      [|intros k []].
    unfold Builder.hasDualSkinToneSupport in *.
    rewrite (existsb_incl _ Hd H2).
    apply incl_appr. unfold Builder.dualVariants.
    rewrite !flat_map_concat_map, !concat_map, !map_map.
    intros k Hk. apply in_concat in Hk as (l & Hl & Hk).
    apply in_map_iff in Hl as (m1 & <- & Hm1).
    apply in_concat. eexists. split; [apply in_map_iff; now exists m1|].
    rewrite map_map in *. exact Hk.
Qed.

(** X21.  The two scripts on the same rows: they fail together, with the
    same error, and when they return, every key of the mapping of
    [script/generate-emoji-counts.js] is a key of the mapping of
    [part_000], whose keyword lists extend those of the other script. *)
Theorem script_keys_are_part000_keys (rows : list Row) :
  match Script.parseEmojiData rows, Part000.parseEmojiData rows with
  | Returned narrow, Returned wide =>
      forall k, JsObject.getOwn narrow k <> None ->
                JsObject.getOwn wide k <> None
  | Thrown e, Thrown e' => e = e'
  | _, _ => False
  end.
Proof.
  unfold Script.parseEmojiData, Part000.parseEmojiData, Builder.parseEmojiData.
  destruct (forallb decodable rows) eqn:Hrows.
  - destruct (parseRows_decodable Script.singleKeywords Script.dualKeywords
                                  false rows JsObject.empty Hrows)
      as (narrow & Hnarrow).
    destruct (parseRows_decodable Part000.singleKeywords Part000.dualKeywords
                                  true rows JsObject.empty Hrows)
      as (wide & Hwide).
    rewrite Hnarrow, Hwide. intros k Hk.
    apply (proj1 (parseRows_keys _ _ _ _ _ k Hnarrow)) in Hk.
    apply (proj2 (parseRows_keys _ _ _ _ _ k Hwide)).
    destruct Hk as [Hk|(Hp & row & es & Hin & Hes & Hkey)]; [now left|].
    right. split; [assumption|].
    destruct (@rowEntries_keys_incl
                Script.singleKeywords Part000.singleKeywords
                Script.dualKeywords Part000.dualKeywords false true row es)
      as (es' & Hes' & Hincl); try assumption.
    + intros x Hx. simpl in Hx. simpl. tauto.
    + intros x Hx. simpl in Hx. simpl. tauto.
    + exists row, es'. auto.
  - rewrite (parseRows_undecodable Script.singleKeywords Script.dualKeywords
                                   false rows JsObject.empty Hrows).
    rewrite (parseRows_undecodable Part000.singleKeywords Part000.dualKeywords
                                   true rows JsObject.empty Hrows).
    reflexivity.
Qed.

(* ================================================================== *)
(** * The ordered list of a parsed mapping *)
(* ================================================================== *)

Lemma sorted_strict (l : list jsstring) :
  StronglySorted str_le l -> NoDup l ->
  StronglySorted (fun a b => str_ltb a b = true) l.
Proof.
  induction 1 as [|x l Hs IH Hx]; intros Hnd; [constructor|].
  inversion Hnd as [|? ? Hin Hl]; subst.
  constructor; [now apply IH|].
  rewrite Forall_forall in *. intros y Hy.
  destruct (str_ltb x y) eqn:E; [reflexivity|].
  exfalso. apply Hin.
  assert (x = y) by (apply Order.ltb_total; [assumption|now apply Hx]).
  now subst.
Qed.

(** X22.  [parseEmojiData] and then the ordered list of [main]: the list
    is strictly ascending, so no key occurs twice in it, and its elements
    are exactly the keys under which the mapping holds a record. *)
Theorem ordered_emojis_strict
    (singleKeywords dualKeywords : list jsstring) (withCodePoints : bool)
    (rows : list Row) (emojiData : JsObject.t EmojiRecord) :
  Builder.parseEmojiData singleKeywords dualKeywords withCodePoints rows
  = Returned emojiData ->
  StronglySorted (fun a b => str_ltb a b = true) (orderedEmojis emojiData)
  /\ (forall k, In k (orderedEmojis emojiData)
                <-> JsObject.getOwn emojiData k <> None).
Proof.
  intros Hparse.
  assert (Hnd : NoDup (map fst emojiData)).
  { apply (@ComponentFacts.parseRows_NoDup _ _ _ _ _ _ Hparse). constructor. }
  assert (Hkeys : Permutation (orderedEmojis emojiData) (map fst emojiData)).
  { unfold orderedEmojis. rewrite <- Order.sort_perm. unfold JsObject.keys.
    apply Permutation_map, EnumFacts.entries_perm. }
  split.
  - apply sorted_strict; [apply Order.sort_sorted|].
    apply (Permutation_NoDup (Permutation_sym Hkeys) Hnd).
  - intros k. rewrite JsObjectFacts.getOwn_None. split.
    + intros Hin Hnot. apply Hnot. now apply (Permutation_in _ Hkeys).
    + intros Hk. apply (Permutation_in _ (Permutation_sym Hkeys)).
      destruct (in_dec (list_eq_dec N.eq_dec) k (map fst emojiData));
        [assumption|contradiction].
Qed.

Lemma ordered_emojis_strict_mock :
  StronglySorted (fun a b => str_ltb a b = true) (orderedEmojis mockEmojiData)
  /\ (forall k, In k (orderedEmojis mockEmojiData)
                <-> JsObject.getOwn mockEmojiData k <> None).
Proof.
  apply (@ordered_emojis_strict Part000.singleKeywords Part000.dualKeywords
                                true [grinningFace; handshake; wavingHand]).
  reflexivity.
Defined.

(* ================================================================== *)
(** * The requests of checkForUpdates *)
(* ================================================================== *)

(** X23.  [checkForUpdates] makes no request, or the requests of one
    [fetchWithRetry]: at most four, all of the page of the versions, with
    the pauses between them. *)
Theorem checkForUpdates_requests
    (network : Fetch.History -> jsstring -> Fetch.Attempt)
    (firstHeading : jsstring -> jsstring)
    (file : Updates.StatsFile) (now : Z) (h : Fetch.History) :
  snd (Updates.checkForUpdates network firstHeading file now h) = h
  \/ exists n,
      (n <= 3)%nat
      /\ snd (Updates.checkForUpdates network firstHeading file now h)
         = h ++ Fetch.rounds Updates.EMOJI_VERSION_URL n
             ++ [Fetch.Request Updates.EMOJI_VERSION_URL].
Proof.
  unfold Updates.checkForUpdates.
  destruct file as [| |last_update emoji_version]; try (now left).
  cbv zeta.
  destruct (now - Updates.lastUpdateOf last_update
            >? Updates.versionCheckInterval)%Z; [|now left].
  right.
  destruct (FetchFacts.retry_spec network (Fetch.maxRetries - 0)
                                  Updates.EMOJI_VERSION_URL h)
    as (n & Hn & Hh & _).
  exists n. split; [unfold Fetch.maxRetries in Hn; lia|].
  pose proof (UpdateFacts.getLatestEmojiVersion_history network firstHeading h)
    as Hhist.
  unfold Fetch.fetchWithRetry in Hhist. rewrite Hh in Hhist.
  destruct (Updates.getLatestEmojiVersion network firstHeading h)
    as [[latestVersion|error] h']; simpl in *; [|assumption].
  destruct (negb (str_eqb latestVersion (Updates.currentVersionOf emoji_version)));
    assumption.
Qed.

(* ================================================================== *)
(** * main *)
(* ================================================================== *)

Module MainFacts.
Import Main.

Lemma requesting_ret (A : Type) (a : A) : requesting 0 (ret a).
Proof. intros files h. simpl. lia. Qed.

Lemma requesting_throw (A : Type) : requesting 0 (@throw A).
Proof. intros files h. simpl. lia. Qed.

Lemma requesting_call (A : Type) (o : outcome A) : requesting 0 (call o).
Proof. destruct o; [apply requesting_ret|apply requesting_throw]. Qed.

Lemma requesting_more (A : Type) (n n' : nat) (m : step A) :
  (n <= n')%nat -> requesting n m -> requesting n' m.
Proof. intros Hn Hm files h. specialize (Hm files h). lia. Qed.

Lemma requesting_andThen (A B : Type) (n1 n2 : nat)
      (m : step A) (f : A -> step B) :
  requesting n1 m -> (forall a, requesting n2 (f a)) ->
  requesting (n1 + n2) (andThen m f).
Proof.
  intros Hm Hf files h. unfold andThen. specialize (Hm files h).
  destruct (m files h) as [[[a|] files'] h']; simpl in *.
  - specialize (Hf a files' h'). lia.
  - lia.
Qed.

Lemma withComing_same files : withComing (coming files) files = files.
Proof. destruct files; reflexivity. Qed.

(** The four ways of a write. *)
Lemma writeFileSync_cases whole cut files h :
  exists rest,
    writeFileSync whole cut files h
    = (Some tt, whole (withComing rest files), h)
    \/ writeFileSync whole cut files h = (None, withComing rest files, h)
    \/ (exists remains,
           writeFileSync whole cut files h
           = (None, cut remains (withComing rest files), h))
    \/ writeFileSync whole cut files h
       = (None, whole (withComing rest files), h).
Proof.
  unfold writeFileSync.
  destruct (coming files) as [|[| |remains|] rest] eqn:Hcoming.
  - exists []. left. now rewrite <- Hcoming, withComing_same.
  - exists rest. now left.
  - exists rest. right. now left.
  - exists rest. right. right. left. now exists remains.
  - exists rest. now repeat right.
Qed.

Lemma requesting_writeFileSync whole cut :
  requesting 0 (writeFileSync whole cut).
Proof.
  intros files h.
  destruct (writeFileSync_cases whole cut files h)
    as (rest & [H|[H|[(remains & H)|H]]]); rewrite H; simpl; lia.
Qed.

Lemma requesting_makeDirectories : requesting 0 makeDirectories.
Proof.
  intros files h. unfold makeDirectories.
  destruct (test_directory files); [simpl; lia|].
  destruct (coming files) as [|[| |remains|] rest]; simpl; lia.
Qed.

Lemma requesting_writeStats written : requesting 0 (writeStats written).
Proof.
  intros files h. unfold writeStats.
  destruct (test_directory files); [|simpl; lia].
  apply requesting_writeFileSync.
Qed.

Lemma requests_fetchWithRetry network url h :
  (Fetch.requests (snd (Fetch.fetchWithRetry network url 0 h))
   <= Fetch.requests h + 4)%nat.
Proof.
  destruct (FetchFacts.retry_spec network (Fetch.maxRetries - 0) url h)
    as (n & Hn & Hh & _).
  unfold Fetch.fetchWithRetry. rewrite Hh.
  rewrite !FetchFacts.requests_app, FetchFacts.requests_rounds.
  change (Fetch.requests [Fetch.Request url]) with 1%nat.
  unfold Fetch.maxRetries in Hn. lia.
Qed.

Section World.
Variable network : Fetch.History -> jsstring -> Fetch.Attempt.
Variable clock : Fetch.History -> Z.
Variable dataRows : jsstring -> list Row.
Variable countRows : jsstring -> list (list jsstring).
Variable firstHeading : jsstring -> jsstring.

Local Abbreviation attempt :=
  (Main.attempt network clock dataRows countRows firstHeading).
Local Abbreviation main :=
  (Main.main network clock dataRows countRows firstHeading).

Lemma requesting_fetched url : requesting 4 (fetched network url).
Proof.
  intros files h. unfold fetched.
  pose proof (requests_fetchWithRetry network url h) as H.
  destruct (Fetch.fetchWithRetry network url 0 h) as [[response|error] h'];
    exact H.
Qed.

Lemma requesting_getLatestEmojiVersion :
  requesting 4 (getLatestEmojiVersion network firstHeading).
Proof.
  intros files h. unfold getLatestEmojiVersion.
  pose proof (requests_fetchWithRetry network Updates.EMOJI_VERSION_URL h) as H.
  rewrite <- UpdateFacts.getLatestEmojiVersion_history
    with (firstHeading := firstHeading) in H.
  destruct (Updates.getLatestEmojiVersion network firstHeading h)
    as [[version|error] h']; exact H.
Qed.

Lemma requesting_checkForUpdates :
  requesting 4 (checkForUpdates network clock firstHeading).
Proof.
  intros files h. unfold checkForUpdates, Updates.checkForUpdates.
  destruct (readStats (stats_json files)) as [| |last_update version];
    simpl; try lia.
  destruct (clock h - Updates.lastUpdateOf last_update
            >? Updates.versionCheckInterval)%Z; simpl; [|lia].
  pose proof (requesting_getLatestEmojiVersion files h) as H.
  unfold getLatestEmojiVersion in H.
  destruct (Updates.getLatestEmojiVersion network firstHeading h)
    as [[latestVersion|error] h']; simpl in *; [|exact H].
  destruct (negb (str_eqb latestVersion (Updates.currentVersionOf version)));
    exact H.
Qed.

(** The assertions of the self-test hold. *)
Lemma testWithMockData_passes files h :
  testWithMockData files h = (Some tt, files, h).
Proof. reflexivity. Qed.

Lemma requesting_testWithMockData : requesting 0 testWithMockData.
Proof. intros files h. rewrite testWithMockData_passes. simpl. lia. Qed.

Lemma requesting_attempt test : requesting 16 (attempt test).
Proof.
  unfold Main.attempt. destruct test.
  - apply requesting_more with 0%nat; [lia|apply requesting_testWithMockData].
  - change 16%nat with (4 + 12)%nat. apply requesting_andThen.
    + apply requesting_checkForUpdates.
    + intros needsUpdate. destruct (negb needsUpdate).
      * apply requesting_more with 0%nat; [lia|apply requesting_ret].
      * change 12%nat
          with (0 + (4 + (4 + (0 + (0 + (0 + (0 + (0 + (4 + 0)))))))))%nat.
        apply requesting_andThen; [apply requesting_makeDirectories|].
        intros _. apply requesting_andThen.
        { change 4%nat with (4 + 0)%nat. apply requesting_andThen;
            [apply requesting_fetched|].
          intros response. apply requesting_writeFileSync. }
        intros _. apply requesting_andThen.
        { change 4%nat with (4 + 0)%nat. apply requesting_andThen;
            [apply requesting_fetched|].
          intros response. apply requesting_writeFileSync. }
        intros _. apply requesting_andThen.
        { intros files h. unfold readEmojiCounts.
          destruct (emoji_counts_html files); simpl; lia. }
        intros countsHtml. apply requesting_andThen.
        { intros files h. unfold readEmojiData.
          destruct (emoji_data_html files); simpl; lia. }
        intros dataHtml. apply requesting_andThen; [apply requesting_call|].
        intros stats. apply requesting_andThen; [apply requesting_call|].
        intros emojiData. apply requesting_andThen; [apply requesting_call|].
        intros groupData. apply requesting_andThen;
          [apply requesting_getLatestEmojiVersion|].
        intros version.
        change 0%nat with (0 + (0 + (0 + (0 + (0 + 0)))))%nat.
        apply requesting_andThen; [intros files h; simpl; lia|].
        intros time.
        apply requesting_andThen; [apply requesting_writeStats|].
        intros _.
        apply requesting_andThen; [apply requesting_writeFileSync|].
        intros _.
        apply requesting_andThen; [apply requesting_writeFileSync|].
        intros _.
        apply requesting_andThen; [apply requesting_writeFileSync|].
        intros _. apply requesting_writeFileSync.
Qed.

(** The five writes of the outputs: they leave the history and the pages
    as they are, and the outputs written up to the first call that
    throws. *)
Lemma write_outputs written emojiData groupData files h :
  test_directory files = true ->
  exists result files' n cut,
    (writeStats written ;;;
     writeByEmoji emojiData ;;;
     writeByGroup groupData ;;;
     writeOrdered (orderedEmojis emojiData) ;;;
     writeComponents (componentEmojis emojiData)) files h
    = (result, files', h)
    /\ emoji_counts_html files' = emoji_counts_html files
    /\ emoji_data_html files' = emoji_data_html files
    /\ (n <= 5)%nat
    /\ outputs files'
       = outputsAfter n cut written emojiData groupData (outputs files)
    /\ (result = Some tt -> n = 5%nat).
Proof.
  intros Hdir.
  cbv [andThen writeStats writeByEmoji writeByGroup writeOrdered
       writeComponents].
  rewrite Hdir.
  repeat
    match goal with
    | |- context [writeFileSync ?whole ?cut ?fs ?hist] =>
        let H := fresh "H" in
        destruct (writeFileSync_cases whole cut fs hist)
          as (? & [H|[H|[(? & H)|H]]]);
        rewrite H; clear H
    end;
    do 2 eexists;
    first [ exists 0%nat, false; split; [reflexivity|];
            do 2 (split; [reflexivity|]); split; [lia|];
            split; [reflexivity|intros; first [reflexivity|discriminate]]
          | exists 0%nat, true; split; [reflexivity|];
            do 2 (split; [reflexivity|]); split; [lia|];
            split; [reflexivity|intros; first [reflexivity|discriminate]]
          | exists 1%nat, false; split; [reflexivity|];
            do 2 (split; [reflexivity|]); split; [lia|];
            split; [reflexivity|intros; first [reflexivity|discriminate]]
          | exists 1%nat, true; split; [reflexivity|];
            do 2 (split; [reflexivity|]); split; [lia|];
            split; [reflexivity|intros; first [reflexivity|discriminate]]
          | exists 2%nat, false; split; [reflexivity|];
            do 2 (split; [reflexivity|]); split; [lia|];
            split; [reflexivity|intros; first [reflexivity|discriminate]]
          | exists 2%nat, true; split; [reflexivity|];
            do 2 (split; [reflexivity|]); split; [lia|];
            split; [reflexivity|intros; first [reflexivity|discriminate]]
          | exists 3%nat, false; split; [reflexivity|];
            do 2 (split; [reflexivity|]); split; [lia|];
            split; [reflexivity|intros; first [reflexivity|discriminate]]
          | exists 3%nat, true; split; [reflexivity|];
            do 2 (split; [reflexivity|]); split; [lia|];
            split; [reflexivity|intros; first [reflexivity|discriminate]]
          | exists 4%nat, false; split; [reflexivity|];
            do 2 (split; [reflexivity|]); split; [lia|];
            split; [reflexivity|intros; first [reflexivity|discriminate]]
          | exists 4%nat, true; split; [reflexivity|];
            do 2 (split; [reflexivity|]); split; [lia|];
            split; [reflexivity|intros; first [reflexivity|discriminate]]
          | exists 5%nat, false; split; [reflexivity|];
            do 2 (split; [reflexivity|]); split; [lia|];
            split; [reflexivity|intros; first [reflexivity|discriminate]] ].
Qed.

(** The outputs after the [try] block: as they were, or written in the
    order of [main] up to the first call that throws, all from the two
    pages that were downloaded. *)
Lemma attempt_outputs test files h :
  outputs (snd (fst (attempt test files h))) = outputs files
  \/ exists countsHtml dataHtml stats emojiData groupData version n cut,
      emoji_counts_html (snd (fst (attempt test files h))) = Some countsHtml
      /\ emoji_data_html (snd (fst (attempt test files h))) = Some dataHtml
      /\ Part000.parseEmojiCounts (countRows countsHtml) = Returned stats
      /\ Part000.parseEmojiData (dataRows dataHtml) = Returned emojiData
      /\ generateGroupData emojiData = Returned groupData
      /\ (n <= 5)%nat
      /\ outputs (snd (fst (attempt test files h)))
         = outputsAfter n cut
             {| stats := stats; emoji_version := version;
                last_update := clock (snd (attempt test files h)) |}
             emojiData groupData (outputs files)
      /\ (fst (fst (attempt test files h)) = Some tt -> n = 5%nat).
Proof.
  unfold Main.attempt. destruct test.
  { left. now rewrite testWithMockData_passes. }
  unfold autoUpdate.
  cbv [andThen checkForUpdates].
  destruct (Updates.checkForUpdates network firstHeading
              (readStats (stats_json files)) (clock h) h) as [needsUpdate h1].
  destruct needsUpdate; cbn [negb]; [|now left].
  assert (Hdirs : exists files1,
             outputs files1 = outputs files
             /\ (makeDirectories files h1 = (None, files1, h1)
                 \/ (makeDirectories files h1 = (Some tt, files1, h1)
                     /\ test_directory files1 = true))).
  { unfold makeDirectories.
    destruct (test_directory files) eqn:Hdir.
    - exists files. split; [reflexivity|]. right. now split.
    - destruct (coming files) as [|[| |remains|] rest]; eexists;
        (split; [|first [left; reflexivity|right; split; reflexivity]]);
        reflexivity. }
  destruct Hdirs as (files1 & Hout1 & [Hdirs|[Hdirs Hdir]]); rewrite Hdirs;
    [now left|].
  cbv [downloadEmojiData downloadEmojiCounts fetched andThen
       writeEmojiData writeEmojiCounts].
  destruct (Fetch.fetchWithRetry network EMOJI_DATA_URL 0 h1)
    as [[response1|error1] h2]; [|now left].
  destruct (writeFileSync_cases
              (withEmojiData (Some (Fetch.text response1)))
              (fun remains => withEmojiData (Some remains)) files1 h2)
    as (rest1 & [H|[H|[(remains & H)|H]]]); rewrite H; clear H;
    [|now left|now left|now left].
  destruct (Fetch.fetchWithRetry network EMOJI_COUNTS_URL 0 h2)
    as [[response2|error2] h3]; [|now left].
  destruct (writeFileSync_cases
              (withEmojiCounts (Some (Fetch.text response2)))
              (fun remains => withEmojiCounts (Some remains))
              (withEmojiData (Some (Fetch.text response1))
                             (withComing rest1 files1)) h3)
    as (rest2 & [H|[H|[(remains & H)|H]]]); rewrite H; clear H;
    [|now left|now left|now left].
  cbv [readEmojiCounts readEmojiData].
  cbn [emoji_counts_html emoji_data_html withEmojiCounts withEmojiData
       withComing].
  destruct (Part000.parseEmojiCounts (countRows (Fetch.text response2)))
    as [stats|e] eqn:Hstats; cbn [call ret throw]; [|now left].
  destruct (Part000.parseEmojiData (dataRows (Fetch.text response1)))
    as [emojiData|e] eqn:Hdata; cbn [call ret throw]; [|now left].
  destruct (generateGroupData emojiData) as [groupData|e] eqn:Hgroups;
    cbn [call ret throw]; [|now left].
  cbv [getLatestEmojiVersion].
  destruct (Updates.getLatestEmojiVersion network firstHeading h3)
    as [[version|error] h4]; [|now left].
  cbv [now].
  match goal with
  | |- context [writeStats ?written ?fs ?hist] =>
      destruct (@write_outputs written emojiData groupData fs hist)
        as (result & files' & n & cut & Hrun & Hcounts & Hpage & Hn & Hout
            & Hret); [exact Hdir|]
  end.
  cbv [andThen] in Hrun. rewrite Hrun. cbn [fst snd].
  right.
  exists (Fetch.text response2), (Fetch.text response1), stats, emojiData,
    groupData, version, n, cut.
  split; [now rewrite Hcounts|]. split; [now rewrite Hpage|].
  do 3 (split; [assumption|]). split; [assumption|].
  split; [|assumption].
  rewrite Hout. now rewrite <- Hout1.
Qed.

(** Within the interval of a statistics file that [main] wrote, the
    [try] block does nothing. *)
Lemma attempt_idle files h written :
  stats_json files = FromMain written ->
  (clock h - last_update written <= 86400000)%Z ->
  attempt false files h = (Some tt, files, h).
Proof.
  intros Hstats Hclock. unfold Main.attempt, autoUpdate.
  cbv [andThen checkForUpdates]. rewrite Hstats. cbn [readStats].
  rewrite UpdateFacts.checkForUpdates_recent by assumption.
  reflexivity.
Qed.

End World.
End MainFacts.

(** X24.  With [--test], [main] runs the self-test only: its six
    assertions hold, so [main] returns, and it requests nothing and
    writes no file, whatever the files and the network are. *)
Theorem self_test_mode
    (network : Fetch.History -> jsstring -> Fetch.Attempt)
    (clock : Fetch.History -> Z)
    (dataRows : jsstring -> list Row)
    (countRows : jsstring -> list (list jsstring))
    (firstHeading : jsstring -> jsstring)
    (files : Main.Files) (h : Fetch.History) :
  Main.testWithMockData files h = (Some tt, files, h)
  /\ Main.main network clock dataRows countRows firstHeading true files h
     = (Main.Returns, files, h).
Proof.
  split; [apply MainFacts.testWithMockData_passes|].
  unfold Main.main, Main.attempt.
  now rewrite MainFacts.testWithMockData_passes.
Qed.

(** A run that stops in the middle: the write of the groups is refused,
    [main] ends with [process.exit(1)], and the statistics and the mapping
    that it wrote before stay written, without the three other files. *)
Lemma refused_write_keeps_earlier_outputs :
  match Main.main steadyNetwork tickingClock selfTestDataRows
                  selfTestCountRows wholePage false groupsRefused [] with
  | (exit, files', h') =>
      exit = Main.Exits1
      /\ (exists written, Main.stats_json files' = Main.FromMain written)
      /\ (exists emojiData,
             Main.data_by_emoji_json files' = Main.Holds emojiData)
      /\ Main.data_by_group_json files' = Main.NotThere
      /\ Main.data_ordered_emoji_json files' = Main.NotThere
      /\ Main.data_emoji_components_json files' = Main.NotThere
  end.
Proof.
  vm_compute.
  split; [reflexivity|]. split; [eexists; reflexivity|].
  split; [eexists; reflexivity|]. repeat split.
Qed.


(** A run in which the write of the statistics is cut: it changes that
    file and ends with [process.exit(1)], and the run an hour later is not
    idle, since [checkForUpdates] cannot parse what is left of the file. *)
Lemma cut_statistics_are_made_again :
  match Main.main steadyNetwork tickingClock selfTestDataRows
                  selfTestCountRows wholePage false statsCut [] with
  | (exit, files', h') =>
      exit = Main.Exits1
      /\ Main.outputs files' <> Main.outputs statsCut
      /\ Main.stats_json files' = Main.Found Updates.Unreadable
      /\ (tickingClock (h' ++ [Fetch.Pause 3600000]) - tickingClock h'
          <= 86400000)%Z
      /\ Main.main steadyNetwork tickingClock selfTestDataRows
                   selfTestCountRows wholePage false files'
                   (h' ++ [Fetch.Pause 3600000])
         <> (Main.Returns, files', h' ++ [Fetch.Pause 3600000])
  end.
Proof.
  vm_compute.
  split; [reflexivity|]. split; [discriminate|]. split; [reflexivity|].
  split; discriminate.
Qed.

(** X26.  A run of [main] that changed an output file, and did not leave
    the statistics cut short, is followed by idle runs: for 24 hours after
    its write of the statistics, [main] returns without a request and
    leaves every file as it is.  (Where the write of the statistics is cut,
    the next run makes everything again: [cut_statistics_are_made_again].) *)
Theorem main_then_idle
    (network : Fetch.History -> jsstring -> Fetch.Attempt)
    (clock : Fetch.History -> Z)
    (dataRows : jsstring -> list Row)
    (countRows : jsstring -> list (list jsstring))
    (firstHeading : jsstring -> jsstring)
    (files files' : Main.Files) (h h' later : Fetch.History) (exit : Main.Exit) :
  Main.main network clock dataRows countRows firstHeading false files h
  = (exit, files', h') ->
  Main.outputs files' <> Main.outputs files ->
  Main.stats_json files' <> Main.Found Updates.Unreadable ->
  (clock later - clock h' <= 86400000)%Z ->
  Main.main network clock dataRows countRows firstHeading false files' later
  = (Main.Returns, files', later).
Proof.
  intros Hrun Hchanged Hwhole Hlater.
  pose proof (MainFacts.attempt_outputs network clock dataRows countRows
                                        firstHeading false files h) as H.
  unfold Main.main in Hrun.
  destruct (Main.attempt network clock dataRows countRows firstHeading
                         false files h) as [[result files1] h1]; simpl in H.
  assert (files1 = files' /\ h1 = h') as [-> ->]
    by (destruct result; injection Hrun; auto).
  destruct H as [H|(countsHtml & dataHtml & stats & emojiData & groupData
                    & version & n & cut & _ & _ & _ & _ & _ & _ & Hout & _)];
    [contradiction|].
  assert (Hstats : Main.stats_json files'
                   = Main.FromMain {| Main.stats := stats;
                                      Main.emoji_version := version;
                                      Main.last_update := clock h' |}).
  { unfold Main.outputs, Main.outputsAfter in Hout.
    destruct n as [|n]; [|now injection Hout].
    destruct cut; cbn in Hout.
    - injection Hout as Hstats _ _ _ _. contradiction.
    - contradiction. }
  unfold Main.main.
  now rewrite (@MainFacts.attempt_idle network clock dataRows countRows
                                       firstHeading _ _ _ Hstats Hlater).
Qed.

Lemma main_then_idle_first_run :
  let first := Main.main steadyNetwork tickingClock selfTestDataRows
                         selfTestCountRows wholePage false noFiles [] in
  Main.main steadyNetwork tickingClock selfTestDataRows selfTestCountRows
            wholePage false (snd (fst first))
            (snd first ++ [Fetch.Pause 3600000])
  = (Main.Returns, snd (fst first), snd first ++ [Fetch.Pause 3600000]).
Proof.
  intros first.
  apply (@main_then_idle steadyNetwork tickingClock selfTestDataRows
                         selfTestCountRows wholePage noFiles (snd (fst first))
                         [] (snd first) (snd first ++ [Fetch.Pause 3600000])
                         Main.Returns).
  - vm_compute. reflexivity.
  - vm_compute. discriminate.
  - vm_compute. discriminate.
  - vm_compute. discriminate.
Defined.

(** X27.  [main] makes at most sixteen requests: at most four for each of
    the version check, the two pages and the version that it stores. *)
Theorem main_requests
    (network : Fetch.History -> jsstring -> Fetch.Attempt)
    (clock : Fetch.History -> Z)
    (dataRows : jsstring -> list Row)
    (countRows : jsstring -> list (list jsstring))
    (firstHeading : jsstring -> jsstring)
    (test : bool) (files : Main.Files) (h : Fetch.History) :
  (Fetch.requests
     (snd (Main.main network clock dataRows countRows firstHeading test files h))
   <= Fetch.requests h + 16)%nat.
Proof.
  pose proof (MainFacts.requesting_attempt network clock dataRows countRows
                                           firstHeading test files h) as H.
  unfold Main.main.
  destruct (Main.attempt network clock dataRows countRows firstHeading
                         test files h) as [[[[]|] files'] h']; exact H.
Qed.
